(** * eValidate: the rule-authoring form, the report form and their store

    A shallow embedding of
      - [src/pages/SystemConfigPage.tsx]: [fetchRules], [handleSubmit],
        [handleEdit], [handleDelete], [toggleRuleStatus], [resetForm],
        [formatRuleValue];
      - [src/pages/ReportFormPage.tsx]: [fetchProduct], [handleSubmit];
      - [DashboardPage] of [src/unnamed/part_000]: [fetchProducts],
        [filteredProducts];
      - [src/types/index.ts]: [Product], [Report], [Rule],
        [ComplianceViolation];
      - [supabase/migrations]: the tables, the column [rule_value jsonb]
        and the row-level policies of [rules], [products] and [reports];
    together with the fragment of the JavaScript runtime these handlers
    call ([String.prototype.split], [trim], [parseFloat], [Array.prototype.join],
    template literals, [JSON.stringify], [toLowerCase], [includes]).

    Conventions of the embedding.
      - A JavaScript string is a [string]; a character stands for one code
        unit below 256.  On such strings [toLowerCase] works character by
        character; its context-sensitive mappings concern code units that
        these strings do not have.
      - A JavaScript number is the exact decimal value of its literal
        ([Finite]), an infinity or [NaN]; rounding to binary64 is outside
        the model.  A statement that gives the value of a literal is
        made for values that binary64 holds exactly; the other
        statements about numbers concern their sign, their shape in the
        store, or printing and reading back, and do not rest on values
        that rounding would change.
      - The hosted data store is a record of tables.  A request is
        answered with an error or without one; which requests fail is an
        input of the model ([faults]).  A request answered without error
        has been applied to the rows that the policies of the migration
        let the session reach, which may be none of them.  The column
        [rule_value] holds the JSON form of the value that was sent.
      - No code of the repository evaluates a rule against a product.
        The module [RuleEngine] is written from the specification
        (sections 4.1, 4.2 and 6) and is marked so, definition by
        definition. *)

From Stdlib Require Import String Ascii List ZArith NArith Bool Lia Permutation.
Import ListNotations.
Local Open Scope string_scope.
Local Open Scope list_scope.

(** ** The JavaScript fragment *)

Module Js.

(** *** Strings *)

(** [WhiteSpace] and [LineTerminator] code units below 256: TAB, LF, VT,
    FF, CR, SP and NBSP. *)
Definition is_whitespace (c : ascii) : bool :=
  match nat_of_ascii c with
  | 9 | 10 | 11 | 12 | 13 | 32 | 160 => true
  | _ => false
  end.

Fixpoint trimStart (s : string) : string :=
  match s with
  | EmptyString => EmptyString
  | String c r => if is_whitespace c then trimStart r else s
  end.

Fixpoint trimEnd (s : string) : string :=
  match s with
  | EmptyString => EmptyString
  | String c r =>
      match trimEnd r with
      | EmptyString => if is_whitespace c then EmptyString else String c EmptyString
      | r' => String c r'
      end
  end.

(** [s.trim()] *)
Definition trim (s : string) : string := trimEnd (trimStart s).

(** [s.split(sep)] for a separator of one character. *)
Fixpoint split (sep : ascii) (s : string) : list string :=
  match s with
  | EmptyString => [EmptyString]
  | String c r =>
      if Ascii.eqb c sep then EmptyString :: split sep r
      else match split sep r with
           | h :: t => String c h :: t
           | [] => [String c EmptyString]
           end
  end.

(** [parts.join(sep)] on an array of strings. *)
Fixpoint join (sep : string) (parts : list string) : string :=
  match parts with
  | [] => EmptyString
  | [p] => p
  | p :: rest => p ++ sep ++ join sep rest
  end.

Fixpoint contains (c : ascii) (s : string) : bool :=
  match s with
  | EmptyString => false
  | String d r => Ascii.eqb d c || contains c r
  end.

Definition is_empty (s : string) : bool :=
  match s with EmptyString => true | _ => false end.

(** Number of occurrences of [c] in [s]. *)
Fixpoint count_char (c : ascii) (s : string) : nat :=
  match s with
  | EmptyString => O
  | String d r => if Ascii.eqb d c then S (count_char c r) else count_char c r
  end.

Definition starts_with_whitespace (s : string) : bool :=
  match s with
  | String c _ => is_whitespace c
  | EmptyString => false
  end.

Fixpoint ends_with_whitespace (s : string) : bool :=
  match s with
  | EmptyString => false
  | String c EmptyString => is_whitespace c
  | String _ r => ends_with_whitespace r
  end.

(** No white space at either end. *)
Definition is_trimmed (s : string) : bool :=
  negb (starts_with_whitespace s) && negb (ends_with_whitespace s).


(** *** Numbers *)

(** [Finite neg m e] is the number [(-1)^neg * m * 10^e]. *)
Inductive number : Type :=
| NaN
| Infinity (neg : bool)
| Finite (neg : bool) (m : N) (e : Z).

Definition is_digit (c : ascii) : bool :=
  let n := nat_of_ascii c in (48 <=? n)%nat && (n <=? 57)%nat.

Definition digit_value (c : ascii) : N := N.of_nat (nat_of_ascii c - 48).

Definition digit_char (d : N) : ascii := ascii_of_nat (48 + N.to_nat d).

(** The value of a run of decimal digits, read left to right. *)
Fixpoint digits_value (acc : N) (s : string) : N :=
  match s with
  | EmptyString => acc
  | String c r => digits_value (acc * 10 + digit_value c) r
  end.

Fixpoint all_digits (s : string) : bool :=
  match s with
  | EmptyString => true
  | String c r => is_digit c && all_digits r
  end.

(** A character of an unsigned literal: a digit, the decimal point, the
    exponent mark [e] or the sign [+]. *)
Definition is_plain_char (c : ascii) : bool :=
  is_digit c || Ascii.eqb c "." || Ascii.eqb c "e" || Ascii.eqb c "+".

Fixpoint plain (s : string) : bool :=
  match s with
  | EmptyString => true
  | String c r => is_plain_char c && plain r
  end.

(** Longest prefix of digits, and what follows it. *)
Fixpoint span_digits (s : string) : string * string :=
  match s with
  | EmptyString => (EmptyString, EmptyString)
  | String c r =>
      if is_digit c
      then let (d, rest) := span_digits r in (String c d, rest)
      else (EmptyString, s)
  end.

(** Decimal digits of a natural number, most significant first. *)
Fixpoint digits_fuel (fuel : nat) (n : N) : string :=
  match fuel with
  | O => EmptyString
  | S f =>
      if (n <? 10)%N then String (digit_char n) EmptyString
      else digits_fuel f (n / 10) ++ String (digit_char (n mod 10)) EmptyString
  end.

Definition digits_of_N (n : N) : string := digits_fuel (S (N.to_nat (N.size n))) n.

(** Canonical representative of [m * 10^e]: the exponent is at most 0 and
    as close to 0 as the value allows. *)
Fixpoint strip_zeros (fuel : nat) (m : N) (e : Z) : N * Z :=
  match fuel with
  | O => (m, e)
  | S f =>
      if (e <? 0)%Z && (m mod 10 =? 0)%N then strip_zeros f (m / 10) (e + 1)%Z
      else (m, e)
  end.

Definition normalize (neg : bool) (m : N) (e : Z) : number :=
  if (m =? 0)%N then Finite neg 0 0
  else if (0 <=? e)%Z then Finite neg (m * 10 ^ Z.to_N e) 0
  else let (m', e') := strip_zeros (Z.to_nat (- e)) m e in Finite neg m' e'.

Definition of_N (n : N) : number := Finite false n 0.

Definition of_Z (z : Z) : number := Finite (z <? 0)%Z (Z.abs_N z) 0.

Definition take_sign (s : string) : bool * string :=
  match s with
  | String "-" r => (true, r)
  | String "+" r => (false, r)
  | _ => (false, s)
  end.

Definition is_exponent_mark (c : ascii) : bool :=
  Ascii.eqb c "e" || Ascii.eqb c "E".

(** The value of an [ExponentPart] at the head of [s]; 0 when [s] does
    not start with a complete one. *)
Definition exponent_part (s : string) : Z :=
  match s with
  | String c r =>
      if is_exponent_mark c then
        let (eneg, r1) := take_sign r in
        let (ed, _) := span_digits r1 in
        if is_empty ed then 0%Z
        else if eneg then (- Z.of_N (digits_value 0 ed))%Z
             else Z.of_N (digits_value 0 ed)
      else 0%Z
  | EmptyString => 0%Z
  end.

(** [parseFloat(s)]: skip leading white space, then read the longest
    prefix that is a [StrDecimalLiteral]; [NaN] when there is none. *)
Definition parseFloat (s : string) : number :=
  let (neg, s1) := take_sign (trimStart s) in
  if String.prefix "Infinity" s1 then Infinity neg
  else
    let (ip, s2) := span_digits s1 in
    let (fp, s3) :=
      match s2 with
      | String "." r => span_digits r
      | _ => (EmptyString, s2)
      end in
    if is_empty ip && is_empty fp then NaN
    else normalize neg (digits_value 0 (ip ++ fp))
                   (exponent_part s3 - Z.of_nat (String.length fp)).

Fixpoint zeros (n : nat) : string :=
  match n with
  | O => EmptyString
  | S k => String "0" (zeros k)
  end.

(** Drops the zeros at the end of a digit string. *)
Fixpoint strip_trailing_zeros (s : string) : string :=
  match s with
  | EmptyString => EmptyString
  | String c r =>
      match strip_trailing_zeros r with
      | EmptyString => if Ascii.eqb c "0" then EmptyString else String c EmptyString
      | r' => String c r'
      end
  end.

(** [s.slice(0, n)] and [s.slice(n)] *)
Fixpoint take (n : nat) (s : string) : string :=
  match n, s with
  | S k, String c r => String c (take k r)
  | _, _ => EmptyString
  end.

Fixpoint drop (n : nat) (s : string) : string :=
  match n, s with
  | S k, String _ r => drop k r
  | _, _ => s
  end.

(** [Number::toString] for a positive value with significant digits
    [s] (no trailing zero, [k] of them) and decimal point after [n]
    digits. *)
Definition magnitude_toString (s : string) (n : Z) : string :=
  let k := Z.of_nat (String.length s) in
  if ((k <=? n) && (n <=? 21))%Z then s ++ zeros (Z.to_nat (n - k))
  else if ((0 <? n) && (n <=? 21))%Z then
    take (Z.to_nat n) s ++ "." ++ drop (Z.to_nat n) s
  else if ((-6 <? n) && (n <=? 0))%Z then
    "0." ++ zeros (Z.to_nat (- n)) ++ s
  else
    let ex := (n - 1)%Z in
    let esign := if (ex <? 0)%Z then "-" else "+" in
    let edigits := digits_of_N (Z.abs_N ex) in
    if (k =? 1)%Z then s ++ "e" ++ esign ++ edigits
    else take 1 s ++ "." ++ drop 1 s ++ "e" ++ esign ++ edigits.

(** [Number::toString(x)], radix 10. *)
Definition number_toString (x : number) : string :=
  match x with
  | NaN => "NaN"
  | Infinity neg => if neg then "-Infinity" else "Infinity"
  | Finite neg m e =>
      if (m =? 0)%N then "0"
      else
        let ds := digits_of_N m in
        let s := strip_trailing_zeros ds in
        let body := magnitude_toString s (Z.of_nat (String.length ds) + e) in
        if neg then "-" ++ body else body
  end.

(** *** Values *)

#[warnings="-register-all"]
Inductive value : Type :=
| VUndefined
| VNull
| VBool (b : bool)
| VNum (x : number)
| VStr (s : string)
| VArr (items : list value)
| VObj (props : list (string * value)).

Inductive exn : Type :=
| TypeError.

(** What a call produces: a string, [undefined], or an exception. *)
Inductive outcome : Type :=
| Returns (s : string)
| ReturnsUndefined
| Throws (e : exn).

Definition isArray (v : value) : bool :=
  match v with VArr _ => true | _ => false end.

Definition items_of (v : value) : list value :=
  match v with VArr items => items | _ => [] end.

(** [typeof v === 'object'] *)
Definition typeof_object (v : value) : bool :=
  match v with VNull | VArr _ | VObj _ => true | _ => false end.

Fixpoint lookup (k : string) (props : list (string * value)) : value :=
  match props with
  | [] => VUndefined
  | (k', v) :: rest => if String.eqb k k' then v else lookup k rest
  end.

(** [v.k] for a property name [k] that no prototype defines (here [min]
    and [max]): the own property of an object, [undefined] on other
    values, a [TypeError] on [null] and [undefined]. *)
Definition get (v : value) (k : string) : option value :=
  match v with
  | VUndefined | VNull => None
  | VObj props => Some (lookup k props)
  | _ => Some VUndefined
  end.

(** Whether an object has an own property named [k]. *)
Definition has_own (k : string) (props : list (string * value)) : bool :=
  existsb (fun p => String.eqb k (fst p)) props.

(** The strings of a list of results, unless one of them is an
    exception. *)
Fixpoint all_some (l : list (option string)) : option (list string) :=
  match l with
  | [] => Some []
  | Some s :: rest =>
      match all_some rest with
      | Some t => Some (s :: t)
      | None => None
      end
  | None :: _ => None
  end.

(** [ToString(v)], as a template literal applies it; [None] stands for
    a [TypeError].  The values are data (they come out of [JSON.parse] or
    out of [handleSubmit]), so no property of theirs is a function: an
    object prints through [Object.prototype.toString] unless it has an
    own property [toString], which is then not callable, and
    [OrdinaryToPrimitive] finds no primitive ([valueOf] gives the object
    back).  An array prints through [Array.prototype.join]. *)
Fixpoint toString (v : value) : option string :=
  match v with
  | VUndefined => Some "undefined"
  | VNull => Some "null"
  | VBool b => Some (if b then "true" else "false")
  | VNum x => Some (number_toString x)
  | VStr s => Some s
  | VArr items =>
      match all_some (map (fun x => match x with
                                    | VUndefined | VNull => Some EmptyString
                                    | _ => toString x
                                    end) items) with
      | Some parts => Some (join "," parts)
      | None => None
      end
  | VObj props => if has_own "toString" props then None else Some "[object Object]"
  end.

(** [items.join(sep)]: [null] and [undefined] elements give the empty
    string, the others their [ToString]. *)
Definition array_join (sep : string) (items : list value) : option string :=
  match all_some (map (fun x => match x with
                                | VUndefined | VNull => Some EmptyString
                                | _ => toString x
                                end) items) with
  | Some parts => Some (join sep parts)
  | None => None
  end.

Definition quote_char : ascii := ascii_of_nat 34.
Definition backslash : ascii := ascii_of_nat 92.

Definition hex_digit (n : nat) : ascii :=
  if (n <? 10)%nat then ascii_of_nat (48 + n) else ascii_of_nat (87 + n).

(** One code unit inside a JSON string literal. *)
Definition escape_char (c : ascii) : string :=
  let n := nat_of_ascii c in
  match n with
  | 8 => String backslash "b"
  | 9 => String backslash "t"
  | 10 => String backslash "n"
  | 12 => String backslash "f"
  | 13 => String backslash "r"
  | 34 => String backslash (String quote_char EmptyString)
  | 92 => String backslash (String backslash EmptyString)
  | _ =>
      if (n <? 32)%nat
      then String backslash
             ("u00" ++ String (hex_digit (n / 16)) (String (hex_digit (n mod 16)) EmptyString))
      else String c EmptyString
  end.

Fixpoint escape (s : string) : string :=
  match s with
  | EmptyString => EmptyString
  | String c r => escape_char c ++ escape r
  end.

(** [QuoteJSONString] *)
Definition quote (s : string) : string :=
  String quote_char (escape s ++ String quote_char EmptyString).

(** [JSON.stringify(v)]; [None] stands for the result [undefined]. *)
Fixpoint stringify (v : value) : option string :=
  match v with
  | VUndefined => None
  | VNull => Some "null"
  | VBool b => Some (if b then "true" else "false")
  | VNum x =>
      Some (match x with
            | Finite _ _ _ => number_toString x
            | _ => "null"
            end)
  | VStr s => Some (quote s)
  | VArr items =>
      Some ("[" ++ join ","
                     (map (fun x => match stringify x with
                                    | Some t => t
                                    | None => "null"
                                    end) items) ++ "]")%string
  | VObj props =>
      Some ("{" ++ join ","
                     (flat_map (fun p => match p with
                                         | (k, x) =>
                                             match stringify x with
                                             | Some t => [(quote k ++ ":" ++ t)%string]
                                             | None => []
                                             end
                                         end) props) ++ "}")%string
  end.

(** *** Searching *)

(** [c.toLowerCase()] on a code unit below 256: the letters [A]-[Z] and
    the capital letters of Latin-1 (U+00C0-U+00DE but the sign U+00D7). *)
Definition lower_char (c : ascii) : ascii :=
  let n := nat_of_ascii c in
  if ((65 <=? n) && (n <=? 90))%nat then ascii_of_nat (n + 32)
  else if ((192 <=? n) && (n <=? 222) && negb (n =? 215))%nat then ascii_of_nat (n + 32)
  else c.

(** [s.toLowerCase()] *)
Fixpoint toLowerCase (s : string) : string :=
  match s with
  | EmptyString => EmptyString
  | String c r => String (lower_char c) (toLowerCase r)
  end.

(** [s.includes(t)] *)
Fixpoint includes (s t : string) : bool :=
  String.prefix t s
  || match s with
     | EmptyString => false
     | String _ r => includes r t
     end.

End Js.

Import Js.

(** ** The data model ([src/types/index.ts]) *)

(** Row identifiers are opaque ([uuid] columns); instants are counted. *)
Definition uuid : Type := N.
Definition timestamp : Type := N.

Inductive ComplianceStatus : Type := compliant | non_compliant | pending.
Inductive Severity : Type := low | medium | high.
Inductive ReportStatus : Type := open | in_progress | resolved | closed.
Inductive RuleType : Type := presence | regex | list_ | range | custom.

Definition RuleType_eqb (a b : RuleType) : bool :=
  match a, b with
  | presence, presence | regex, regex | list_, list_
  | range, range | custom, custom => true
  | _, _ => false
  end.

Module User.
Record t : Type := mk {
  id : uuid;
  email : string;
  created_at : timestamp
}.
End User.

Module Product.
Record t : Type := mk {
  id : uuid;
  name : string;
  manufacturer : option string;
  description : option string;
  image_url : option string;
  mrp : option number;
  net_quantity : option string;
  country_of_origin : option string;
  date_of_manufacture : option string;
  consumer_care_details : option string;
  platform : option string;
  platform_product_id : option string;
  compliance_status : ComplianceStatus;
  created_at : timestamp;
  updated_at : timestamp
}.
End Product.

Module Report.
Record t : Type := mk {
  id : uuid;
  product_id : uuid;
  reporter_id : uuid;
  license_number : option string;
  violation_details : string;
  violation_type : option string;
  severity : Severity;
  status : ReportStatus;
  created_at : timestamp;
  updated_at : timestamp
}.
End Report.

Module Rule.
Record t : Type := mk {
  id : uuid;
  rule_name : string;
  field_to_validate : string;
  rule_type : RuleType;
  rule_value : value;
  description : option string;
  is_active : bool;
  created_by : option uuid;
  created_at : timestamp;
  updated_at : timestamp
}.
End Rule.

Module ComplianceViolation.
Record t : Type := mk {
  field : string;
  rule_name : string;
  message : string;
  severity : Severity
}.
End ComplianceViolation.

(** ** The data store

    The tables of [supabase/migrations] behind the requests the pages
    send, with the row-level policies the migration sets on them.  A
    request answers [{ data, error }].  With [error] set nothing is
    written.  With [error] null the request has been applied to the rows
    the policies let the session reach: an update or a delete of rules
    reaches only the rules the user of the session created, and says
    nothing about the others. *)

Module Store.

Inductive StorageError : Type := storage_error.

Record database : Type := mkdb {
  products : list Product.t;
  reports : list Report.t;
  rules : list Rule.t;
  next_id : uuid;          (* [gen_random_uuid()] *)
  now : timestamp          (* [now()] *)
}.

(** [faults]: for each coming request, whether it fails; none fails once
    the list is used up. *)
Record world : Type := mkworld {
  db : database;
  faults : list bool
}.

(** Receives one request: tells whether it is accepted. *)
Definition accept (w : world) : bool * world :=
  match faults w with
  | [] => (true, w)
  | f :: rest => (negb f, mkworld (db w) rest)
  end.

(** Whether the coming request is accepted. *)
Definition accepts (w : world) : bool := fst (accept w).

(** *** The column [rule_value jsonb]

    The value of a request travels as JSON and the column holds it as
    [jsonb]; what a later select gives back is the value below, not the
    JavaScript value that was sent. *)

(** The length in bytes of the UTF-8 form of a string of code units
    below 256. *)
Fixpoint utf8_length (s : string) : nat :=
  match s with
  | EmptyString => O
  | String c r => (if (nat_of_ascii c <? 128)%nat then 1 else 2) + utf8_length r
  end.

(** The order in which [jsonb] keeps the keys of an object: the shorter
    key first, and keys of one length in the order of their bytes. *)
Definition key_ltb (a b : string) : bool :=
  (utf8_length a <? utf8_length b)%nat
  || ((utf8_length a =? utf8_length b)%nat && String.ltb a b).

(** Adds the member [k: v] to an object whose keys are in the order of
    [jsonb], in the place of the member of that name if there is one. *)
Fixpoint put (k : string) (v : value) (members : list (string * value))
    : list (string * value) :=
  match members with
  | [] => [(k, v)]
  | (k', v') :: rest =>
      if String.eqb k k' then (k, v) :: rest
      else if key_ltb k k' then (k, v) :: members
      else (k', v') :: put k v rest
  end.

(** A key that is an array index: JavaScript lists these keys of an
    object first, in ascending order, and the other keys after them in
    the order they were added. *)
Definition is_array_index (k : string) : bool :=
  match k with
  | EmptyString => false
  | String "0" EmptyString => true
  | String "0" _ => false
  | _ => all_digits k && (digits_value 0 k <? 4294967295)%N
  end.

(** [JSON.parse] of what the column gives back for [JSON.stringify(v)],
    [v] inside an array or an object.  [NaN] and the infinities are
    written as [null], and so is [undefined] in an array; a member whose
    value is [undefined] is left out; [-0] is written as [0]; the keys of
    an object come back in the order of [jsonb], as JavaScript lists
    them. *)
Fixpoint jsonb (v : value) : value :=
  match v with
  | VUndefined => VNull
  | VNum (Finite neg m e) => if (m =? 0)%N then VNum (Finite false 0 0) else VNum (Finite neg m e)
  | VNum _ => VNull
  | VArr items => VArr (map jsonb items)
  | VObj props =>
      let members :=
        fold_right (fun p acc => match p with
                                 | (k, x) =>
                                     match x with
                                     | VUndefined => acc
                                     | _ => put k (jsonb x) acc
                                     end
                                 end) [] props in
      VObj (filter (fun p => is_array_index (fst p)) members
            ++ filter (fun p => negb (is_array_index (fst p))) members)
  | _ => v
  end.

(** A value other than [undefined]: [JSON.stringify] leaves a member
    whose value is [undefined] out of the body of the request. *)
Definition is_defined (v : value) : bool :=
  match v with VUndefined => false | _ => true end.

(** The payload [ruleData] of [handleSubmit]. *)
Module RuleData.
Record t : Type := mk {
  rule_name : string;
  field_to_validate : string;
  rule_type : RuleType;
  rule_value : value;
  description : string;
  is_active : bool;
  created_by : uuid
}.
End RuleData.

(** The payload of the report insert. *)
Module ReportData.
Record t : Type := mk {
  product_id : uuid;
  reporter_id : uuid;
  license_number : string;
  violation_details : string;
  violation_type : string;
  severity : Severity
}.
End ReportData.

Definition new_rule (d : database) (r : RuleData.t) : Rule.t :=
  Rule.mk (next_id d) (RuleData.rule_name r) (RuleData.field_to_validate r)
    (RuleData.rule_type r) (jsonb (RuleData.rule_value r))
    (Some (RuleData.description r)) (RuleData.is_active r)
    (Some (RuleData.created_by r)) (now d) (now d).

(** The columns of the payload overwrite those of the row; a payload
    without [rule_value] leaves the column as it is. *)
Definition patch_rule (r : RuleData.t) (row : Rule.t) : Rule.t :=
  Rule.mk (Rule.id row) (RuleData.rule_name r) (RuleData.field_to_validate r)
    (RuleData.rule_type r)
    (if is_defined (RuleData.rule_value r) then jsonb (RuleData.rule_value r)
     else Rule.rule_value row)
    (Some (RuleData.description r)) (RuleData.is_active r)
    (Some (RuleData.created_by r)) (Rule.created_at row) (Rule.updated_at row).

Definition set_is_active (b : bool) (row : Rule.t) : Rule.t :=
  Rule.mk (Rule.id row) (Rule.rule_name row) (Rule.field_to_validate row)
    (Rule.rule_type row) (Rule.rule_value row) (Rule.description row) b
    (Rule.created_by row) (Rule.created_at row) (Rule.updated_at row).

Definition set_compliance_status (c : ComplianceStatus) (row : Product.t) : Product.t :=
  Product.mk (Product.id row) (Product.name row) (Product.manufacturer row)
    (Product.description row) (Product.image_url row) (Product.mrp row)
    (Product.net_quantity row) (Product.country_of_origin row)
    (Product.date_of_manufacture row) (Product.consumer_care_details row)
    (Product.platform row) (Product.platform_product_id row) c
    (Product.created_at row) (Product.updated_at row).

Definition new_report (d : database) (r : ReportData.t) : Report.t :=
  Report.mk (next_id d) (ReportData.product_id r) (ReportData.reporter_id r)
    (Some (ReportData.license_number r)) (ReportData.violation_details r)
    (Some (ReportData.violation_type r)) (ReportData.severity r) open
    (now d) (now d).

(** *** The policies of [rules]

    [auth] is [auth.uid()], the id of the user of the session the request
    comes from, if any. *)

(** [auth.uid() = created_by], the condition of the policies "Users can
    create rules", "Users can update rules they created" and "Users can
    delete rules they created"; it is not true when either side is
    null. *)
Definition is_author (auth : option uuid) (created_by : option uuid) : bool :=
  match auth, created_by with
  | Some a, Some c => (a =? c)%N
  | _, _ => false
  end.

(** The rows an update or a delete of rules with [.eq('id', i)] reaches:
    those with the id that the policy lets the session see. *)
Definition reached (auth : option uuid) (i : uuid) (row : Rule.t) : bool :=
  (Rule.id row =? i)%N && is_author auth (Rule.created_by row).

(** [UPDATE ... WHERE ...]: [f] on the rows that [sel] selects. *)
Definition update_rows {A : Type} (sel : A -> bool) (f : A -> A) (rows : list A)
    : list A :=
  map (fun row => if sel row then f row else row) rows.

(** [DELETE ... WHERE ...] *)
Definition delete_rows {A : Type} (sel : A -> bool) (rows : list A) : list A :=
  filter (fun row => negb (sel row)) rows.

(** [UPDATE ... WHERE id = i] on a table whose update policy is
    [USING (true)]: [f] on the rows whose id is [i]. *)
Definition update_where {A : Type} (id_of : A -> uuid) (i : uuid) (f : A -> A)
    (rows : list A) : list A :=
  map (fun row => if (id_of row =? i)%N then f row else row) rows.

(** Rows by [created_at], newest first. *)
Fixpoint insert_desc (r : Rule.t) (sorted : list Rule.t) : list Rule.t :=
  match sorted with
  | [] => [r]
  | h :: t =>
      if (Rule.created_at h <? Rule.created_at r)%N then r :: sorted
      else h :: insert_desc r t
  end.

Definition order_created_at_desc (rows : list Rule.t) : list Rule.t :=
  fold_right insert_desc [] rows.

(** A request that changes the database by [f] when it is accepted. *)
Definition request (f : database -> database) (w : world)
    : option StorageError * world :=
  let (ok, w') := accept w in
  if ok then (None, mkworld (f (db w')) (faults w'))
  else (Some storage_error, w').

(** A request that the store turns down whatever [faults] says: a
    constraint or the check of a policy fails. *)
Definition refuse (w : world) : option StorageError * world :=
  (Some storage_error, snd (accept w)).

(** [from('rules').select('*').order('created_at', { ascending: false })];
    the select policy of rules is [USING (true)]. *)
Definition select_rules (w : world) : (StorageError + list Rule.t) * world :=
  let (ok, w') := accept w in
  if ok then (inr (order_created_at_desc (rules (db w'))), w')
  else (inl storage_error, w').

(** The effect of the requests on the tables, when they are applied. *)
Definition db_insert_rule (r : RuleData.t) (d : database) : database :=
  mkdb (products d) (reports d) (rules d ++ [new_rule d r])
       (N.succ (next_id d)) (N.succ (now d)).

Definition db_update_rule (auth : option uuid) (r : RuleData.t) (i : uuid)
    (d : database) : database :=
  mkdb (products d) (reports d) (update_rows (reached auth i) (patch_rule r) (rules d))
       (next_id d) (now d).

Definition db_update_rule_is_active (auth : option uuid) (b : bool) (i : uuid)
    (d : database) : database :=
  mkdb (products d) (reports d) (update_rows (reached auth i) (set_is_active b) (rules d))
       (next_id d) (now d).

Definition db_delete_rule (auth : option uuid) (i : uuid) (d : database) : database :=
  mkdb (products d) (reports d) (delete_rows (reached auth i) (rules d))
       (next_id d) (now d).

Definition db_insert_report (r : ReportData.t) (d : database) : database :=
  mkdb (products d) (reports d ++ [new_report d r]) (rules d)
       (N.succ (next_id d)) (N.succ (now d)).

Definition db_update_product_status (c : ComplianceStatus) (i : uuid) (d : database)
    : database :=
  mkdb (update_where Product.id i (set_compliance_status c) (products d))
       (reports d) (rules d) (next_id d) (now d).

(** [from('rules').insert(ruleData)].  The store turns the row down when
    it has no [rule_value] (the column is NOT NULL) and when the check of
    the insert policy, [auth.uid() = created_by], fails. *)
Definition insert_rule (auth : option uuid) (r : RuleData.t) (w : world)
    : option StorageError * world :=
  if is_defined (RuleData.rule_value r)
     && is_author auth (Some (RuleData.created_by r))
  then request (db_insert_rule r) w
  else refuse w.

(** [from('rules').update(ruleData).eq('id', i)].  The rows the request
    reaches are rewritten; the condition of the update policy is checked
    on the rewritten rows too, and the store turns the request down when
    one of them fails it. *)
Definition update_rule (auth : option uuid) (r : RuleData.t) (i : uuid) (w : world)
    : option StorageError * world :=
  if existsb (reached auth i) (rules (db w))
     && negb (is_author auth (Some (RuleData.created_by r)))
  then refuse w
  else request (db_update_rule auth r i) w.

(** [from('rules').update({ is_active: b }).eq('id', i)] *)
Definition update_rule_is_active (auth : option uuid) (b : bool) (i : uuid)
    : world -> option StorageError * world :=
  request (db_update_rule_is_active auth b i).

(** [from('rules').delete().eq('id', i)] *)
Definition delete_rule (auth : option uuid) (i : uuid)
    : world -> option StorageError * world :=
  request (db_delete_rule auth i).

(** [from('reports').insert(...)] *)
Definition insert_report (r : ReportData.t) : world -> option StorageError * world :=
  request (db_insert_report r).

(** [from('products').update({ compliance_status: c }).eq('id', i)]; the
    update policy of products is [USING (true)]. *)
Definition update_product_status (c : ComplianceStatus) (i : uuid)
    : world -> option StorageError * world :=
  request (db_update_product_status c i).

(** Product rows by [created_at], newest first. *)
Fixpoint insert_product_desc (p : Product.t) (sorted : list Product.t) : list Product.t :=
  match sorted with
  | [] => [p]
  | h :: t =>
      if (Product.created_at h <? Product.created_at p)%N then p :: sorted
      else h :: insert_product_desc p t
  end.

(** [from('products').select('*').order('created_at', { ascending: false })] *)
Definition select_products (w : world) : (StorageError + list Product.t) * world :=
  let (ok, w') := accept w in
  if ok then (inr (fold_right insert_product_desc [] (products (db w'))), w')
  else (inl storage_error, w').

(** [from('products').select('*').eq('id', i).single()]: an error unless
    exactly one row has the id. *)
Definition select_product (i : uuid) (w : world) : (StorageError + Product.t) * world :=
  let (ok, w') := accept w in
  if ok then
    match filter (fun p => (Product.id p =? i)%N) (products (db w')) with
    | [p] => (inr p, w')
    | _ => (inl storage_error, w')
    end
  else (inl storage_error, w').

End Store.

Import Store.

(** ** [src/pages/SystemConfigPage.tsx] *)

Module SystemConfigPage.

Module FormData.
Record t : Type := mk {
  rule_name : string;
  field_to_validate : string;
  rule_type : RuleType;
  rule_value : string;
  description : string;
  is_active : bool
}.
End FormData.

(** The component's state hooks. *)
Record state : Type := mkstate {
  user : option User.t;
  rules : list Rule.t;
  loading : bool;
  showForm : bool;
  editingRule : option Rule.t;
  formData : FormData.t
}.

(** [auth.uid()] for the requests of the page.  [hooks/useAuth] and
    [lib/supabase] are not among the sources: the user the hook gives is
    taken to be the user of the session of the client. *)
Definition uid (st : state) : option uuid :=
  match user st with
  | Some u => Some (User.id u)
  | None => None
  end.

Definition emptyForm : FormData.t :=
  FormData.mk EmptyString EmptyString presence EmptyString EmptyString true.

(** [arr[i]] *)
Definition element (i : nat) (arr : list number) : value :=
  match nth_error arr i with
  | Some x => VNum x
  | None => VUndefined
  end.

(** [ruleValue] of [handleSubmit], the canonical value parsed from the
    text of the form under the chosen rule type (lines 47-57). *)
Definition ruleValue (rule_type : RuleType) (rule_value : string) : value :=
  match rule_type with
  | list_ => VArr (map (fun v => VStr (trim v)) (split "," rule_value))
  | range =>
      let parts := map (fun v => parseFloat (trim v)) (split "-" rule_value) in
      VObj [("min", element 0 parts); ("max", element 1 parts)]
  | presence => VObj [("required", VBool true)]
  | regex | custom => VStr rule_value
  end.

Definition fetchRules (st : state) (w : world) : state * world :=
  let (res, w') := select_rules w in
  match res with
  | inr data =>
      (mkstate (user st) data false (showForm st) (editingRule st) (formData st), w')
  | inl _ =>
      (mkstate (user st) (rules st) false (showForm st) (editingRule st) (formData st), w')
  end.

Definition resetForm (st : state) : state :=
  mkstate (user st) (rules st) (loading st) false None emptyForm.

Definition ruleData (f : FormData.t) (u : User.t) : RuleData.t :=
  RuleData.mk (FormData.rule_name f) (FormData.field_to_validate f)
    (FormData.rule_type f)
    (ruleValue (FormData.rule_type f) (FormData.rule_value f))
    (FormData.description f) (FormData.is_active f) (User.id u).

Definition handleSubmit (st : state) (w : world) : state * world :=
  match user st with
  | None => (st, w)
  | Some u =>
      let (error, w1) :=
        match editingRule st with
        | Some r => update_rule (uid st) (ruleData (formData st) u) (Rule.id r) w
        | None => insert_rule (uid st) (ruleData (formData st) u) w
        end in
      match error with
      | Some _ => (st, w1)
      | None => let (st2, w2) := fetchRules st w1 in (resetForm st2, w2)
      end
  end.

Definition formatRuleValue (value : value) (type : RuleType) : outcome :=
  if RuleType_eqb type list_ && isArray value then
    match array_join ", " (items_of value) with
    | Some text => Returns text
    | None => Throws TypeError
    end
  else if RuleType_eqb type range && typeof_object value then
    match get value "min", get value "max" with
    | Some lo, Some hi =>
        match toString lo, toString hi with
        | Some a, Some b => Returns (a ++ "-" ++ b)
        | _, _ => Throws TypeError
        end
    | _, _ => Throws TypeError
    end
  else
    match value with
    | VStr s => Returns s
    | _ => match stringify value with
           | Some t => Returns t
           | None => ReturnsUndefined
           end
    end.

(** [handleEdit(rule)].  [None]: [formatRuleValue] throws, as it does in
    the list of rules, which calls it on every row, so that the page does
    not render; or it returns [undefined], which it does on the value
    [undefined] only, and the column [rule_value] is NOT NULL: no row of
    the store holds it, and a form whose text is [undefined] is not among
    the modelled states. *)
Definition handleEdit (rule : Rule.t) (st : state) : option state :=
  match formatRuleValue (Rule.rule_value rule) (Rule.rule_type rule) with
  | Returns text =>
      Some (mkstate (user st) (rules st) (loading st) true (Some rule)
              (FormData.mk (Rule.rule_name rule) (Rule.field_to_validate rule)
                 (Rule.rule_type rule) text
                 (match Rule.description rule with
                  | Some d => d
                  | None => EmptyString
                  end)
                 (Rule.is_active rule)))
  | _ => None
  end.

(** [handleDelete(ruleId)]; [confirmed] is the answer to [confirm(...)]. *)
Definition handleDelete (ruleId : uuid) (confirmed : bool) (st : state) (w : world)
    : state * world :=
  if confirmed then
    let (error, w1) := delete_rule (uid st) ruleId w in
    match error with
    | Some _ => (st, w1)
    | None => fetchRules st w1
    end
  else (st, w).

Definition toggleRuleStatus (rule : Rule.t) (st : state) (w : world)
    : state * world :=
  let (error, w1) :=
    update_rule_is_active (uid st) (negb (Rule.is_active rule)) (Rule.id rule) w in
  match error with
  | Some _ => (st, w1)
  | None => fetchRules st w1
  end.

(** The form's three [required] inputs: the browser fires [onSubmit]
    only when none of them is empty. *)
Definition form_complete (f : FormData.t) : bool :=
  negb (is_empty (FormData.rule_name f))
  && negb (is_empty (FormData.field_to_validate f))
  && negb (is_empty (FormData.rule_value f)).

(** What the user can do on the page. *)
Inductive event : Type :=
| Mount                                   (* [useEffect]: [fetchRules()] *)
| ClickAddRule                            (* [setShowForm(true)] *)
| Change (f : FormData.t)                 (* the [onChange] handlers *)
| Submit
| Cancel                                  (* [resetForm] *)
| ClickEdit (rule : Rule.t)
| ClickDelete (rule : Rule.t) (confirmed : bool)
| ClickToggle (rule : Rule.t).

(** One event; [None] when it cannot happen in this state. *)
Definition step (ev : event) (st : state) (w : world) : option (state * world) :=
  match ev with
  | Mount => Some (fetchRules st w)
  | ClickAddRule =>
      Some (mkstate (user st) (rules st) (loading st) true (editingRule st) (formData st), w)
  | Change f =>
      Some (mkstate (user st) (rules st) (loading st) (showForm st) (editingRule st) f, w)
  | Submit =>
      if form_complete (formData st) then Some (handleSubmit st w) else None
  | Cancel => Some (resetForm st, w)
  | ClickEdit rule =>
      match handleEdit rule st with
      | Some st' => Some (st', w)
      | None => None
      end
  | ClickDelete rule confirmed => Some (handleDelete (Rule.id rule) confirmed st w)
  | ClickToggle rule => Some (toggleRuleStatus rule st w)
  end.

Fixpoint run (evs : list event) (st : state) (w : world) : option (state * world) :=
  match evs with
  | [] => Some (st, w)
  | ev :: rest =>
      match step ev st w with
      | Some (st', w') => run rest st' w'
      | None => None
      end
  end.

Definition initial (u : option User.t) : state :=
  mkstate u [] true false None emptyForm.

End SystemConfigPage.

(** ** [src/pages/ReportFormPage.tsx] *)

Module ReportFormPage.

Module FormData.
Record t : Type := mk {
  license_number : string;
  violation_details : string;
  violation_type : string;
  severity : Severity
}.
End FormData.

Record state : Type := mkstate {
  user : option User.t;
  product : option Product.t;
  loading : bool;
  submitting : bool;
  formData : FormData.t;
  location : string          (* the route [navigate] last set *)
}.

Definition handleSubmit (st : state) (w : world) : state * world :=
  match user st, product st with
  | Some u, Some p =>
      let (error, w1) :=
        insert_report
          (ReportData.mk (Product.id p) (User.id u)
             (FormData.license_number (formData st))
             (FormData.violation_details (formData st))
             (FormData.violation_type (formData st))
             (FormData.severity (formData st))) w in
      match error with
      | Some _ =>
          (mkstate (user st) (product st) (loading st) false (formData st) (location st), w1)
      | None =>
          let (_, w2) := update_product_status non_compliant (Product.id p) w1 in
          (mkstate (user st) (product st) (loading st) false (formData st) "/dashboard", w2)
      end
  | _, _ => (st, w)
  end.

(** [fetchProduct()], for the [productId] of the route. *)
Definition fetchProduct (productId : uuid) (st : state) (w : world) : state * world :=
  let (res, w') := select_product productId w in
  match res with
  | inr data =>
      (mkstate (user st) (Some data) false (submitting st) (formData st) (location st), w')
  | inl _ =>
      (mkstate (user st) (product st) false (submitting st) (formData st) (location st), w')
  end.

(** The page as it mounts on the route [/product/:productId/report]. *)
Definition initial (u : option User.t) (route : string) : state :=
  mkstate u None true false
    (FormData.mk EmptyString EmptyString EmptyString medium) route.

End ReportFormPage.

(** ** [DashboardPage] ([src/unnamed/part_000]) *)

Module DashboardPage.

Record state : Type := mkstate {
  products : list Product.t;
  loading : bool;
  searchTerm : string;
  statusFilter : string
}.

Definition initial : state := mkstate [] true EmptyString "all".

(** The text of a [compliance_status]. *)
Definition status_text (c : ComplianceStatus) : string :=
  match c with
  | compliant => "compliant"
  | non_compliant => "non-compliant"
  | pending => "pending"
  end.

Definition fetchProducts (st : state) (w : world) : state * world :=
  let (res, w') := select_products w in
  match res with
  | inr data => (mkstate data false (searchTerm st) (statusFilter st), w')
  | inl _ => (mkstate (products st) false (searchTerm st) (statusFilter st), w')
  end.

(** [matchesSearch]; a product without manufacturer gives [undefined]
    on the right of [||], which the filter takes as false. *)
Definition matchesSearch (searchTerm : string) (product : Product.t) : bool :=
  includes (toLowerCase (Product.name product)) (toLowerCase searchTerm)
  || match Product.manufacturer product with
     | Some m => includes (toLowerCase m) (toLowerCase searchTerm)
     | None => false
     end.

Definition matchesStatus (statusFilter : string) (product : Product.t) : bool :=
  String.eqb statusFilter "all"
  || String.eqb (status_text (Product.compliance_status product)) statusFilter.

Definition filteredProducts (st : state) : list Product.t :=
  filter (fun product =>
            matchesSearch (searchTerm st) product
            && matchesStatus (statusFilter st) product)
         (products st).

End DashboardPage.

(** ** The rule engine of the specification

    [src/] holds the declarations [Rule] and [ComplianceViolation] and no
    code that evaluates a rule.  This module follows the specification's
    sections 4.1, 4.2 and 6. *)

Module RuleEngine.

(** Modelled from the spec: the error taxonomy of section 7; the source
    raises none of these. *)
Inductive EngineError : Type :=
| InvalidRuleKind
| MalformedRuleValue
| InvalidPattern
| CorruptRule
| NotFound
| StorageError.

(** Modelled from the spec: what the target field of a product holds
    (absent, text, or a number for [mrp]); no evaluator is in the source
    to read it. *)
Inductive field_value : Type :=
| Absent
| Text (s : string)
| Numeric (x : number).

(** Modelled from the spec: an optional text attribute as a target
    field, absent when the product does not have it. *)
Definition of_text (o : option string) : field_value :=
  match o with Some s => Text s | None => Absent end.

(** Modelled from the spec: the attribute a rule inspects, one of the
    seven target fields of section 3; no code reads a product field by
    name. *)
Definition target (p : Product.t) (field : string) : field_value :=
  if String.eqb field "name" then Text (Product.name p)
  else if String.eqb field "manufacturer" then of_text (Product.manufacturer p)
  else if String.eqb field "mrp" then
    match Product.mrp p with Some x => Numeric x | None => Absent end
  else if String.eqb field "net_quantity" then of_text (Product.net_quantity p)
  else if String.eqb field "country_of_origin" then of_text (Product.country_of_origin p)
  else if String.eqb field "consumer_care_details" then
    of_text (Product.consumer_care_details p)
  else if String.eqb field "date_of_manufacture" then
    of_text (Product.date_of_manufacture p)
  else Absent.

(** Modelled from the spec: the order of two decimal values,
    [z1 * 10^e1 <= z2 * 10^e2], for the bounds of a range; the source
    compares no numbers. *)
Definition scaled_leb (z1 : Z) (e1 : Z) (z2 : Z) (e2 : Z) : bool :=
  let e := Z.min e1 e2 in
  (z1 * 10 ^ (e1 - e) <=? z2 * 10 ^ (e2 - e))%Z.

(** Modelled from the spec: the signed mantissa of a finite number, for
    the comparison of range bounds. *)
Definition signed (neg : bool) (m : N) : Z :=
  if neg then (- Z.of_N m)%Z else Z.of_N m.

(** Modelled from the spec: [min <= max] of section 4.1 and the
    comparisons of section 4.2, on numbers; false when either is [NaN]. *)
Definition number_leb (x y : number) : bool :=
  match x, y with
  | NaN, _ | _, NaN => false
  | Infinity true, _ => true
  | _, Infinity false => true
  | Infinity false, _ => false
  | _, Infinity true => false
  | Finite n1 m1 e1, Finite n2 m2 e2 => scaled_leb (signed n1 m1) e1 (signed n2 m2) e2
  end.

(** Modelled from the spec: a finite number, as section 4.1 asks of
    both bounds of a range. *)
Definition is_finite (x : number) : bool :=
  match x with Finite _ _ _ => true | _ => false end.

(** Modelled from the spec: an entry of a list value, a trimmed,
    non-empty string. *)
Definition is_entry (v : value) : bool :=
  match v with
  | VStr s => is_trimmed s && negb (is_empty s)
  | _ => false
  end.

Section Engine.

(** The collaborators the specification leaves outside the engine. *)
Variable compiles : string -> bool.              (* the pattern is a regular expression *)
Variable matches : string -> string -> bool.     (* [matches pattern subject] *)
Variable evaluator : Rule.t -> option (Product.t -> bool).   (* the registry of custom rules *)
Variable message_of : Rule.t -> string.
Variable severity_of : Rule.t -> Severity.

(** Modelled from the spec: the canonical shapes of the table of section
    4.1, which no code checks. *)
Definition well_shaped (kind : RuleType) (v : value) : bool :=
  match kind, v with
  | presence, VObj [(k, VBool true)] => String.eqb k "required"
  | regex, VObj [(k, VStr p)] => String.eqb k "pattern" && compiles p
  | list_, VArr (x :: rest) => forallb is_entry (x :: rest)
  | range, VObj [(k1, VNum lo); (k2, VNum hi)] =>
      String.eqb k1 "min" && String.eqb k2 "max"
      && is_finite lo && is_finite hi && number_leb lo hi
  | custom, VStr _ => true
  | _, _ => false
  end.

(** Modelled from the spec: the violation a failing rule produces
    (section 3); the text and the severity are left to the caller. *)
Definition violation (r : Rule.t) : ComplianceViolation.t :=
  ComplianceViolation.mk (Rule.field_to_validate r) (Rule.rule_name r)
    (message_of r) (severity_of r).

(** Modelled from the spec: the string form of the target field. *)
Definition text_of (f : field_value) : option string :=
  match f with
  | Absent => None
  | Text s => Some s
  | Numeric x => Some (number_toString x)
  end.

(** Modelled from the spec: the target field when it parses as a number. *)
Definition number_of (f : field_value) : option number :=
  match f with
  | Absent => None
  | Text s => match parseFloat s with
              | Finite n m e => Some (Finite n m e)
              | _ => None
              end
  | Numeric x => if is_finite x then Some x else None
  end.

(** Modelled from the spec: whether the product violates the rule
    (section 4.2), for a rule whose value has the shape of its kind. *)
Definition violates (r : Rule.t) (p : Product.t) : bool :=
  let f := target p (Rule.field_to_validate r) in
  match Rule.rule_type r, Rule.rule_value r with
  | presence, _ =>
      match f with
      | Absent => true
      | Text s => is_empty s
      | Numeric x => negb (is_finite x)
      end
  | regex, VObj [(_, VStr pattern)] =>
      match text_of f with
      | Some s => negb (matches pattern s)
      | None => false
      end
  | list_, VArr allowed =>
      match text_of f with
      | Some s => negb (existsb (fun v => match v with
                                          | VStr a => String.eqb a s
                                          | _ => false
                                          end) allowed)
      | None => true
      end
  | range, VObj [(_, VNum lo); (_, VNum hi)] =>
      match number_of f with
      | Some x => negb (number_leb lo x) || negb (number_leb x hi)
      | None => false
      end
  | custom, _ =>
      match evaluator r with
      | Some check => check p
      | None => false
      end
  | _, _ => false
  end.

(** Modelled from the spec: [evaluate(rule, product) -> Violation | None |
    Error] of section 6; a rule whose value does not match its kind
    fails with [CorruptRule]. *)
Definition evaluate (r : Rule.t) (p : Product.t)
    : EngineError + option ComplianceViolation.t :=
  if well_shaped (Rule.rule_type r) (Rule.rule_value r) then
    inr (if violates r p then Some (violation r) else None)
  else inl CorruptRule.

(** Modelled from the spec: the result [{ violations, skipped }] of
    [evaluateAll] in section 6. *)
Record evaluation : Type := mkevaluation {
  violations : list ComplianceViolation.t;
  skipped : list uuid
}.

(** Modelled from the spec: [evaluateAll(rules, product)] of section 6.
    Only active rules are evaluated, in the order of the list; a rule
    that fails is listed under [skipped] and the others go on. *)
Fixpoint evaluateAll (rs : list Rule.t) (p : Product.t) : evaluation :=
  match rs with
  | [] => mkevaluation [] []
  | r :: rest =>
      let tail := evaluateAll rest p in
      if Rule.is_active r then
        match evaluate r p with
        | inr (Some v) => mkevaluation (v :: violations tail) (skipped tail)
        | inr None => tail
        | inl _ => mkevaluation (violations tail) (Rule.id r :: skipped tail)
        end
      else tail
  end.

End Engine.

End RuleEngine.

Import SystemConfigPage.

(** ** Vocabulary of the statements *)

(** Encoding [v] for the edit form and decoding the text again gives [v]. *)
Definition roundtrip (kind : RuleType) (v : value) : Prop :=
  exists text, formatRuleValue v kind = Returns text /\ ruleValue kind text = v.

(** A number that is finite and not negative, and is zero or at least
    [10^-6]: [m * 10^e] in canonical form with [m = 0] or
    [10^-6 <= m * 10^e].  These are the numbers that print without a
    minus sign. *)
Definition prints_plainly (x : number) : Prop :=
  match x with
  | Finite false m e =>
      (e <= 0)%Z
      /\ ((e < 0)%Z -> (m mod 10 <> 0)%N)
      /\ (m = 0%N \/ (10 ^ Z.to_N (- 6 - e) <= m)%N)
  | _ => False
  end.

Definition is_trimmed_text (v : value) : bool :=
  match v with VStr s => is_trimmed s | _ => false end.

(** A bound as the store holds it: a finite number, or [null] where
    [parseFloat] gave [NaN] or an infinity. *)
Definition is_number_or_null (v : value) : bool :=
  match v with VNum (Finite _ _ _) | VNull => true | _ => false end.

(** The shape of the value the store holds once [handleSubmit] has
    written it, for each rule type.  A range is an object with [min], and
    with [max] before it when the text had a second piece. *)
Definition stored_shape (kind : RuleType) (v : value) : bool :=
  match kind, v with
  | presence, VObj [(k, VBool true)] => String.eqb k "required"
  | regex, VStr _ => true
  | custom, VStr _ => true
  | list_, VArr (x :: rest) => forallb is_trimmed_text (x :: rest)
  | range, VObj [(k, lo)] => String.eqb k "min" && is_number_or_null lo
  | range, VObj [(k1, hi); (k2, lo)] =>
      String.eqb k1 "max" && String.eqb k2 "min"
      && is_number_or_null hi && is_number_or_null lo
  | _, _ => false
  end.

Definition rule_shaped (r : Rule.t) : bool :=
  stored_shape (Rule.rule_type r) (Rule.rule_value r).

Definition all_shaped (d : database) : Prop :=
  Forall (fun r => rule_shaped r = true) (Store.rules d).

(** A rule type other than [list] and [range]. *)
Definition is_plain (kind : RuleType) : bool :=
  match kind with list_ | range => false | _ => true end.

Definition is_string (v : value) : bool :=
  match v with VStr _ => true | _ => false end.

(** Two rows that differ at most in [is_active]. *)
Definition same_but_is_active (old new : Rule.t) : Prop :=
  Rule.id new = Rule.id old
  /\ Rule.rule_name new = Rule.rule_name old
  /\ Rule.field_to_validate new = Rule.field_to_validate old
  /\ Rule.rule_type new = Rule.rule_type old
  /\ Rule.rule_value new = Rule.rule_value old
  /\ Rule.description new = Rule.description old
  /\ Rule.created_by new = Rule.created_by old
  /\ Rule.created_at new = Rule.created_at old
  /\ Rule.updated_at new = Rule.updated_at old.

(** Two rows that differ at most in [compliance_status]. *)
Definition same_but_compliance_status (old new : Product.t) : Prop :=
  Product.id new = Product.id old
  /\ Product.name new = Product.name old
  /\ Product.manufacturer new = Product.manufacturer old
  /\ Product.description new = Product.description old
  /\ Product.image_url new = Product.image_url old
  /\ Product.mrp new = Product.mrp old
  /\ Product.net_quantity new = Product.net_quantity old
  /\ Product.country_of_origin new = Product.country_of_origin old
  /\ Product.date_of_manufacture new = Product.date_of_manufacture old
  /\ Product.consumer_care_details new = Product.consumer_care_details old
  /\ Product.platform new = Product.platform old
  /\ Product.platform_product_id new = Product.platform_product_id old
  /\ Product.created_at new = Product.created_at old
  /\ Product.updated_at new = Product.updated_at old.

(** [t] occurs in [s]. *)
Definition occurs_in (t s : string) : Prop :=
  exists before after, s = (before ++ t ++ after)%string.

(** The rows of a table are newest first. *)
Fixpoint newest_first (rows : list Rule.t) : Prop :=
  match rows with
  | [] => True
  | r :: rest =>
      (forall r', In r' rest -> (Rule.created_at r' <= Rule.created_at r)%N)
      /\ newest_first rest
  end.

(** The ids of the rules are distinct and below the next id the store
    hands out. *)
Definition ids_fresh (d : database) : Prop :=
  NoDup (map Rule.id (Store.rules d))
  /\ Forall (fun r => (Rule.id r < next_id d)%N) (Store.rules d).

(** Encoding the stored value [v] for the edit form, decoding the text
    again and storing the result gives [v]. *)
Definition resaves (kind : RuleType) (v : value) : Prop :=
  exists text, formatRuleValue v kind = Returns text /\ jsonb (ruleValue kind text) = v.

(** [ToString(v)] does not throw: [v] is not an object with an own
    property [toString], nor an array that holds, in it or in an array
    inside it, a value whose [ToString] throws. *)
Fixpoint prints (v : value) : bool :=
  match v with
  | VArr items => forallb prints items
  | VObj props => negb (has_own "toString" props)
  | _ => true
  end.

(** An integer that binary64 holds exactly, so that [parseFloat] reads
    its literal without rounding: one up to [2^53]. *)
Definition is_exact (n : N) : bool := (n <=? 2 ^ 53)%N.

(** What an edit form that is submitted unchanged writes into a row. *)
Definition resaved (u : User.t) (r : Rule.t) (old new : Rule.t) : Prop :=
  Rule.id new = Rule.id old
  /\ Rule.created_at new = Rule.created_at old
  /\ Rule.updated_at new = Rule.updated_at old
  /\ Rule.rule_name new = Rule.rule_name r
  /\ Rule.field_to_validate new = Rule.field_to_validate r
  /\ Rule.rule_type new = Rule.rule_type r
  /\ Rule.rule_value new = Rule.rule_value r
  /\ Rule.is_active new = Rule.is_active r
  /\ Rule.description new
     = Some (match Rule.description r with Some d => d | None => EmptyString end)
  /\ Rule.created_by new = Some (User.id u).

(** A number that is not below zero: no negative value, no negative
    infinity, no negative zero. *)
Definition not_negative (x : number) : bool :=
  match x with
  | Finite true _ _ | Infinity true => false
  | _ => true
  end.

(** ** Sample data *)

Definition official : User.t := User.mk 7%N "official@example.org" 0%N.

Definition empty_db : database := mkdb [] [] [] 100%N 1%N.

Definition quiet (d : database) : world := mkworld d [].

Definition form (kind : RuleType) (text : string) : FormData.t :=
  FormData.mk "Rule" "mrp" kind text "sample" true.

Definition rice : Product.t :=
  Product.mk 1%N "Organic Basmati Rice" (Some "ABC Foods Pvt Ltd") None None
    (Some (of_N 1500)) (Some "1 kg") (Some "India") None None
    (Some "Amazon") (Some "AMZ123456") compliant 0%N 0%N.

Definition coffee : Product.t :=
  Product.mk 2%N "Instant Coffee Powder" (Some "XYZ Beverages") None None
    (Some (of_N 150)) (Some "100 g") (Some "India") None None
    (Some "Flipkart") (Some "FLK789012") pending 0%N 0%N.

Definition sample_rule (i : uuid) (kind : RuleType) (v : value) (active : bool) : Rule.t :=
  Rule.mk i "Rule" "mrp" kind v None active (Some 7%N) i i.

Definition mrp_present : Rule.t :=
  sample_rule 5%N presence (VObj [("required", VBool true)]) true.

(** A range value as the specification writes it. *)
Definition mrp_range : Rule.t :=
  sample_rule 6%N range (VObj [("min", VNum (of_N 0)); ("max", VNum (of_N 1000))]) true.

(** The same rule as the store holds it. *)
Definition mrp_bounds : Rule.t :=
  sample_rule 6%N range (VObj [("max", VNum (of_N 1000)); ("min", VNum (of_N 0))]) true.

Definition mrp_corrupt : Rule.t :=
  sample_rule 8%N range (VStr "0-1000") true.

Definition two_rules : world := quiet (mkdb [rice; coffee] [] [mrp_present; mrp_bounds] 100%N 9%N).

Definition config_page : state :=
  mkstate (Some official) [mrp_bounds; mrp_present] false false None emptyForm.

Definition report_page : ReportFormPage.state :=
  ReportFormPage.mkstate (Some official) (Some rice) false false
    (ReportFormPage.FormData.mk "LM-2041" "MRP missing on the label" "labelling" low)
    "/report/1".

(** Two of the rules the migration seeds, which no user created: the
    presence rule of [mrp] and the regex rule, an object with [pattern]
    and [flags], its keys in the order of [jsonb]. *)
Definition mrp_presence_check : Rule.t :=
  Rule.mk 3%N "MRP Presence Check" "mrp" presence (VObj [("required", VBool true)])
    (Some "Ensures MRP is present on product listing") true None 2%N 2%N.

Definition net_quantity_format : Rule.t :=
  Rule.mk 4%N "Net Quantity Format" "net_quantity" regex
    (VObj [("flags", VStr "i"); ("pattern", VStr "^\d+(\.\d+)?\s*(kg|g|l|ml|pcs|units?)$")])
    (Some "Validates net quantity format with proper units") true None 2%N 2%N.

(** A regex rule of the user [official] whose value is an object, as
    another client of the store may have written it. *)
Definition imported_format : Rule.t :=
  sample_rule 9%N regex (VObj [("pattern", VStr "^[0-9]+$")]) true.

Definition seeded : world :=
  quiet (mkdb [rice; coffee] []
           [mrp_presence_check; net_quantity_format; mrp_present; imported_format]
           100%N 9%N).

Definition seeded_page : state :=
  mkstate (Some official)
    [imported_format; mrp_present; net_quantity_format; mrp_presence_check]
    false false None emptyForm.

(** The form with a new regex rule, and the edit form of a seeded rule. *)
Definition regex_form : state :=
  mkstate (Some official) [] false true None (form regex "^[0-9]+$").

Definition seeded_edit : state :=
  mkstate (Some official)
    [imported_format; mrp_present; net_quantity_format; mrp_presence_check]
    false true (Some mrp_presence_check)
    (FormData.mk "MRP Presence Check" "mrp" presence
       ("{" ++ quote "required" ++ ":true}")
       "Ensures MRP is present on product listing" true).

(** * Properties *)

(** ** Strings: [split], [join], [trim] *)

Section StringFacts.

Variable sep : ascii.

Lemma split_nonempty (s : string) : split sep s <> [].
Proof.
  destruct s as [|c r]; simpl; [discriminate|].
  destruct (Ascii.eqb c sep); [discriminate|].
  destruct (split sep r); discriminate.
Qed.

Lemma split_without_sep (s : string) :
  contains sep s = false -> split sep s = [s].
Proof.
  induction s as [|c r IH]; simpl; [reflexivity|].
  intros H. apply orb_false_iff in H as [Hc Hr].
  rewrite Hc, (IH Hr). reflexivity.
Qed.

Lemma split_app_sep (a b : string) :
  contains sep a = false ->
  split sep (a ++ String sep b) = a :: split sep b.
Proof.
  induction a as [|c r IH]; simpl; intros H.
  - rewrite Ascii.eqb_refl. reflexivity.
  - apply orb_false_iff in H as [Hc Hr].
    rewrite Hc, (IH Hr). reflexivity.
Qed.

Lemma join_split (s : string) : join (String sep EmptyString) (split sep s) = s.
Proof.
  induction s as [|c r IH]; simpl; [reflexivity|].
  destruct (Ascii.eqb c sep) eqn:E.
  - apply Ascii.eqb_eq in E. subst c.
    destruct (split sep r) as [|h t] eqn:S; [now destruct (split_nonempty r)|].
    simpl in *. now rewrite IH.
  - destruct (split sep r) as [|h t] eqn:S; [now destruct (split_nonempty r)|].
    destruct t; simpl in *; now rewrite <- IH.
Qed.

Lemma split_parts_without_sep (s : string) :
  Forall (fun p => contains sep p = false) (split sep s).
Proof.
  induction s as [|c r IH]; simpl; [now repeat constructor|].
  destruct (Ascii.eqb c sep) eqn:E; [now constructor|].
  destruct (split sep r) as [|h t].
  - constructor; [simpl; now rewrite E|constructor].
  - inversion IH; subst. constructor; [|assumption].
    simpl. now rewrite E.
Qed.

Lemma length_split (s : string) :
  List.length (split sep s) = S (count_char sep s).
Proof.
  induction s as [|c r IH]; simpl; [reflexivity|].
  destruct (Ascii.eqb c sep); simpl; [now rewrite IH|].
  destruct (split sep r); simpl in *; [discriminate|assumption].
Qed.

End StringFacts.

Lemma trimStart_fixed (s : string) :
  starts_with_whitespace s = false -> trimStart s = s.
Proof. destruct s as [|c r]; simpl; [reflexivity|]. now intros ->. Qed.

Lemma trimStart_starts (s : string) : starts_with_whitespace (trimStart s) = false.
Proof.
  induction s as [|c r IH]; simpl; [reflexivity|].
  destruct (is_whitespace c) eqn:E; [assumption|]. simpl. exact E.
Qed.

Lemma trimEnd_fixed (s : string) :
  ends_with_whitespace s = false -> trimEnd s = s.
Proof.
  induction s as [|c r IH]; [reflexivity|].
  intros H. cbn [trimEnd].
  destruct r as [|d r2].
  - simpl in *. now rewrite H.
  - rewrite IH by exact H. reflexivity.
Qed.

Lemma trimEnd_ends (s : string) : ends_with_whitespace (trimEnd s) = false.
Proof.
  induction s as [|c r IH]; [reflexivity|].
  cbn [trimEnd]. destruct (trimEnd r) as [|d r'] eqn:E.
  - destruct (is_whitespace c) eqn:W; simpl; [reflexivity|exact W].
  - exact IH.
Qed.

Lemma trimEnd_starts (s : string) :
  starts_with_whitespace s = false -> starts_with_whitespace (trimEnd s) = false.
Proof.
  destruct s as [|c r]; [reflexivity|].
  cbn [trimEnd starts_with_whitespace]. intros H.
  destruct (trimEnd r); [rewrite H|]; simpl; [exact H|exact H].
Qed.

Lemma is_trimmed_trim (s : string) : is_trimmed (trim s) = true.
Proof.
  unfold is_trimmed, trim.
  rewrite trimEnd_starts by apply trimStart_starts.
  now rewrite trimEnd_ends.
Qed.

Lemma trim_fixed (s : string) : is_trimmed s = true -> trim s = s.
Proof.
  unfold is_trimmed, trim. intros H.
  apply andb_true_iff in H as [H1 H2].
  apply negb_true_iff in H1, H2.
  rewrite trimStart_fixed by exact H1. now apply trimEnd_fixed.
Qed.

Lemma append_empty_r (s : string) : (s ++ "")%string = s.
Proof. induction s as [|c r IH]; simpl; [reflexivity|now rewrite IH]. Qed.

Lemma length_append (a b : string) :
  String.length (a ++ b) = (String.length a + String.length b)%nat.
Proof. induction a as [|c r IH]; simpl; [reflexivity|now rewrite IH]. Qed.

(** ** Numbers: digits, [parseFloat], [Number::toString] *)

Ltac by_char c :=
  destruct c as [[] [] [] [] [] [] [] []]; try discriminate; try reflexivity.

Lemma digit_not_whitespace (c : ascii) : is_digit c = true -> is_whitespace c = false.
Proof. by_char c. Qed.

Lemma digit_not_sep (c : ascii) :
  is_digit c = true -> Ascii.eqb c "-" = false /\ Ascii.eqb c "," = false.
Proof. by_char c; intros _; split; reflexivity. Qed.

Lemma take_sign_digit (c : ascii) (r : string) :
  is_digit c = true -> take_sign (String c r) = (false, String c r).
Proof. by_char c. Qed.

Lemma prefix_Infinity_digit (c : ascii) (r : string) :
  is_digit c = true -> String.prefix "Infinity" (String c r) = false.
Proof. by_char c. Qed.

Lemma all_digits_app (a b : string) :
  all_digits (a ++ b) = all_digits a && all_digits b.
Proof.
  induction a as [|c r IH]; simpl; [reflexivity|].
  now rewrite IH, andb_assoc.
Qed.

Lemma span_digits_all (s : string) :
  all_digits s = true -> span_digits s = (s, EmptyString).
Proof.
  induction s as [|c r IH]; simpl; [reflexivity|].
  intros H. apply andb_true_iff in H as [Hc Hr].
  now rewrite Hc, (IH Hr).
Qed.

Lemma all_digits_without (s : string) :
  all_digits s = true -> contains "-" s = false /\ contains "," s = false.
Proof.
  induction s as [|c r IH]; simpl; [now split|].
  intros H. apply andb_true_iff in H as [Hc Hr].
  destruct (digit_not_sep c Hc) as [-> ->]. now apply IH.
Qed.

Lemma all_digits_trimmed (s : string) : all_digits s = true -> is_trimmed s = true.
Proof.
  intros H. unfold is_trimmed. apply andb_true_iff. split; apply negb_true_iff.
  - destruct s as [|c r]; [reflexivity|]. simpl in *.
    apply andb_true_iff in H as [Hc _]. now apply digit_not_whitespace.
  - induction s as [|c r IH]; [reflexivity|].
    simpl in H. apply andb_true_iff in H as [Hc Hr].
    destruct r as [|d r2]; [now apply digit_not_whitespace|].
    exact (IH Hr).
Qed.

(** [parseFloat] on an unsigned integer literal. *)
Lemma parseFloat_digits (s : string) :
  s <> EmptyString -> all_digits s = true ->
  parseFloat s = of_N (digits_value 0 s).
Proof.
  destruct s as [|c r]; [congruence|]. intros _ H.
  pose proof H as H'. simpl in H'. apply andb_true_iff in H' as [Hc _].
  unfold parseFloat. cbn [trimStart].
  rewrite (digit_not_whitespace c Hc), (take_sign_digit c r Hc),
    (prefix_Infinity_digit c r Hc), (span_digits_all _ H).
  cbn [is_empty andb]. rewrite append_empty_r.
  cbn [exponent_part String.length Z.of_nat Z.sub Z.opp Z.add].
  unfold normalize, of_N.
  destruct (N.eqb_spec (digits_value 0 (String c r)) 0) as [->|_]; [reflexivity|].
  cbn [Z.leb Z.compare Z.to_N]. now rewrite N.pow_0_r, N.mul_1_r.
Qed.

Lemma digit_value_char (d : N) : (d < 10)%N -> digit_value (digit_char d) = d.
Proof.
  intros H. unfold digit_value, digit_char.
  rewrite nat_ascii_embedding by lia. lia.
Qed.

Lemma is_digit_char (d : N) : (d < 10)%N -> is_digit (digit_char d) = true.
Proof.
  intros H. unfold is_digit, digit_char.
  rewrite nat_ascii_embedding by lia.
  apply andb_true_iff. split; apply Nat.leb_le; lia.
Qed.

Lemma digits_value_app (a b : string) (acc : N) :
  digits_value acc (a ++ b) = digits_value (digits_value acc a) b.
Proof. revert acc. induction a as [|c r IH]; simpl; intros; [reflexivity|apply IH]. Qed.

Lemma all_digits_fuel (fuel : nat) (n : N) : all_digits (digits_fuel fuel n) = true.
Proof.
  revert n. induction fuel as [|f IH]; intros n; cbn [digits_fuel]; [reflexivity|].
  destruct (N.ltb_spec n 10) as [H|H]; cbn [all_digits].
  - now rewrite is_digit_char.
  - rewrite all_digits_app, IH. cbn [all_digits andb].
    rewrite is_digit_char; [reflexivity|]. apply N.mod_lt. lia.
Qed.

Lemma digits_fuel_nonempty (fuel : nat) (n : N) :
  digits_fuel (S fuel) n <> EmptyString.
Proof.
  cbn [digits_fuel]. destruct (n <? 10)%N; [discriminate|].
  destruct (digits_fuel fuel (n / 10)); discriminate.
Qed.

Lemma digits_value_fuel (fuel : nat) (n : N) :
  (n < 2 ^ N.of_nat fuel)%N -> digits_value 0 (digits_fuel fuel n) = n.
Proof.
  revert n. induction fuel as [|f IH]; intros n H.
  - change (N.of_nat 0) with 0%N in H. rewrite N.pow_0_r in H.
    cbn [digits_fuel digits_value]. lia.
  - cbn [digits_fuel]. destruct (N.ltb_spec n 10) as [L|L].
    + cbn [digits_value]. now rewrite digit_value_char.
    + rewrite digits_value_app, IH.
      * cbn [digits_value]. rewrite digit_value_char by (apply N.mod_lt; lia).
        pose proof (N.div_mod n 10). lia.
      * rewrite Nat2N.inj_succ, N.pow_succ_r' in H.
        apply N.Div0.div_lt_upper_bound. lia.
Qed.

Lemma digits_of_N_value (n : N) : digits_value 0 (digits_of_N n) = n.
Proof.
  apply digits_value_fuel.
  rewrite Nat2N.inj_succ, N2Nat.id, N.pow_succ_r'.
  pose proof (N.size_gt n). lia.
Qed.

Lemma digits_of_N_literal (n : N) :
  digits_of_N n <> EmptyString /\ all_digits (digits_of_N n) = true.
Proof. split; [apply digits_fuel_nonempty|apply all_digits_fuel]. Qed.

Lemma length_strip_trailing_zeros (s : string) :
  (String.length (strip_trailing_zeros s) <= String.length s)%nat.
Proof.
  induction s as [|c r IH]; [simpl; lia|].
  cbn [strip_trailing_zeros]. destruct (strip_trailing_zeros r) as [|d r'].
  - destruct (Ascii.eqb c "0"); simpl; lia.
  - simpl in *. lia.
Qed.

Lemma strip_trailing_zeros_restore (s : string) :
  (strip_trailing_zeros s
     ++ zeros (String.length s - String.length (strip_trailing_zeros s)))%string = s.
Proof.
  induction s as [|c r IH]; [reflexivity|].
  cbn [strip_trailing_zeros]. destruct (strip_trailing_zeros r) as [|d r'] eqn:E.
  - simpl in IH. rewrite Nat.sub_0_r in IH.
    destruct (Ascii.eqb_spec c "0") as [->|_]; simpl.
    + now rewrite IH.
    + now rewrite Nat.sub_0_r, IH.
  - simpl. simpl in IH. now rewrite IH.
Qed.

(** ** The store and the handlers *)

Lemma accept_db (w : world) : db (snd (accept w)) = db w.
Proof. unfold accept. destruct (faults w); reflexivity. Qed.

Lemma accepts_faults (w : world) :
  accepts w = match faults w with [] => true | f :: _ => negb f end.
Proof. unfold accepts, accept. now destruct (faults w). Qed.

Lemma request_accepted (f : database -> database) (w : world) :
  accepts w = true ->
  request f w = (None, mkworld (f (db w)) (faults (snd (accept w)))).
Proof.
  unfold accepts, request. pose proof (accept_db w) as D.
  destruct (accept w) as [ok w']. simpl in *. intros ->. now rewrite D.
Qed.

Lemma request_rejected (f : database -> database) (w : world) :
  accepts w = false -> request f w = (Some storage_error, snd (accept w)).
Proof.
  unfold accepts, request. destruct (accept w) as [ok w']. simpl. now intros ->.
Qed.

Lemma request_db (f : database -> database) (w : world) :
  db (snd (request f w)) = if accepts w then f (db w) else db w.
Proof.
  destruct (accepts w) eqn:A.
  - now rewrite request_accepted.
  - rewrite request_rejected by exact A. apply accept_db.
Qed.

Lemma fetchRules_db (st : state) (w : world) : db (snd (fetchRules st w)) = db w.
Proof.
  unfold fetchRules, select_rules. pose proof (accept_db w) as D.
  destruct (accept w) as [[] w']; simpl in *; exact D.
Qed.

Lemma ruleValue_defined (kind : RuleType) (text : string) :
  is_defined (ruleValue kind text) = true.
Proof. now destruct kind. Qed.

Lemma is_author_self (u : uuid) : is_author (Some u) (Some u) = true.
Proof. apply N.eqb_refl. Qed.

(** The requests of [handleSubmit] pass the checks of the store: the
    value is defined and [created_by] is the user of the session. *)
Lemma insert_rule_own (f : FormData.t) (u : User.t) (w : world) :
  insert_rule (Some (User.id u)) (ruleData f u) w
  = request (db_insert_rule (ruleData f u)) w.
Proof.
  unfold insert_rule. cbn [ruleData RuleData.rule_value RuleData.created_by].
  now rewrite ruleValue_defined, is_author_self.
Qed.

Lemma update_rule_own (f : FormData.t) (u : User.t) (i : uuid) (w : world) :
  update_rule (Some (User.id u)) (ruleData f u) i w
  = request (db_update_rule (Some (User.id u)) (ruleData f u) i) w.
Proof.
  unfold update_rule. cbn [ruleData RuleData.created_by].
  now rewrite is_author_self, andb_false_r.
Qed.

Lemma handleSubmit_requests (st : state) (w : world) (u : User.t) :
  user st = Some u ->
  handleSubmit st w
  = let (error, w1) :=
      match editingRule st with
      | Some r => request (db_update_rule (Some (User.id u)) (ruleData (formData st) u)
                             (Rule.id r)) w
      | None => request (db_insert_rule (ruleData (formData st) u)) w
      end in
    match error with
    | Some _ => (st, w1)
    | None => let (st2, w2) := fetchRules st w1 in (resetForm st2, w2)
    end.
Proof.
  intros Hu. unfold handleSubmit, uid. rewrite Hu.
  destruct (editingRule st) as [r|];
    [now rewrite update_rule_own|now rewrite insert_rule_own].
Qed.

Lemma handleSubmit_db (st : state) (w : world) :
  db (snd (handleSubmit st w)) =
  match user st with
  | Some u =>
      if accepts w then
        match editingRule st with
        | Some r =>
            db_update_rule (Some (User.id u)) (ruleData (formData st) u) (Rule.id r) (db w)
        | None => db_insert_rule (ruleData (formData st) u) (db w)
        end
      else db w
  | None => db w
  end.
Proof.
  destruct (user st) as [u|] eqn:Hu;
    [rewrite (handleSubmit_requests st w u Hu)|unfold handleSubmit; now rewrite Hu].
  destruct (accepts w) eqn:A.
  - destruct (editingRule st) as [r|]; rewrite request_accepted by exact A;
      match goal with |- context [fetchRules ?s ?x] =>
        pose proof (fetchRules_db s x) as F; destruct (fetchRules s x) end;
      simpl in *; exact F.
  - destruct (editingRule st) as [r|]; rewrite request_rejected by exact A;
      simpl; apply accept_db.
Qed.

Lemma toggleRuleStatus_db (rule : Rule.t) (st : state) (w : world) :
  db (snd (toggleRuleStatus rule st w)) =
  if accepts w
  then db_update_rule_is_active (uid st) (negb (Rule.is_active rule)) (Rule.id rule) (db w)
  else db w.
Proof.
  unfold toggleRuleStatus, update_rule_is_active.
  destruct (accepts w) eqn:A.
  - rewrite request_accepted by exact A. apply fetchRules_db.
  - rewrite request_rejected by exact A. simpl. apply accept_db.
Qed.

Lemma handleDelete_db (i : uuid) (confirmed : bool) (st : state) (w : world) :
  db (snd (handleDelete i confirmed st w)) =
  if confirmed && accepts w then db_delete_rule (uid st) i (db w) else db w.
Proof.
  unfold handleDelete, delete_rule. destruct confirmed; [|reflexivity].
  destruct (accepts w) eqn:A; simpl.
  - rewrite request_accepted by exact A. apply fetchRules_db.
  - rewrite request_rejected by exact A. simpl. apply accept_db.
Qed.

Lemma contains_trimStart (c : ascii) (s : string) :
  contains c s = false -> contains c (trimStart s) = false.
Proof.
  induction s as [|d r IH]; [reflexivity|].
  intros H. cbn [trimStart]. destruct (is_whitespace d); [|exact H].
  simpl in H. apply orb_false_iff in H as [_ H]. now apply IH.
Qed.

Lemma contains_trimEnd (c : ascii) (s : string) :
  contains c s = false -> contains c (trimEnd s) = false.
Proof.
  induction s as [|d r IH]; [reflexivity|].
  intros H. simpl in H. apply orb_false_iff in H as [Hd Hr].
  cbn [trimEnd]. specialize (IH Hr). destruct (trimEnd r) as [|e r'].
  - destruct (is_whitespace d); simpl; [reflexivity|now rewrite Hd].
  - cbn [contains] in *. now rewrite Hd, IH.
Qed.

Lemma contains_trim (c : ascii) (s : string) :
  contains c s = false -> contains c (trim s) = false.
Proof. intros H. now apply contains_trimEnd, contains_trimStart. Qed.

(** A submit that adds a rule: what the store holds afterwards. *)
Lemma handleSubmit_adds (st : state) (w : world) (u : User.t) :
  user st = Some u -> editingRule st = None -> accepts w = true ->
  Store.rules (db (snd (handleSubmit st w)))
  = Store.rules (db w) ++ [new_rule (db w) (ruleData (formData st) u)].
Proof.
  intros Hu He Ha. now rewrite handleSubmit_db, Hu, Ha, He.
Qed.

(** ** The rule value codec *)

(** C8.  For every input text, decoding a presence rule value ignores
    the text and yields [{ required: true }]; nothing is validated, so a
    submit of a presence rule adds the row with that value whatever the
    text is. *)
Theorem presence_value_ignores_text :
  (forall text : string,
      ruleValue presence text = VObj [("required", VBool true)])
  /\ (forall (st : state) (w : world) (u : User.t),
        user st = Some u -> editingRule st = None -> accepts w = true ->
        FormData.rule_type (formData st) = presence ->
        exists row,
          Store.rules (db (snd (handleSubmit st w))) = Store.rules (db w) ++ [row]
          /\ Rule.rule_type row = presence
          /\ Rule.rule_value row = VObj [("required", VBool true)]).
Proof.
  split; [reflexivity|].
  intros st w u Hu He Ha Hk. eexists. split; [exact (handleSubmit_adds st w u Hu He Ha)|].
  simpl. now rewrite Hk.
Qed.

Lemma presence_value_ignores_text_witness :
  exists row,
    Store.rules (db (snd (handleSubmit
                            (mkstate (Some official) [] false true None
                               (form presence "anything at all"))
                            (quiet empty_db))))
    = Store.rules (db (quiet empty_db)) ++ [row]
    /\ Rule.rule_type row = presence
    /\ Rule.rule_value row = VObj [("required", VBool true)].
Proof.
  exact (proj2 presence_value_ignores_text
           (mkstate (Some official) [] false true None (form presence "anything at all"))
           (quiet empty_db) official eq_refl eq_refl eq_refl eq_refl).
Defined.

Lemma array_join_strings (sep : string) (entries : list string) :
  array_join sep (map VStr entries) = Some (join sep entries).
Proof.
  unfold array_join. rewrite map_map. cbn [toString].
  replace (all_some (map (fun s : string => Some s) entries)) with (Some entries);
    [reflexivity|].
  induction entries as [|e rest IH]; [reflexivity|].
  cbn [map all_some]. now rewrite <- IH.
Qed.

(** C7.  [formatRuleValue] encodes a list value as its entries joined
    with [", "], a range value as ["{min}-{max}"], and a value of any
    other kind as itself when it is a string and as its JSON
    serialization otherwise. *)
Theorem formatRuleValue_encoding :
  (forall entries : list string,
      formatRuleValue (VArr (map VStr entries)) list_ = Returns (join ", " entries))
  /\ (forall lo hi : number,
        formatRuleValue (VObj [("min", VNum lo); ("max", VNum hi)]) range
        = Returns (number_toString lo ++ "-" ++ number_toString hi))
  /\ (forall (kind : RuleType) (s : string),
        is_plain kind = true -> formatRuleValue (VStr s) kind = Returns s)
  /\ (forall (kind : RuleType) (v : value) (t : string),
        is_plain kind = true -> is_string v = false -> stringify v = Some t ->
        formatRuleValue v kind = Returns t).
Proof.
  repeat split.
  - intros entries. unfold formatRuleValue. cbn [RuleType_eqb isArray andb items_of].
    now rewrite array_join_strings.
  - intros kind s Hk. destruct kind; try discriminate; reflexivity.
  - intros kind v t Hk Hs Ht. unfold formatRuleValue.
    replace (RuleType_eqb kind list_) with false by (now destruct kind).
    replace (RuleType_eqb kind range) with false by (now destruct kind).
    cbn [andb]. rewrite Ht. destruct v; try reflexivity; discriminate.
Qed.

Lemma formatRuleValue_encoding_witness :
  formatRuleValue (VStr "return true") custom = Returns "return true"
  /\ formatRuleValue (VObj [("required", VBool true)]) presence
     = Returns ("{" ++ quote "required" ++ ":true}").
Proof.
  split.
  - exact (proj1 (proj2 (proj2 formatRuleValue_encoding)) custom "return true" eq_refl).
  - exact (proj2 (proj2 (proj2 formatRuleValue_encoding)) presence
             (VObj [("required", VBool true)]) _ eq_refl eq_refl eq_refl).
Defined.

(** C5 (as the code has it).  For every input text, decoding a list rule
    value splits the text at its commas and yields, in order, the trimmed
    pieces: one entry for each piece, that is one more than there are
    commas, none holding a comma or white space at either end.  An empty
    piece stays as an empty entry and no text is turned down. *)
Theorem list_value_entries :
  forall text : string,
    let pieces := split "," text in
    join "," pieces = text
    /\ ruleValue list_ text = VArr (map VStr (map trim pieces))
    /\ List.length (map trim pieces) = S (count_char "," text)
    /\ Forall (fun e => is_trimmed e = true /\ contains "," e = false) (map trim pieces).
Proof.
  intros text pieces. repeat split.
  - apply join_split.
  - unfold ruleValue. now rewrite map_map.
  - rewrite length_map. apply length_split.
  - apply Forall_map. apply Forall_impl with (2 := split_parts_without_sep "," text).
    intros p Hp. split; [apply is_trimmed_trim|now apply contains_trim].
Qed.

(** C4 (as the code has it).  Decoding a regex rule value keeps the text
    as it is, a plain string, and compiles nothing: every pattern is
    accepted, so a submit of a regex rule adds the row with the text as
    its value. *)
Theorem regex_value_verbatim :
  (forall text : string, ruleValue regex text = VStr text)
  /\ (forall (st : state) (w : world) (u : User.t),
        user st = Some u -> editingRule st = None -> accepts w = true ->
        FormData.rule_type (formData st) = regex ->
        exists row,
          Store.rules (db (snd (handleSubmit st w))) = Store.rules (db w) ++ [row]
          /\ Rule.rule_type row = regex
          /\ Rule.rule_value row = VStr (FormData.rule_value (formData st))).
Proof.
  split; [reflexivity|].
  intros st w u Hu He Ha Hk. eexists. split; [exact (handleSubmit_adds st w u Hu He Ha)|].
  simpl. now rewrite Hk.
Qed.

Lemma regex_value_verbatim_witness :
  exists row,
    Store.rules (db (snd (handleSubmit
                            (mkstate (Some official) [] false true None
                               (form regex "^[A-Z]{2}$"))
                            (quiet empty_db))))
    = Store.rules (db (quiet empty_db)) ++ [row]
    /\ Rule.rule_type row = regex
    /\ Rule.rule_value row = VStr "^[A-Z]{2}$".
Proof.
  exact (proj2 regex_value_verbatim
           (mkstate (Some official) [] false true None (form regex "^[A-Z]{2}$"))
           (quiet empty_db) official eq_refl eq_refl eq_refl eq_refl).
Defined.

(** The pattern ["["] of the specification is stored like any other. *)
Lemma regex_value_unchecked :
  exists st w,
    run [ClickAddRule; Change (form regex "["); Submit]
        (initial (Some official)) (quiet empty_db) = Some (st, w)
    /\ map Rule.rule_type (Store.rules (db w)) = [regex]
    /\ map Rule.rule_value (Store.rules (db w)) = [VStr "["].
Proof. do 2 eexists. repeat split; reflexivity. Qed.

Lemma trim_digits (s : string) : all_digits s = true -> trim s = s.
Proof. intros H. now apply trim_fixed, all_digits_trimmed. Qed.

Lemma split_dash_digits (a b : string) :
  all_digits a = true -> all_digits b = true ->
  split "-" (a ++ "-" ++ b) = [a; b].
Proof.
  intros Ha Hb. change (a ++ "-" ++ b)%string with (a ++ String "-" b)%string.
  rewrite split_app_sep by apply (all_digits_without a Ha).
  now rewrite split_without_sep by apply (all_digits_without b Hb).
Qed.

(** C3 (as the code has it).  Decoding a range rule value never fails:
    the text is split at ['-'] and [min] and [max] are [parseFloat] of
    the first and of the second piece, trimmed ([max] is undefined when
    there is one piece only).  For two unsigned integer literals [a] and
    [b] whose values are at most [2^53], the integers that [parseFloat]
    reads without rounding, the text [a-b] yields [{ min: a, max: b }]
    whatever their order: ["0-1000"] yields [{ min: 0, max: 1000 }] and
    ["10-5"] yields [{ min: 10, max: 5 }]. *)
Theorem range_value_parts :
  (forall text : string,
      exists first rest,
        split "-" text = first :: rest
        /\ ruleValue range text
           = VObj [("min", VNum (parseFloat (trim first)));
                   ("max", match rest with
                           | second :: _ => VNum (parseFloat (trim second))
                           | [] => VUndefined
                           end)])
  /\ (forall a b : string,
        a <> EmptyString -> b <> EmptyString ->
        all_digits a = true -> all_digits b = true ->
        is_exact (digits_value 0 a) = true -> is_exact (digits_value 0 b) = true ->
        ruleValue range (a ++ "-" ++ b)
        = VObj [("min", VNum (of_N (digits_value 0 a)));
                ("max", VNum (of_N (digits_value 0 b)))])
  /\ ruleValue range "0-1000"
     = VObj [("min", VNum (of_N 0)); ("max", VNum (of_N 1000))]
  /\ ruleValue range "10-5"
     = VObj [("min", VNum (of_N 10)); ("max", VNum (of_N 5))].
Proof.
  split; [|split; [|split; reflexivity]].
  - intros text. unfold ruleValue.
    destruct (split "-" text) as [|first rest] eqn:E;
      [now destruct (split_nonempty "-" text)|].
    exists first, rest. split; [reflexivity|].
    destruct rest; reflexivity.
  - intros a b Ha Hb Da Db _ _. unfold ruleValue.
    rewrite split_dash_digits by assumption.
    cbn [map element nth_error].
    now rewrite !trim_digits, !parseFloat_digits by assumption.
Qed.

Lemma range_value_parts_witness :
  ruleValue range ("250" ++ "-" ++ "75")
  = VObj [("min", VNum (of_N (digits_value 0 "250")));
          ("max", VNum (of_N (digits_value 0 "75")))].
Proof.
  apply (proj1 (proj2 range_value_parts) "250" "75");
    solve [discriminate | reflexivity].
Defined.

(** A range whose lower bound exceeds its upper bound is decoded and
    stored; the store holds it with its keys in the order of [jsonb]. *)
Lemma range_value_unordered :
  ruleValue range "10-5" = VObj [("min", VNum (of_N 10)); ("max", VNum (of_N 5))]
  /\ exists st w,
       run [ClickAddRule; Change (form range "10-5"); Submit]
           (initial (Some official)) (quiet empty_db) = Some (st, w)
       /\ map Rule.rule_type (Store.rules (db w)) = [range]
       /\ map Rule.rule_value (Store.rules (db w))
          = [VObj [("max", VNum (of_N 5)); ("min", VNum (of_N 10))]].
Proof. split; [reflexivity|]. do 2 eexists. repeat split; reflexivity. Qed.

(** Entries that are empty, and a text of commas and blanks only. *)
Lemma list_value_keeps_empty_entries :
  ruleValue list_ "a,,b" = VArr [VStr "a"; VStr ""; VStr "b"]
  /\ exists st w,
       run [ClickAddRule; Change (form list_ " , ,"); Submit]
           (initial (Some official)) (quiet empty_db) = Some (st, w)
       /\ map Rule.rule_value (Store.rules (db w)) = [VArr [VStr ""; VStr ""; VStr ""]].
Proof. split; [reflexivity|]. do 2 eexists. split; reflexivity. Qed.

(** *** Numbers that print without an exponent *)

Lemma length_digits_fuel_lower (fuel d : nat) (m : N) :
  (m < 2 ^ N.of_nat fuel)%N -> (10 ^ N.of_nat d <= m)%N ->
  (d < String.length (digits_fuel fuel m))%nat.
Proof.
  revert m d. induction fuel as [|f IH]; intros m d Hm Hd.
  - change (N.of_nat 0) with 0%N in Hm. rewrite N.pow_0_r in Hm.
    assert (10 ^ N.of_nat d <> 0)%N by (apply N.pow_nonzero; discriminate). lia.
  - cbn [digits_fuel]. destruct (N.ltb_spec m 10) as [L|L].
    + destruct d as [|d']; [cbn [String.length]; lia|].
      rewrite Nat2N.inj_succ, N.pow_succ_r' in Hd.
      assert (10 ^ N.of_nat d' <> 0)%N by (apply N.pow_nonzero; discriminate). lia.
    + rewrite length_append. cbn [String.length].
      destruct d as [|d']; [lia|].
      assert (d' < String.length (digits_fuel f (m / 10)))%nat; [|lia].
      apply IH.
      * rewrite Nat2N.inj_succ, N.pow_succ_r' in Hm.
        apply N.Div0.div_lt_upper_bound. lia.
      * rewrite Nat2N.inj_succ, N.pow_succ_r' in Hd.
        apply N.div_le_lower_bound; [discriminate|exact Hd].
Qed.

Lemma length_digits_of_N_lower (d : nat) (m : N) :
  (10 ^ N.of_nat d <= m)%N -> (d < String.length (digits_of_N m))%nat.
Proof.
  apply length_digits_fuel_lower.
  rewrite Nat2N.inj_succ, N2Nat.id, N.pow_succ_r'.
  pose proof (N.size_gt m). lia.
Qed.

Lemma take_drop (n : nat) (s : string) : (take n s ++ drop n s)%string = s.
Proof.
  revert s. induction n as [|k IH]; intros [|c r]; cbn; try reflexivity.
  now rewrite IH.
Qed.

Lemma all_digits_take_drop (n : nat) (s : string) :
  all_digits s = true -> all_digits (take n s) = true /\ all_digits (drop n s) = true.
Proof.
  intros H. rewrite <- (take_drop n s), all_digits_app in H.
  now apply andb_true_iff in H.
Qed.

Lemma length_drop (n : nat) (s : string) :
  String.length (drop n s) = (String.length s - n)%nat.
Proof.
  revert s. induction n as [|k IH]; intros [|c r]; cbn; try reflexivity.
  apply IH.
Qed.

Lemma take_nonempty (n : nat) (s : string) :
  (0 < n)%nat -> s <> EmptyString -> take n s <> EmptyString.
Proof. destruct n; [lia|]. destruct s; [congruence|discriminate]. Qed.

Lemma digits_value_zeros (z : nat) (s : string) :
  digits_value 0 (zeros z ++ s) = digits_value 0 s.
Proof. induction z as [|k IH]; [reflexivity|exact IH]. Qed.

Lemma all_digits_zeros (z : nat) : all_digits (zeros z) = true.
Proof. induction z as [|k IH]; [reflexivity|exact IH]. Qed.

Lemma length_zeros (z : nat) : String.length (zeros z) = z.
Proof. induction z as [|k IH]; [reflexivity|cbn; now rewrite IH]. Qed.

Lemma span_digits_stop (a rest : string) (c : ascii) :
  all_digits a = true -> is_digit c = false ->
  span_digits (a ++ String c rest) = (a, String c rest).
Proof.
  intros H Hc. induction a as [|d r IH]; cbn [append span_digits].
  - now rewrite Hc.
  - cbn [all_digits] in H. apply andb_true_iff in H as [Hd Hr].
    now rewrite Hd, (IH Hr).
Qed.

(** [parseFloat] on an unsigned literal with a decimal point. *)
Lemma parseFloat_decimal (ip fp : string) :
  ip <> EmptyString -> all_digits ip = true -> all_digits fp = true ->
  parseFloat (ip ++ String "." fp)
  = normalize false (digits_value 0 (ip ++ fp)) (- Z.of_nat (String.length fp)).
Proof.
  destruct ip as [|c r]; [congruence|]. intros _ H Hfp.
  pose proof H as H'. cbn [all_digits] in H'. apply andb_true_iff in H' as [Hc _].
  unfold parseFloat. cbn [append trimStart].
  rewrite (digit_not_whitespace c Hc), (take_sign_digit c _ Hc),
    (prefix_Infinity_digit c _ Hc).
  change (String c (r ++ String "." fp)) with (String c r ++ String "." fp)%string.
  rewrite (span_digits_stop _ fp "." H eq_refl), (span_digits_all fp Hfp).
  cbn [is_empty andb exponent_part]. reflexivity.
Qed.

Lemma exponent_part_plus (dd rest : string) :
  dd <> EmptyString -> all_digits dd = true ->
  exponent_part (String "e" (String "+" dd)) = Z.of_N (digits_value 0 dd).
Proof.
  intros Hne H. cbn [exponent_part is_exponent_mark Ascii.eqb Bool.eqb orb take_sign].
  cbv iota. rewrite (span_digits_all dd H).
  destruct dd; [congruence|reflexivity].
Qed.

(** [parseFloat] on a literal [d e+ x]. *)
Lemma parseFloat_exponent (ip dd : string) :
  ip <> EmptyString -> all_digits ip = true ->
  dd <> EmptyString -> all_digits dd = true ->
  parseFloat (ip ++ String "e" (String "+" dd))
  = normalize false (digits_value 0 ip) (Z.of_N (digits_value 0 dd)).
Proof.
  destruct ip as [|c r]; [congruence|]. intros _ H Hne Hdd.
  pose proof H as H'. cbn [all_digits] in H'. apply andb_true_iff in H' as [Hc _].
  unfold parseFloat. cbn [append trimStart].
  rewrite (digit_not_whitespace c Hc), (take_sign_digit c _ Hc),
    (prefix_Infinity_digit c _ Hc).
  change (String c (r ++ String "e" (String "+" dd)))
    with (String c r ++ String "e" (String "+" dd))%string.
  rewrite (span_digits_stop _ _ "e" H eq_refl).
  cbv iota. cbn [is_empty andb]. rewrite append_empty_r.
  rewrite (exponent_part_plus dd EmptyString Hne Hdd).
  cbn [String.length Z.of_nat]. now rewrite Z.sub_0_r.
Qed.

(** [parseFloat] on a literal [d.ddd e+ x]. *)
Lemma parseFloat_decimal_exponent (ip fp dd : string) :
  ip <> EmptyString -> all_digits ip = true -> all_digits fp = true ->
  dd <> EmptyString -> all_digits dd = true ->
  parseFloat (ip ++ String "." (fp ++ String "e" (String "+" dd)))
  = normalize false (digits_value 0 (ip ++ fp))
      (Z.of_N (digits_value 0 dd) - Z.of_nat (String.length fp)).
Proof.
  destruct ip as [|c r]; [congruence|]. intros _ H Hfp Hne Hdd.
  pose proof H as H'. cbn [all_digits] in H'. apply andb_true_iff in H' as [Hc _].
  unfold parseFloat. cbn [append trimStart].
  rewrite (digit_not_whitespace c Hc), (take_sign_digit c _ Hc),
    (prefix_Infinity_digit c _ Hc).
  change (String c (r ++ String "." (fp ++ String "e" (String "+" dd))))
    with (String c r ++ String "." (fp ++ String "e" (String "+" dd)))%string.
  rewrite (span_digits_stop _ _ "." H eq_refl).
  cbv iota. rewrite (span_digits_stop _ _ "e" Hfp eq_refl).
  cbn [is_empty andb].
  now rewrite (exponent_part_plus dd EmptyString Hne Hdd).
Qed.

Lemma digits_value_zeros_end (z : nat) (acc : N) :
  digits_value acc (zeros z) = (acc * 10 ^ N.of_nat z)%N.
Proof.
  revert acc. induction z as [|k IH]; intros acc.
  - cbn [zeros digits_value]. change (N.of_nat 0) with 0%N.
    now rewrite N.pow_0_r, N.mul_1_r.
  - cbn [zeros digits_value]. rewrite IH, Nat2N.inj_succ, N.pow_succ_r'.
    change (digit_value "0") with 0%N. lia.
Qed.

Lemma normalize_integer (neg : bool) (m : N) (e : Z) :
  m <> 0%N -> (0 <= e)%Z -> normalize neg m e = Finite neg (m * 10 ^ Z.to_N e) 0.
Proof.
  intros Hm He. unfold normalize.
  destruct (N.eqb_spec m 0); [contradiction|].
  now destruct (Z.leb_spec 0 e); [|lia].
Qed.

Lemma normalize_canonical (neg : bool) (m : N) (e : Z) :
  (e < 0)%Z -> (m mod 10 <> 0)%N -> normalize neg m e = Finite neg m e.
Proof.
  intros He Hm. unfold normalize.
  destruct (N.eqb_spec m 0) as [->|_]; [now destruct Hm|].
  destruct (Z.leb_spec 0 e); [lia|].
  destruct (Z.to_nat (- e)) as [|f] eqn:F; [lia|].
  cbn [strip_zeros].
  destruct (Z.ltb_spec e 0); [|lia].
  destruct (N.eqb_spec (m mod 10) 0); [contradiction|reflexivity].
Qed.

Lemma strip_trailing_zeros_last (a : string) (c : ascii) :
  Ascii.eqb c "0" = false ->
  strip_trailing_zeros (a ++ String c EmptyString) = (a ++ String c EmptyString)%string.
Proof.
  intros Hc. induction a as [|d r IH]; cbn [append strip_trailing_zeros].
  - now rewrite Hc.
  - rewrite IH. now destruct r.
Qed.

Lemma digit_char_nonzero (d : N) :
  (d < 10)%N -> d <> 0%N -> Ascii.eqb (digit_char d) "0" = false.
Proof.
  intros Hd Hne. apply Ascii.eqb_neq. intros E.
  apply (f_equal digit_value) in E. rewrite digit_value_char in E by exact Hd.
  now apply Hne.
Qed.

Lemma strip_trailing_zeros_digits (m : N) :
  (m mod 10 <> 0)%N -> strip_trailing_zeros (digits_of_N m) = digits_of_N m.
Proof.
  intros Hm. unfold digits_of_N. cbn [digits_fuel].
  destruct (N.ltb_spec m 10) as [L|L].
  - rewrite N.mod_small in Hm by exact L.
    apply (strip_trailing_zeros_last EmptyString), digit_char_nonzero; assumption.
  - apply strip_trailing_zeros_last, digit_char_nonzero; [|exact Hm].
    apply N.mod_lt. discriminate.
Qed.

Lemma plain_app (a b : string) : plain (a ++ b) = plain a && plain b.
Proof.
  induction a as [|c r IH]; [reflexivity|].
  cbn [append plain]. now rewrite IH, andb_assoc.
Qed.

Lemma all_digits_plain (s : string) : all_digits s = true -> plain s = true.
Proof.
  induction s as [|c r IH]; [reflexivity|].
  cbn [all_digits plain]. intros H. apply andb_true_iff in H as [Hc Hr].
  unfold is_plain_char. now rewrite Hc, IH.
Qed.

Lemma plain_char (c : ascii) :
  is_plain_char c = true ->
  is_whitespace c = false /\ Ascii.eqb c "-" = false.
Proof. by_char c; intros _; split; reflexivity. Qed.

Lemma plain_without_dash (s : string) : plain s = true -> contains "-" s = false.
Proof.
  induction s as [|c r IH]; [reflexivity|].
  cbn [plain contains]. intros H. apply andb_true_iff in H as [Hc Hr].
  destruct (plain_char c Hc) as [_ ->]. now apply IH.
Qed.

Lemma plain_trimmed (s : string) : plain s = true -> is_trimmed s = true.
Proof.
  intros H. unfold is_trimmed. apply andb_true_iff. split; apply negb_true_iff.
  - destruct s as [|c r]; [reflexivity|]. cbn [plain] in H.
    apply andb_true_iff in H as [Hc _]. now destruct (plain_char c Hc).
  - induction s as [|c r IH]; [reflexivity|].
    cbn [plain] in H. apply andb_true_iff in H as [Hc Hr].
    destruct r as [|d r2]; [now destruct (plain_char c Hc)|].
    exact (IH Hr).
Qed.

Lemma plain_literal (a b : string) (c : ascii) :
  all_digits a = true -> is_plain_char c = true -> plain b = true ->
  plain (a ++ String c b) = true.
Proof.
  intros Ha Hc Hb. rewrite plain_app. cbn [plain].
  now rewrite (all_digits_plain a Ha), Hc, Hb.
Qed.

(** The digits [s] with the decimal point after [n] of them read back
    as [s * 10^(n - k)], in each of the four layouts of
    [Number::toString]. *)
Lemma magnitude_roundtrip (s : string) (n : Z) :
  s <> EmptyString -> all_digits s = true -> digits_value 0 s <> 0%N ->
  (- 6 < n)%Z ->
  plain (magnitude_toString s n) = true
  /\ parseFloat (magnitude_toString s n)
     = normalize false (digits_value 0 s) (n - Z.of_nat (String.length s)).
Proof.
  intros Hne D Hv Hn. unfold magnitude_toString.
  assert (Hlen : (0 < String.length s)%nat)
    by (destruct s; [congruence|cbn [String.length]; lia]).
  set (k := String.length s).
  destruct (Z.leb_spec (Z.of_nat k) n) as [Hkn|Hkn];
    [destruct (Z.leb_spec n 21) as [H21|H21]|]; cbn [andb].
  - (* digits followed by zeros *)
    set (z := Z.to_nat (n - Z.of_nat k)).
    assert (Dz : all_digits (s ++ zeros z) = true)
      by (now rewrite all_digits_app, D, all_digits_zeros).
    split; [now apply all_digits_plain|].
    rewrite parseFloat_digits; [|destruct s; [congruence|discriminate]|exact Dz].
    rewrite digits_value_app, digits_value_zeros_end.
    rewrite normalize_integer by (try exact Hv; lia).
    unfold of_N. do 3 f_equal. lia.
  - (* exponent, all digits before the point *)
    destruct (Z.ltb_spec 0 n); [|lia]. destruct (Z.leb_spec n 21); [lia|]. cbn [andb].
    destruct (Z.ltb_spec (-6) n); [|lia]. destruct (Z.leb_spec n 0); [lia|]. cbn [andb].
    destruct (Z.ltb_spec (n - 1) 0); [lia|].
    destruct (digits_of_N_literal (Z.abs_N (n - 1))) as [Ene Ed].
    pose proof (digits_of_N_value (Z.abs_N (n - 1))) as Ev.
    set (dd := digits_of_N (Z.abs_N (n - 1))) in *.
    destruct (Z.eqb_spec (Z.of_nat k) 1) as [K1|K1].
    + change (s ++ "e" ++ "+" ++ dd)%string with (s ++ String "e" (String "+" dd))%string.
      split.
      * apply plain_literal; [exact D|reflexivity|].
        cbn [plain]. now rewrite (all_digits_plain dd Ed).
      * rewrite parseFloat_exponent by assumption. rewrite Ev. f_equal. lia.
    + destruct (all_digits_take_drop 1 s D) as [Dt Dd].
      change (take 1 s ++ "." ++ drop 1 s ++ "e" ++ "+" ++ dd)%string
        with (take 1 s ++ String "." (drop 1 s ++ String "e" (String "+" dd)))%string.
      split.
      * apply plain_literal; [exact Dt|reflexivity|].
        apply plain_literal; [exact Dd|reflexivity|].
        cbn [plain]. now rewrite (all_digits_plain dd Ed).
      * rewrite parseFloat_decimal_exponent;
          [|apply take_nonempty; [lia|exact Hne]|exact Dt|exact Dd|exact Ene|exact Ed].
        rewrite take_drop, Ev, length_drop. f_equal. unfold k in *. lia.
  - destruct (Z.ltb_spec 0 n) as [Hpos|Hpos];
      [destruct (Z.leb_spec n 21) as [H21|H21]|]; cbn [andb].
    + (* decimal point inside the digits *)
      set (i := Z.to_nat n).
      destruct (all_digits_take_drop i s D) as [Dt Dd].
      change (take i s ++ "." ++ drop i s)%string
        with (take i s ++ String "." (drop i s))%string.
      split.
      * apply plain_literal; [exact Dt|reflexivity|now apply all_digits_plain].
      * rewrite parseFloat_decimal; [|apply take_nonempty; [lia|exact Hne]|exact Dt|exact Dd].
        rewrite take_drop, length_drop. f_equal. unfold k in *. lia.
    + (* exponent, more digits than the exponent shows *)
      destruct (Z.ltb_spec (-6) n); [|lia]. destruct (Z.leb_spec n 0); [lia|]. cbn [andb].
      destruct (Z.ltb_spec (n - 1) 0); [lia|].
      destruct (digits_of_N_literal (Z.abs_N (n - 1))) as [Ene Ed].
      pose proof (digits_of_N_value (Z.abs_N (n - 1))) as Ev.
      set (dd := digits_of_N (Z.abs_N (n - 1))) in *.
      destruct (Z.eqb_spec (Z.of_nat k) 1) as [K1|K1]; [lia|].
      destruct (all_digits_take_drop 1 s D) as [Dt Dd].
      change (take 1 s ++ "." ++ drop 1 s ++ "e" ++ "+" ++ dd)%string
        with (take 1 s ++ String "." (drop 1 s ++ String "e" (String "+" dd)))%string.
      split.
      * apply plain_literal; [exact Dt|reflexivity|].
        apply plain_literal; [exact Dd|reflexivity|].
        cbn [plain]. now rewrite (all_digits_plain dd Ed).
      * rewrite parseFloat_decimal_exponent;
          [|apply take_nonempty; [lia|exact Hne]|exact Dt|exact Dd|exact Ene|exact Ed].
        rewrite take_drop, Ev, length_drop. f_equal. unfold k in *. lia.
    + (* zeros between the point and the digits *)
      destruct (Z.ltb_spec (-6) n); [|lia]. destruct (Z.leb_spec n 0); [|lia]. cbn [andb].
      set (z := Z.to_nat (- n)).
      change ("0." ++ zeros z ++ s)%string with ("0" ++ String "." (zeros z ++ s))%string.
      assert (Dz : all_digits (zeros z ++ s) = true)
        by (now rewrite all_digits_app, all_digits_zeros, D).
      split.
      * apply plain_literal; [reflexivity|reflexivity|now apply all_digits_plain].
      * rewrite parseFloat_decimal; [|discriminate|reflexivity|exact Dz].
        change ("0" ++ zeros z ++ s)%string with (zeros (S z) ++ s)%string.
        rewrite digits_value_zeros, length_append, length_zeros. f_equal. unfold k in *. lia.
Qed.

(** A number that prints plainly prints as an unsigned literal and reads
    back as itself. *)
Lemma plain_number_roundtrip (x : number) :
  prints_plainly x ->
  plain (number_toString x) = true /\ parseFloat (number_toString x) = x.
Proof.
  destruct x as [|neg|neg m e]; try contradiction.
  destruct neg; [contradiction|]. intros (He & Hcanon & Hlow).
  destruct (N.eq_dec m 0) as [->|Hm].
  - assert (e = 0%Z) as ->.
    { destruct (Z.eq_dec e 0) as [|Hne]; [assumption|].
      exfalso. apply Hcanon; [lia|reflexivity]. }
    split; reflexivity.
  - destruct Hlow as [Hlow|Hlow]; [contradiction|].
    destruct (digits_of_N_literal m) as [Dne D].
    pose proof (digits_of_N_value m) as V.
    pose proof (strip_trailing_zeros_restore (digits_of_N m)) as R.
    pose proof (length_strip_trailing_zeros (digits_of_N m)) as Hk.
    assert (Hdown : (- 6 < Z.of_nat (String.length (digits_of_N m)) + e)%Z).
    { assert (Z.to_nat (- 6 - e) < String.length (digits_of_N m))%nat; [|lia].
      apply length_digits_of_N_lower.
      replace (N.of_nat (Z.to_nat (- 6 - e))) with (Z.to_N (- 6 - e)) by lia.
      exact Hlow. }
    unfold number_toString. destruct (N.eqb_spec m 0) as [|_]; [contradiction|].
    set (ds := digits_of_N m) in *. set (s := strip_trailing_zeros ds) in *.
    assert (Ds : all_digits s = true).
    { rewrite <- R, all_digits_app in D. now apply andb_true_iff in D. }
    assert (F : m = (digits_value 0 s
                     * 10 ^ N.of_nat (String.length ds - String.length s))%N).
    { rewrite <- V, <- R at 1. now rewrite digits_value_app, digits_value_zeros_end. }
    assert (Hv : digits_value 0 s <> 0%N) by (intros Z0; rewrite Z0 in F; now apply Hm).
    assert (Hs : s <> EmptyString) by (intros E0; rewrite E0 in Hv; now apply Hv).
    destruct (magnitude_roundtrip s (Z.of_nat (String.length ds) + e) Hs Ds Hv Hdown)
      as [P Q].
    split; [exact P|]. rewrite Q.
    destruct (Z.eq_dec e 0) as [->|Hne].
    + rewrite normalize_integer by (try exact Hv; lia).
      rewrite F. do 3 f_equal. lia.
    + assert (E : s = ds) by (apply strip_trailing_zeros_digits, Hcanon; lia).
      rewrite E, V.
      replace (Z.of_nat (String.length ds) + e - Z.of_nat (String.length ds))%Z
        with e by lia.
      apply normalize_canonical; [lia|apply Hcanon; lia].
Qed.

(** *** Round trips *)

Lemma trim_space (s : string) : trim (String " " s) = trim s.
Proof. reflexivity. Qed.

Lemma split_space (s : string) :
  map trim (split "," (String " " s)) = map trim (split "," s).
Proof.
  cbn [split]. change (Ascii.eqb " " ",") with false. cbv iota.
  destruct (split "," s) as [|h t] eqn:E; [now destruct (split_nonempty "," s)|].
  cbn [map]. now rewrite trim_space.
Qed.

Lemma list_roundtrip (entries : list string) :
  entries <> [] ->
  Forall (fun e => is_trimmed e = true /\ contains "," e = false) entries ->
  map trim (split "," (join ", " entries)) = entries.
Proof.
  induction entries as [|e rest IH]; [congruence|].
  intros _ H. inversion H as [|? ? [Ht Hc] Hrest]; subst.
  destruct rest as [|e2 rest'].
  - cbn [join]. rewrite split_without_sep by exact Hc. cbn [map].
    now rewrite trim_fixed.
  - change (join ", " (e :: e2 :: rest'))
      with (e ++ String "," (String " " (join ", " (e2 :: rest'))))%string.
    rewrite split_app_sep by exact Hc. cbn [map].
    rewrite split_space, trim_fixed by exact Ht.
    f_equal. apply IH; [discriminate|exact Hrest].
Qed.

Lemma range_roundtrip (lo hi : number) :
  prints_plainly lo -> prints_plainly hi ->
  ruleValue range (number_toString lo ++ "-" ++ number_toString hi)
  = VObj [("min", VNum lo); ("max", VNum hi)].
Proof.
  intros Hlo Hhi.
  destruct (plain_number_roundtrip lo Hlo) as [Plo Rlo].
  destruct (plain_number_roundtrip hi Hhi) as [Phi Rhi].
  unfold ruleValue.
  change (number_toString lo ++ "-" ++ number_toString hi)%string
    with (number_toString lo ++ String "-" (number_toString hi))%string.
  rewrite split_app_sep by now apply plain_without_dash.
  rewrite split_without_sep by now apply plain_without_dash.
  cbn [map element nth_error].
  rewrite !trim_fixed by now apply plain_trimmed.
  now rewrite Rlo, Rhi.
Qed.

Lemma prints_plainly_of_N (n : N) : prints_plainly (of_N n).
Proof.
  repeat split; [lia|lia|].
  destruct (N.eq_dec n 0) as [->|H]; [now left|right].
  change (10 ^ Z.to_N (- 6 - 0))%N with 1%N. lia.
Qed.

(** C1 (as the code has it).  Decoding the encoded text gives the value
    back for a presence value [{ required: true }], for a regex or
    custom value held as the plain string the decoder stores, for a
    non-empty list of trimmed entries that hold no comma, and for a
    range whose bounds are not negative and are zero or at least
    [10^-6]; the natural numbers are such bounds. *)
Theorem codec_roundtrip :
  roundtrip presence (VObj [("required", VBool true)])
  /\ (forall s : string, roundtrip regex (VStr s))
  /\ (forall s : string, roundtrip custom (VStr s))
  /\ (forall entries : list string,
        entries <> [] ->
        Forall (fun e => is_trimmed e = true /\ contains "," e = false) entries ->
        roundtrip list_ (VArr (map VStr entries)))
  /\ (forall lo hi : number,
        prints_plainly lo -> prints_plainly hi ->
        roundtrip range (VObj [("min", VNum lo); ("max", VNum hi)]))
  /\ (forall lo hi : N,
        roundtrip range (VObj [("min", VNum (of_N lo)); ("max", VNum (of_N hi))])).
Proof.
  assert (Range : forall lo hi : number,
             prints_plainly lo -> prints_plainly hi ->
             roundtrip range (VObj [("min", VNum lo); ("max", VNum hi)])).
  { intros lo hi Hlo Hhi.
    exists (number_toString lo ++ "-" ++ number_toString hi)%string.
    split; [reflexivity|now apply range_roundtrip]. }
  split; [|split; [|split; [|split; [|split]]]].
  - eexists. split; reflexivity.
  - intros s. exists s. split; reflexivity.
  - intros s. exists s. split; reflexivity.
  - intros entries Hne H. exists (join ", " entries). split.
    + unfold formatRuleValue. cbn [RuleType_eqb isArray andb items_of].
      now rewrite array_join_strings.
    + unfold ruleValue. rewrite <- map_map, list_roundtrip by assumption.
      reflexivity.
  - exact Range.
  - intros lo hi. apply Range; apply prints_plainly_of_N.
Qed.

Lemma codec_roundtrip_witness :
  roundtrip list_ (VArr (map VStr ["kg"; "g"; "ml"]))
  /\ roundtrip range (VObj [("min", VNum (Finite false 5 (-1)));
                           ("max", VNum (Finite false 9995 (-2)))]).
Proof.
  split.
  - apply (proj1 (proj2 (proj2 (proj2 codec_roundtrip))) ["kg"; "g"; "ml"]).
    + discriminate.
    + repeat constructor.
  - apply (proj1 (proj2 (proj2 (proj2 (proj2 codec_roundtrip))))
             (Finite false 5 (-1)) (Finite false 9995 (-2)));
      (repeat split; [lia | discriminate | right; discriminate]).
Defined.

(** The canonical regex value of the specification does not come back;
    nor does a list entry that holds a comma, a range with a negative
    bound, or a range with a positive bound below [10^-6]. *)
Lemma codec_roundtrip_fails :
  ~ roundtrip regex (VObj [("pattern", VStr "^[A-Z]{2}$")])
  /\ ~ roundtrip list_ (VArr [VStr "Mumbai, India"])
  /\ ~ roundtrip range (VObj [("min", VNum (of_Z (-5))); ("max", VNum (of_Z 10))])
  /\ ~ roundtrip range (VObj [("min", VNum (Finite false 1 (-7))); ("max", VNum (of_N 1))]).
Proof.
  split; [|split; [|split]]; intros [text [E D]].
  - destruct text; discriminate D.
  - vm_compute in E. injection E as <-. vm_compute in D. discriminate D.
  - vm_compute in E. injection E as <-. vm_compute in D. discriminate D.
  - vm_compute in E. injection E as <-. vm_compute in D. discriminate D.
Qed.

(** ** Rules in the store *)

Lemma forallb_trimmed (pieces : list string) :
  forallb is_trimmed_text (map (fun v => VStr (trim v)) pieces) = true.
Proof.
  induction pieces as [|h t IH]; [reflexivity|].
  cbn [map forallb is_trimmed_text]. now rewrite is_trimmed_trim, IH.
Qed.

Lemma jsonb_bound (x : number) : is_number_or_null (jsonb (VNum x)) = true.
Proof.
  destruct x as [| |neg m e]; try reflexivity.
  cbn [jsonb]. now destruct (m =? 0)%N.
Qed.

Lemma jsonb_min_only (x : number) :
  jsonb (VObj [("min", VNum x); ("max", VUndefined)]) = VObj [("min", jsonb (VNum x))].
Proof. reflexivity. Qed.

Lemma jsonb_min_max (x y : number) :
  jsonb (VObj [("min", VNum x); ("max", VNum y)])
  = VObj [("max", jsonb (VNum y)); ("min", jsonb (VNum x))].
Proof. reflexivity. Qed.

Lemma jsonb_strings (entries : list string) :
  jsonb (VArr (map VStr entries)) = VArr (map VStr entries).
Proof. cbn [jsonb]. now rewrite map_map. Qed.

(** Whatever the text, what the store holds for the parsed value has the
    shape of its rule type. *)
Lemma stored_value_shaped (kind : RuleType) (text : string) :
  stored_shape kind (jsonb (ruleValue kind text)) = true.
Proof.
  destruct kind; try reflexivity.
  - unfold ruleValue. rewrite <- (map_map trim VStr), jsonb_strings, map_map.
    pose proof (forallb_trimmed (split "," text)) as F.
    destruct (split "," text) as [|h t] eqn:E;
      [now destruct (split_nonempty "," text)|].
    exact F.
  - unfold ruleValue.
    destruct (split "-" text) as [|h t] eqn:E;
      [now destruct (split_nonempty "-" text)|].
    destruct t as [|h2 t2]; cbn [map element nth_error].
    + rewrite jsonb_min_only. cbn [stored_shape String.eqb Ascii.eqb Bool.eqb andb].
      apply jsonb_bound.
    + rewrite jsonb_min_max. cbn [stored_shape String.eqb Ascii.eqb Bool.eqb andb].
      now rewrite !jsonb_bound.
Qed.

Lemma new_rule_shaped (d : database) (f : FormData.t) (u : User.t) :
  rule_shaped (new_rule d (ruleData f u)) = true.
Proof. apply stored_value_shaped. Qed.

Lemma patch_rule_shaped (row : Rule.t) (f : FormData.t) (u : User.t) :
  rule_shaped (patch_rule (ruleData f u) row) = true.
Proof.
  unfold rule_shaped, patch_rule. cbn [Rule.rule_type Rule.rule_value ruleData
    RuleData.rule_type RuleData.rule_value].
  rewrite ruleValue_defined. apply stored_value_shaped.
Qed.

Lemma update_rows_Forall {A : Type} (P : A -> Prop) (sel : A -> bool)
    (f : A -> A) (rows : list A) :
  (forall row, P row -> P (f row)) ->
  Forall P rows -> Forall P (update_rows sel f rows).
Proof.
  intros Hf H. unfold update_rows. apply Forall_map.
  apply Forall_impl with (2 := H). intros row Hrow.
  destruct (sel row); [now apply Hf|exact Hrow].
Qed.

Lemma delete_rows_Forall {A : Type} (P : A -> Prop) (sel : A -> bool) (rows : list A) :
  Forall P rows -> Forall P (delete_rows sel rows).
Proof.
  intros H. unfold delete_rows. apply Forall_forall. intros row Hin.
  apply filter_In in Hin as [Hin _]. revert row Hin. now apply Forall_forall.
Qed.

Lemma same_but_is_active_refl (row : Rule.t) : same_but_is_active row row.
Proof. repeat split. Qed.

(** A property of rows that every written row has and that a change of
    [is_active] keeps holds along the events of the page. *)
Section Preservation.

Variable P : Rule.t -> Prop.
Hypothesis P_written : forall r, rule_shaped r = true -> P r.
Hypothesis P_toggled : forall b r, P r -> P (set_is_active b r).

Lemma step_preserves (ev : event) (st : state) (w : world) (p : state * world) :
  Forall P (Store.rules (db w)) -> step ev st w = Some p ->
  Forall P (Store.rules (db (snd p))).
Proof.
  intros H E. destruct ev; cbn [step] in E.
  - injection E as <-. now rewrite fetchRules_db.
  - now injection E as <-.
  - now injection E as <-.
  - destruct (form_complete (formData st)); [|discriminate].
    injection E as <-. rewrite handleSubmit_db.
    destruct (user st) as [u|]; [|exact H].
    destruct (accepts w); [|exact H].
    destruct (editingRule st) as [r|]; cbn [db_update_rule db_insert_rule Store.rules].
    + apply update_rows_Forall; [|exact H].
      intros row _. apply P_written, patch_rule_shaped.
    + apply Forall_app. split; [exact H|]. constructor; [|constructor].
      apply P_written, new_rule_shaped.
  - now injection E as <-.
  - destruct (handleEdit rule st); [|discriminate]. now injection E as <-.
  - injection E as <-. rewrite handleDelete_db.
    destruct (confirmed && accepts w); [|exact H].
    now apply delete_rows_Forall.
  - injection E as <-. rewrite toggleRuleStatus_db.
    destruct (accepts w); [|exact H].
    apply update_rows_Forall; [|exact H]. intros row. apply P_toggled.
Qed.

Lemma run_preserves (evs : list event) (st st' : state) (w w' : world) :
  Forall P (Store.rules (db w)) -> run evs st w = Some (st', w') ->
  Forall P (Store.rules (db w')).
Proof.
  revert st w. induction evs as [|ev rest IH]; intros st w H E; cbn [run] in E.
  - now injection E as _ <-.
  - destruct (step ev st w) as [[st1 w1]|] eqn:S; [|discriminate].
    eapply IH; [|exact E]. exact (step_preserves ev st w (st1, w1) H S).
Qed.

End Preservation.

Lemma same_but_is_active_toggled (b : bool) (old new : Rule.t) :
  same_but_is_active old new -> same_but_is_active old (set_is_active b new).
Proof. intros H. exact H. Qed.

(** C2 (as the code has it).  Along every sequence of events of the page
    (add, edit, submit, toggle, delete), a rule in the store is a row
    that was there at the start, up to [is_active], or has a value of the
    shape the store holds for what [handleSubmit] writes under its rule
    type: presence [{ required: true }]; regex and custom the text of the
    form, a string; list a non-empty array of trimmed strings; range an
    object with [min], a number or null, and, when the text had a second
    piece, [max], a number or null.  The rule type and the value are
    written together, the value parsed from the text of the form under
    the rule type of the form; so when the rows at the start have that
    shape, so have all rows afterwards.  A submit that adds a rule is
    never turned down on account of the text: the row it adds holds the
    JSON form of the parsed value. *)
Theorem stored_rules_shaped :
  (forall (evs : list event) (st st' : state) (w w' : world),
      run evs st w = Some (st', w') ->
      Forall (fun r => rule_shaped r = true
                       \/ exists old, In old (Store.rules (db w)) /\ same_but_is_active old r)
             (Store.rules (db w'))
      /\ (all_shaped (db w) -> all_shaped (db w')))
  /\ (forall (st : state) (w : world) (u : User.t),
        user st = Some u -> editingRule st = None -> accepts w = true ->
        exists row,
          Store.rules (db (snd (handleSubmit st w))) = Store.rules (db w) ++ [row]
          /\ Rule.rule_type row = FormData.rule_type (formData st)
          /\ Rule.rule_value row
             = jsonb (ruleValue (FormData.rule_type (formData st))
                        (FormData.rule_value (formData st)))
          /\ rule_shaped row = true).
Proof.
  split.
  - intros evs st st' w w' E. split.
    + apply (run_preserves _) with (evs := evs) (st := st) (st' := st') (w := w);
        [now left | | | exact E].
      * intros b r [H|[old [Hin Hsame]]]; [left; exact H|right].
        exists old. split; [exact Hin|now apply same_but_is_active_toggled].
      * apply Forall_forall. intros r Hin. right. exists r.
        split; [exact Hin|apply same_but_is_active_refl].
    + intros H.
      apply (run_preserves (fun r => rule_shaped r = true)) with
        (evs := evs) (st := st) (st' := st') (w := w); auto.
  - intros st w u Hu He Ha. eexists.
    split; [exact (handleSubmit_adds st w u Hu He Ha)|].
    split; [reflexivity|]. split; [reflexivity|apply new_rule_shaped].
Qed.

Lemma stored_rules_shaped_witness :
  exists st' w',
    run [Mount; ClickAddRule; Change (form list_ "kg, g, ml"); Submit;
         ClickAddRule; Change (form range "0-1000"); Submit]
        (initial (Some official)) (quiet empty_db) = Some (st', w')
    /\ map Rule.rule_value (Store.rules (db w'))
       = [VArr [VStr "kg"; VStr "g"; VStr "ml"];
          VObj [("max", VNum (of_N 1000)); ("min", VNum (of_N 0))]]
    /\ all_shaped (db w')
    /\ exists row,
         Store.rules (db (snd (handleSubmit regex_form (quiet empty_db))))
         = Store.rules (db (quiet empty_db)) ++ [row]
         /\ Rule.rule_type row = regex
         /\ Rule.rule_value row = jsonb (ruleValue regex "^[0-9]+$")
         /\ rule_shaped row = true.
Proof.
  do 2 eexists. split; [reflexivity|]. split; [reflexivity|]. split.
  - apply (proj1 stored_rules_shaped
             [Mount; ClickAddRule; Change (form list_ "kg, g, ml"); Submit;
              ClickAddRule; Change (form range "0-1000"); Submit]
             (initial (Some official)) _ (quiet empty_db) _ eq_refl).
    constructor.
  - exact (proj2 stored_rules_shaped regex_form (quiet empty_db) official
             eq_refl eq_refl eq_refl).
Defined.

(** A list value with empty entries is stored; a range whose text holds
    no number is stored with [min] null and no [max]; and a presence rule
    whose rule type alone is changed to range on the edit form is stored
    like that too, neither turned down nor reset. *)
Lemma stored_rules_not_canonical :
  (exists st w,
      run [ClickAddRule; Change (form list_ ","); Submit]
          (initial (Some official)) (quiet empty_db) = Some (st, w)
      /\ map Rule.rule_type (Store.rules (db w)) = [list_]
      /\ map Rule.rule_value (Store.rules (db w)) = [VArr [VStr ""; VStr ""]])
  /\ (exists st w,
        run [ClickAddRule; Change (form range "abc"); Submit]
            (initial (Some official)) (quiet empty_db) = Some (st, w)
        /\ map Rule.rule_type (Store.rules (db w)) = [range]
        /\ map Rule.rule_value (Store.rules (db w)) = [VObj [("min", VNull)]])
  /\ (exists row st w,
        run [ClickAddRule; Change (form presence "required"); Submit]
            (initial (Some official)) (quiet empty_db)
        = Some (st, w)
        /\ SystemConfigPage.rules st = [row]
        /\ Rule.rule_value row = VObj [("required", VBool true)]
        /\ exists st1 st2 w2,
             handleEdit row st = Some st1
             /\ run [Change (form range (FormData.rule_value (formData st1))); Submit] st1 w
                = Some (st2, w2)
             /\ map Rule.rule_type (Store.rules (db w2)) = [range]
             /\ map Rule.rule_value (Store.rules (db w2)) = [VObj [("min", VNull)]]).
Proof.
  split; [|split].
  - do 2 eexists. repeat split; reflexivity.
  - do 2 eexists. repeat split; reflexivity.
  - do 3 eexists. split; [reflexivity|]. split; [reflexivity|]. split; [reflexivity|].
    do 3 eexists. repeat split; reflexivity.
Qed.

(** ** Toggling a rule *)

Lemma update_rows_Forall2 {A : Type} (R : A -> A -> Prop) (sel : A -> bool)
    (f : A -> A) (rows : list A) :
  (forall row, R row row) ->
  (forall row, sel row = true -> R row (f row)) ->
  Forall2 R rows (update_rows sel f rows).
Proof.
  intros Hrefl Hf. induction rows as [|row rest IH]; [constructor|].
  cbn [update_rows map]. constructor; [|exact IH].
  destruct (sel row) eqn:E; [now apply Hf|apply Hrefl].
Qed.

Lemma update_rows_pointwise {A : Type} (sel : A -> bool) (f : A -> A) (rows : list A) :
  Forall2 (fun old new => new = if sel old then f old else old)
    rows (update_rows sel f rows).
Proof. induction rows as [|row rest IH]; constructor; [reflexivity|exact IH]. Qed.

Lemma update_rows_none {A : Type} (sel : A -> bool) (f : A -> A) (rows : list A) :
  (forall row, In row rows -> sel row = false) -> update_rows sel f rows = rows.
Proof.
  intros H. unfold update_rows. rewrite <- (map_id rows) at 2.
  apply map_ext_in. intros row Hin. now rewrite (H row Hin).
Qed.

Lemma update_where_Forall2 {A : Type} (R : A -> A -> Prop) (id_of : A -> uuid)
    (i : uuid) (f : A -> A) (rows : list A) :
  (forall row, R row row) ->
  (forall row, id_of row = i -> R row (f row)) ->
  Forall2 R rows (update_where id_of i f rows).
Proof.
  intros Hrefl Hf. induction rows as [|row rest IH]; [constructor|].
  cbn [update_where map]. constructor; [|exact IH].
  destruct (N.eqb_spec (id_of row) i); [now apply Hf|apply Hrefl].
Qed.

Lemma Forall2_same {A : Type} (R : A -> A -> Prop) (rows : list A) :
  (forall row, R row row) -> Forall2 R rows rows.
Proof. intros H. induction rows; constructor; auto. Qed.

Lemma In_insert_desc (x r : Rule.t) (l : list Rule.t) :
  In x (insert_desc r l) <-> x = r \/ In x l.
Proof.
  induction l as [|h t IH]; cbn [insert_desc].
  - simpl. intuition congruence.
  - destruct (Rule.created_at h <? Rule.created_at r)%N; simpl in *; intuition congruence.
Qed.

Lemma In_order_created_at_desc (x : Rule.t) (l : list Rule.t) :
  In x (order_created_at_desc l) <-> In x l.
Proof.
  induction l as [|h t IH]; [reflexivity|].
  cbn [order_created_at_desc fold_right]. rewrite In_insert_desc.
  fold (order_created_at_desc t). rewrite IH. simpl. intuition congruence.
Qed.

Lemma unique_by_id (rows : list Rule.t) (a b : Rule.t) :
  NoDup (map Rule.id rows) -> In a rows -> In b rows ->
  Rule.id a = Rule.id b -> a = b.
Proof.
  induction rows as [|h t IH]; [contradiction|].
  cbn [map]. intros N Ha Hb E. inversion N as [|? ? Hnot Hrest]; subst.
  destruct Ha as [->|Ha], Hb as [->|Hb]; [reflexivity| | |now apply IH].
  - exfalso. apply Hnot. rewrite E. now apply in_map.
  - exfalso. apply Hnot. rewrite <- E. now apply in_map.
Qed.

(** With distinct ids, a request with the id of a stored rule reaches
    that rule or nothing. *)
Lemma reached_unique (auth : option uuid) (rows : list Rule.t) (rule row : Rule.t) :
  NoDup (map Rule.id rows) -> In rule rows -> In row rows ->
  reached auth (Rule.id rule) row = true ->
  row = rule /\ is_author auth (Rule.created_by rule) = true.
Proof.
  intros N Hin Hrow R. unfold reached in R.
  apply andb_true_iff in R as [E A]. apply N.eqb_eq in E.
  assert (row = rule) as -> by (now apply (unique_by_id rows)).
  now split.
Qed.

Lemma toggle_back (auth : option uuid) (rows : list Rule.t) (rule : Rule.t) :
  NoDup (map Rule.id rows) -> In rule rows ->
  update_rows (reached auth (Rule.id rule)) (set_is_active (Rule.is_active rule))
    (update_rows (reached auth (Rule.id rule)) (set_is_active (negb (Rule.is_active rule)))
       rows)
  = rows.
Proof.
  intros N Hin. unfold update_rows. rewrite map_map.
  rewrite <- (map_id rows) at 2. apply map_ext_in. intros row Hrow.
  destruct (reached auth (Rule.id rule) row) eqn:R.
  - destruct (reached_unique auth rows rule row N Hin Hrow R) as [-> A].
    replace (reached auth (Rule.id rule)
               (set_is_active (negb (Rule.is_active rule)) rule)) with true
      by (symmetry; exact R).
    now destruct rule.
  - now rewrite R.
Qed.

Lemma fetchRules_quiet (st : state) (w : world) :
  faults w = [] ->
  fetchRules st w
  = (mkstate (user st) (order_created_at_desc (Store.rules (db w))) false
       (showForm st) (editingRule st) (formData st), w).
Proof. unfold fetchRules, select_rules, accept. now intros ->. Qed.

Lemma toggleRuleStatus_quiet (rule : Rule.t) (st : state) (w : world) :
  faults w = [] ->
  toggleRuleStatus rule st w
  = fetchRules st
      (mkworld (db_update_rule_is_active (uid st) (negb (Rule.is_active rule))
                  (Rule.id rule) (db w)) []).
Proof.
  intros F. unfold toggleRuleStatus, update_rule_is_active, request, accept.
  rewrite F. cbn [fst snd]. now rewrite F.
Qed.

Lemma database_eta (d : database) :
  mkdb (products d) (reports d) (Store.rules d) (next_id d) (now d) = d.
Proof. now destruct d. Qed.

(** C10 (as the code has it).  [toggleRuleStatus(rule)] changes nothing
    but [is_active]: every row keeps its id, name, target field, rule
    type, value, description and author, no row is deleted or added, and
    the other tables are untouched.  When the store answers without
    error, the rows with the id of [rule] that the signed-in user created
    get the negation of [rule.is_active], which is the negation of the
    stored value when [rule] is the stored row, and the other rows keep
    theirs; a rule that another user or nobody created, as the rules the
    migration seeds, stays as it is, and the store reports no error.
    Toggling the row again, as the page shows it after the first toggle,
    restores the table, when no request fails. *)
Theorem toggleRuleStatus_frame :
  forall (rule : Rule.t) (st : state) (w : world),
    let after := toggleRuleStatus rule st w in
    Forall2 same_but_is_active (Store.rules (db w)) (Store.rules (db (snd after)))
    /\ List.length (Store.rules (db (snd after))) = List.length (Store.rules (db w))
    /\ products (db (snd after)) = products (db w)
    /\ reports (db (snd after)) = reports (db w)
    /\ (accepts w = false -> db (snd after) = db w)
    /\ (accepts w = true ->
        Forall2 (fun old new =>
                   Rule.is_active new
                   = if (Rule.id old =? Rule.id rule)%N
                        && is_author (uid st) (Rule.created_by old)
                     then negb (Rule.is_active rule) else Rule.is_active old)
                (Store.rules (db w)) (Store.rules (db (snd after))))
    /\ (NoDup (map Rule.id (Store.rules (db w))) ->
        In rule (Store.rules (db w)) ->
        is_author (uid st) (Rule.created_by rule) = false ->
        db (snd after) = db w)
    /\ (faults w = [] ->
        NoDup (map Rule.id (Store.rules (db w))) ->
        In rule (Store.rules (db w)) ->
        is_author (uid st) (Rule.created_by rule) = true ->
        forall shown : Rule.t,
          In shown (SystemConfigPage.rules (fst after)) ->
          Rule.id shown = Rule.id rule ->
          Rule.is_active shown = negb (Rule.is_active rule)
          /\ Store.rules (db (snd (toggleRuleStatus shown (fst after) (snd after))))
             = Store.rules (db w)).
Proof.
  intros rule st w after. subst after.
  assert (Frame : Forall2 same_but_is_active (Store.rules (db w))
                    (Store.rules (db (snd (toggleRuleStatus rule st w))))).
  { rewrite toggleRuleStatus_db. destruct (accepts w).
    - apply update_rows_Forall2; [apply same_but_is_active_refl|].
      intros row _. repeat split.
    - apply Forall2_same, same_but_is_active_refl. }
  split; [exact Frame|]. split; [symmetry; exact (Forall2_length Frame)|].
  clear Frame. split; [|split; [|split; [|split; [|split]]]].
  - rewrite toggleRuleStatus_db. now destruct (accepts w).
  - rewrite toggleRuleStatus_db. now destruct (accepts w).
  - intros A. now rewrite toggleRuleStatus_db, A.
  - intros A. rewrite toggleRuleStatus_db, A. cbn [db_update_rule_is_active Store.rules].
    eapply Forall2_impl; [|apply update_rows_pointwise].
    intros old new ->. unfold reached.
    now destruct ((Rule.id old =? Rule.id rule)%N && is_author (uid st) (Rule.created_by old)).
  - intros N Hin A. rewrite toggleRuleStatus_db.
    destruct (accepts w); [|reflexivity]. unfold db_update_rule_is_active.
    rewrite update_rows_none; [apply database_eta|].
    intros row Hrow. destruct (reached (uid st) (Rule.id rule) row) eqn:R; [|reflexivity].
    destruct (reached_unique _ _ _ _ N Hin Hrow R) as [_ A']. congruence.
  - intros F N Hin A.
    rewrite (toggleRuleStatus_quiet rule st w F), fetchRules_quiet by reflexivity.
    cbn [fst snd SystemConfigPage.rules db db_update_rule_is_active Store.rules].
    intros shown Hshown Hid.
    apply (proj1 (In_order_created_at_desc _ _)) in Hshown.
    unfold update_rows in Hshown.
    apply (proj1 (in_map_iff _ _ _)) in Hshown as [row [Hrow Hin']].
    assert (Erow : row = rule).
    { apply (unique_by_id _ _ _ N Hin' Hin).
      rewrite <- Hid, <- Hrow.
      now destruct (reached (uid st) (Rule.id rule) row). }
    subst row.
    assert (R : reached (uid st) (Rule.id rule) rule = true)
      by (unfold reached; now rewrite N.eqb_refl, A).
    rewrite R in Hrow. subst shown.
    split; [reflexivity|].
    rewrite toggleRuleStatus_quiet by reflexivity.
    rewrite fetchRules_quiet by reflexivity.
    cbn [snd db db_update_rule_is_active Store.rules set_is_active Rule.id Rule.is_active].
    rewrite negb_involutive.
    replace (uid (mkstate (user st)
                    (order_created_at_desc
                       (update_rows (reached (uid st) (Rule.id rule))
                          (set_is_active (negb (Rule.is_active rule)))
                          (Store.rules (db w))))
                    false (showForm st) (editingRule st) (formData st)))
      with (uid st) by reflexivity.
    now apply toggle_back.
Qed.

Lemma toggleRuleStatus_frame_witness :
  map Rule.is_active
    (Store.rules (db (snd (toggleRuleStatus mrp_present config_page two_rules))))
  = [false; true]
  /\ Forall2 (fun old new =>
                Rule.is_active new
                = if (Rule.id old =? Rule.id mrp_present)%N
                     && is_author (uid config_page) (Rule.created_by old)
                  then negb (Rule.is_active mrp_present) else Rule.is_active old)
             (Store.rules (db two_rules))
             (Store.rules (db (snd (toggleRuleStatus mrp_present config_page two_rules))))
  /\ Store.rules
       (db (snd (toggleRuleStatus (set_is_active false mrp_present)
                   (fst (toggleRuleStatus mrp_present config_page two_rules))
                   (snd (toggleRuleStatus mrp_present config_page two_rules)))))
     = Store.rules (db two_rules)
  /\ db (snd (toggleRuleStatus net_quantity_format seeded_page seeded)) = db seeded.
Proof.
  destruct (toggleRuleStatus_frame mrp_present config_page two_rules)
    as (_ & _ & _ & _ & _ & Negated & _ & Twice).
  destruct (toggleRuleStatus_frame net_quantity_format seeded_page seeded)
    as (_ & _ & _ & _ & _ & _ & Others & _).
  split; [reflexivity|]. split; [|split].
  - apply Negated. reflexivity.
  - apply (Twice eq_refl).
    + repeat constructor; simpl; intuition discriminate.
    + left. reflexivity.
    + reflexivity.
    + right. left. reflexivity.
    + reflexivity.
  - apply Others.
    + repeat constructor; simpl; intuition discriminate.
    + right. left. reflexivity.
    + reflexivity.
Defined.

(** A rule that the migration seeds is not toggled: the store answers
    without error, so that the page fetches the rules, and the rule is as
    active as before.  And a rule toggled twice from the row the page
    holds, when the page could not fetch the rules after the first
    toggle, is not restored: the second request sets the value the first
    one set. *)
Lemma toggleRuleStatus_not_every_rule :
  (In net_quantity_format (Store.rules (db seeded))
   /\ Rule.is_active net_quantity_format = true
   /\ SystemConfigPage.rules (initial (Some official)) = []
   /\ exists st,
        toggleRuleStatus net_quantity_format (initial (Some official)) seeded
        = (st, seeded)
        /\ List.length (SystemConfigPage.rules st) = 4%nat
        /\ In net_quantity_format (SystemConfigPage.rules st))
  /\ (map Rule.is_active (Store.rules (db two_rules)) = [true; true]
      /\ SystemConfigPage.rules
           (fst (toggleRuleStatus mrp_present config_page
                   (mkworld (db two_rules) [false; true])))
         = SystemConfigPage.rules config_page
      /\ exists st w,
           run [ClickToggle mrp_present; ClickToggle mrp_present]
               config_page (mkworld (db two_rules) [false; true])
           = Some (st, w)
           /\ map Rule.is_active (Store.rules (db w)) = [false; true]).
Proof.
  split.
  - split; [right; left; reflexivity|]. split; [reflexivity|]. split; [reflexivity|].
    eexists. split; [reflexivity|]. split; [reflexivity|].
    right. right. left. reflexivity.
  - split; [reflexivity|]. split; [reflexivity|]. do 2 eexists. split; reflexivity.
Qed.

(** ** Filing a report *)

Lemma same_but_compliance_status_refl (row : Product.t) :
  same_but_compliance_status row row.
Proof. repeat split. Qed.

Lemma handleSubmit_report_db (st : ReportFormPage.state) (w : world) :
  db (snd (ReportFormPage.handleSubmit st w)) =
  match ReportFormPage.user st, ReportFormPage.product st with
  | Some u, Some p =>
      if accepts w then
        let d1 :=
          db_insert_report
            (ReportData.mk (Product.id p) (User.id u)
               (ReportFormPage.FormData.license_number (ReportFormPage.formData st))
               (ReportFormPage.FormData.violation_details (ReportFormPage.formData st))
               (ReportFormPage.FormData.violation_type (ReportFormPage.formData st))
               (ReportFormPage.FormData.severity (ReportFormPage.formData st))) (db w) in
        if accepts (snd (accept w))
        then db_update_product_status non_compliant (Product.id p) d1
        else d1
      else db w
  | _, _ => db w
  end.
Proof.
  unfold ReportFormPage.handleSubmit.
  destruct (ReportFormPage.user st) as [u|]; [|reflexivity].
  destruct (ReportFormPage.product st) as [p|]; [|reflexivity].
  unfold insert_report, update_product_status.
  destruct (accepts w) eqn:A.
  - rewrite request_accepted by exact A.
    match goal with |- context [request ?f ?x] =>
      pose proof (request_db f x) as R; destruct (request f x) as [e w2] end.
    cbn [snd] in *. rewrite R, !accepts_faults. reflexivity.
  - rewrite request_rejected by exact A. cbn [snd]. apply accept_db.
Qed.

(** C9.  When the store applies the insert of the report and fails the
    update that follows it, the product is not marked: [handleSubmit]
    does not read the answer of the update (the answer of the insert,
    three lines above, is checked and thrown), so the report is filed,
    the page goes to [/dashboard] as after a success, the button is
    released, and every product, the reported one included, has the
    [compliance_status] it had. *)
Theorem report_update_error_ignored :
  forall (st : ReportFormPage.state) (w : world) (u : User.t) (p : Product.t),
    ReportFormPage.user st = Some u ->
    ReportFormPage.product st = Some p ->
    accepts w = true -> accepts (snd (accept w)) = false ->
    let after := ReportFormPage.handleSubmit st w in
    (exists row,
        reports (db (snd after)) = reports (db w) ++ [row]
        /\ Report.product_id row = Product.id p
        /\ Report.reporter_id row = User.id u)
    /\ products (db (snd after)) = products (db w)
    /\ ReportFormPage.location (fst after) = "/dashboard"
    /\ ReportFormPage.submitting (fst after) = false.
Proof.
  intros st w u p Hu Hp A1 A2 after. subst after.
  rewrite handleSubmit_report_db, Hu, Hp, A1, A2.
  cbn [db_insert_report products reports].
  split; [eexists; repeat split|]. split; [reflexivity|].
  unfold ReportFormPage.handleSubmit, insert_report. rewrite Hu, Hp.
  rewrite request_accepted by exact A1.
  match goal with |- context [update_product_status ?c ?i ?x] =>
    destruct (update_product_status c i x) as [e w2] end.
  split; reflexivity.
Qed.

Lemma report_update_error_ignored_witness :
  map Product.compliance_status
    (products (db (snd (ReportFormPage.handleSubmit report_page
                          (mkworld (db two_rules) [false; true])))))
  = [compliant; pending]
  /\ products (db (snd (ReportFormPage.handleSubmit report_page
                          (mkworld (db two_rules) [false; true]))))
     = products (db (mkworld (db two_rules) [false; true]))
  /\ List.length (reports (db (snd (ReportFormPage.handleSubmit report_page
                                      (mkworld (db two_rules) [false; true])))))
     = 1%nat
  /\ ReportFormPage.location
       (fst (ReportFormPage.handleSubmit report_page (mkworld (db two_rules) [false; true])))
     = "/dashboard".
Proof.
  destruct (report_update_error_ignored report_page (mkworld (db two_rules) [false; true])
              official rice eq_refl eq_refl eq_refl eq_refl) as (_ & P & L & _).
  split; [reflexivity|]. split; [exact P|]. split; [reflexivity|exact L].
Defined.



(** ** Evaluating a rule set (the engine of the specification) *)

Section EngineFacts.

Variable compiles : string -> bool.
Variable matches : string -> string -> bool.
Variable evaluator : Rule.t -> option (Product.t -> bool).
Variable message_of : Rule.t -> string.
Variable severity_of : Rule.t -> Severity.

Local Abbreviation evaluate :=
  (RuleEngine.evaluate compiles matches evaluator message_of severity_of).
Local Abbreviation evaluateAll :=
  (RuleEngine.evaluateAll compiles matches evaluator message_of severity_of).
Local Abbreviation well_shaped := (RuleEngine.well_shaped compiles).

Lemma evaluate_corrupt (r : Rule.t) (p : Product.t) :
  well_shaped (Rule.rule_type r) (Rule.rule_value r) = false ->
  evaluate r p = inl RuleEngine.CorruptRule.
Proof. unfold RuleEngine.evaluate. now intros ->. Qed.

Lemma evaluate_valid (r : Rule.t) (p : Product.t) :
  well_shaped (Rule.rule_type r) (Rule.rule_value r) = true ->
  exists found, evaluate r p = inr found.
Proof. unfold RuleEngine.evaluate. intros ->. now eexists. Qed.

Lemma evaluateAll_violations (rs : list Rule.t) (p : Product.t) :
  Forall (fun r => Rule.is_active r = true) rs ->
  RuleEngine.violations (evaluateAll rs p)
  = flat_map (fun r => match evaluate r p with
                       | inr (Some v) => [v]
                       | _ => []
                       end)
      (filter (fun r => well_shaped (Rule.rule_type r) (Rule.rule_value r)) rs).
Proof.
  induction rs as [|r rest IH]; [reflexivity|].
  intros H. inversion H as [|? ? Hr Hrest]; subst. specialize (IH Hrest).
  cbn [RuleEngine.evaluateAll filter]. rewrite Hr.
  destruct (well_shaped (Rule.rule_type r) (Rule.rule_value r)) eqn:W.
  - cbn [flat_map]. destruct (evaluate_valid r p W) as [found ->].
    destruct found; cbn [RuleEngine.violations app]; now rewrite IH.
  - now rewrite (evaluate_corrupt r p W).
Qed.

Lemma evaluateAll_skipped (rs : list Rule.t) (p : Product.t) :
  Forall (fun r => Rule.is_active r = true) rs ->
  RuleEngine.skipped (evaluateAll rs p)
  = map Rule.id
      (filter (fun r => negb (well_shaped (Rule.rule_type r) (Rule.rule_value r))) rs).
Proof.
  induction rs as [|r rest IH]; [reflexivity|].
  intros H. inversion H as [|? ? Hr Hrest]; subst. specialize (IH Hrest).
  cbn [RuleEngine.evaluateAll filter]. rewrite Hr.
  destruct (well_shaped (Rule.rule_type r) (Rule.rule_value r)) eqn:W.
  - cbn [negb]. destruct (evaluate_valid r p W) as [found ->].
    destruct found; cbn [RuleEngine.skipped]; exact IH.
  - rewrite (evaluate_corrupt r p W). cbn [negb map RuleEngine.skipped].
    now rewrite IH.
Qed.


End EngineFacts.


(** * Further properties of the pages *)

(** ** The edit form *)

(** A property of all values, when it holds of an array as soon as it
    holds of its elements. *)
Lemma value_arrays_ind (P : value -> Prop) :
  P VUndefined -> P VNull -> (forall b, P (VBool b)) -> (forall x, P (VNum x)) ->
  (forall s, P (VStr s)) -> (forall items, Forall P items -> P (VArr items)) ->
  (forall props, P (VObj props)) -> forall v, P v.
Proof.
  intros Hu Hn Hb Hx Hs Ha Ho. fix IH 1.
  intros [| |b|x|s|items|props];
    [exact Hu|exact Hn|apply Hb|apply Hx|apply Hs| |apply Ho].
  apply Ha. induction items as [|x rest IHr]; constructor; [apply IH|exact IHr].
Qed.

(** What [join] prints for an element. *)
Definition element_text (x : value) : option string :=
  match x with
  | VUndefined | VNull => Some EmptyString
  | _ => toString x
  end.

Lemma all_some_throws (items : list value) :
  Forall (fun x => toString x = None <-> prints x = false) items ->
  all_some (map element_text items) = None <-> forallb prints items = false.
Proof.
  induction 1 as [|x rest Hx _ IH]; cbn [map all_some forallb]; [split; discriminate|].
  assert (Ex : element_text x = None <-> prints x = false)
    by (destruct x; try exact Hx; split; discriminate).
  destruct (element_text x) as [t|].
  - destruct (prints x); [|now destruct Ex as [_ Ex]; discriminate Ex].
    cbn [andb]. destruct (all_some (map element_text rest)).
    + split; [discriminate|]. intros H. now apply IH in H.
    + split; [intros _; now apply IH|reflexivity].
  - split; [intros _|reflexivity]. now rewrite (proj1 Ex eq_refl).
Qed.

Lemma toString_prints (v : value) : toString v = None <-> prints v = false.
Proof.
  induction v as [| |b|x|s|items IH|props] using value_arrays_ind;
    cbn [toString prints]; try (split; discriminate).
  - change (fun x : value => match x with
                             | VUndefined | VNull => Some EmptyString
                             | _ => toString x
                             end) with element_text.
    rewrite <- (all_some_throws items IH).
    destruct (all_some (map element_text items));
      (split; intros H; [try discriminate H|try discriminate H]; reflexivity).
  - destruct (has_own "toString" props);
      (split; intros H; [try discriminate H|try discriminate H]; reflexivity).
Qed.

Lemma array_join_throws (sep : string) (items : list value) :
  array_join sep items = None <-> forallb prints items = false.
Proof.
  unfold array_join.
  change (fun x : value => match x with
                           | VUndefined | VNull => Some EmptyString
                           | _ => toString x
                           end) with element_text.
  rewrite <- all_some_throws by (apply Forall_forall; intros x _; apply toString_prints).
  destruct (all_some (map element_text items));
      (split; intros H; [try discriminate H|try discriminate H]; reflexivity).
Qed.

Lemma toString_cases (v : value) :
  (exists s, toString v = Some s /\ prints v = true)
  \/ (toString v = None /\ prints v = false).
Proof.
  pose proof (toString_prints v) as H.
  destruct (toString v) as [s|]; [left|right].
  - exists s. split; [reflexivity|]. destruct (prints v); [reflexivity|].
    now destruct H as [_ H]; discriminate H.
  - split; [reflexivity|now apply H].
Qed.

(** When [formatRuleValue] throws, and when it returns [undefined]. *)
Lemma formatRuleValue_fails :
  forall (v : value) (kind : RuleType),
    (formatRuleValue v kind = Throws TypeError
     <-> (kind = list_ /\ exists items, v = VArr items /\ forallb prints items = false)
         \/ (kind = range
             /\ (v = VNull
                 \/ exists props,
                      v = VObj props
                      /\ (prints (lookup "min" props) = false
                          \/ prints (lookup "max" props) = false))))
    /\ (formatRuleValue v kind = ReturnsUndefined <-> v = VUndefined).
Proof.
  intros v kind. unfold formatRuleValue.
  assert (Plain : forall w : value,
             (match w with
              | VStr s => Returns s
              | _ => match stringify w with
                     | Some t => Returns t
                     | None => ReturnsUndefined
                     end
              end = Throws TypeError <-> False)
             /\ (match w with
                 | VStr s => Returns s
                 | _ => match stringify w with
                        | Some t => Returns t
                        | None => ReturnsUndefined
                        end
                 end = ReturnsUndefined <-> w = VUndefined)).
  { intros w. destruct w; cbn [stringify];
      (split; split; intros H; try discriminate H; try reflexivity; try contradiction). }
  destruct (RuleType_eqb kind list_ && isArray v) eqn:L.
  - apply andb_true_iff in L as [K A].
    destruct kind; try discriminate K. destruct v as [| | | | |items|]; try discriminate A.
    cbn [items_of]. pose proof (array_join_throws ", " items) as J.
    destruct (array_join ", " items) as [text|]; split.
    + split; [discriminate|].
      intros [[_ [items' [[= <-] H]]]|[K' _]]; [|discriminate K'].
      apply J in H. discriminate H.
    + split; discriminate.
    + split; [intros _|reflexivity]. left. split; [reflexivity|].
      exists items. split; [reflexivity|now apply J].
    + split; discriminate.
  - destruct (RuleType_eqb kind range && typeof_object v) eqn:R.
    + apply andb_true_iff in R as [K T].
      destruct kind; try discriminate K.
      destruct v as [| | | | |items|props]; try discriminate T; cbn [get].
      * split; [|split; discriminate].
        split; [intros _|reflexivity]. right. split; [reflexivity|now left].
      * cbn [toString]. split; [|split; discriminate].
        split; [discriminate|].
        intros [[K' _]|[_ [H|[props [H _]]]]]; discriminate.
      * destruct (toString_cases (lookup "min" props)) as [[a [-> Pa]]|[-> Pa]];
          [destruct (toString_cases (lookup "max" props)) as [[b [-> Pb]]|[-> Pb]]|];
          (split; [|split; discriminate]).
        -- split; [discriminate|].
           intros [[K' _]|[_ [H|[props' [[= <-] [H|H]]]]]]; congruence.
        -- split; [intros _|reflexivity]. right. split; [reflexivity|right].
           exists props. split; [reflexivity|now right].
        -- split; [intros _|reflexivity]. right. split; [reflexivity|right].
           exists props. split; [reflexivity|now left].
    + destruct (Plain v) as [P1 P2]. split; [|exact P2].
      rewrite P1. split; [contradiction|].
      intros [[-> [items [-> _]]]|[-> [->|[props [-> _]]]]]; discriminate.
Qed.

(** X1.  [formatRuleValue] throws in these cases only: under the rule type
    list, on an array that holds an element whose [ToString] throws;
    under the rule type range, on [null], and on an object whose [min] or
    [max] has a [ToString] that throws.  [ToString] throws on an object
    with an own property [toString], and on an array that holds one.
    [formatRuleValue] returns [undefined] on [undefined] only.  On every
    other value and rule type it returns a string. *)
Theorem formatRuleValue_failures :
  forall (v : value) (kind : RuleType),
    (formatRuleValue v kind = Throws TypeError
     <-> (kind = list_ /\ exists items, v = VArr items /\ forallb prints items = false)
         \/ (kind = range
             /\ (v = VNull
                 \/ exists props,
                      v = VObj props
                      /\ (prints (lookup "min" props) = false
                          \/ prints (lookup "max" props) = false))))
    /\ (formatRuleValue v kind = ReturnsUndefined <-> v = VUndefined).
Proof. exact formatRuleValue_fails. Qed.

Lemma trimmed_texts_are_strings (items : list value) :
  forallb is_trimmed_text items = true -> exists entries, items = map VStr entries.
Proof.
  induction items as [|x rest IH]; [now exists []|].
  cbn [forallb]. intros H. apply andb_true_iff in H as [Hx Hrest].
  destruct (IH Hrest) as [entries ->].
  destruct x; try discriminate Hx. now exists (s :: entries).
Qed.

Lemma shaped_value_formats (kind : RuleType) (v : value) :
  stored_shape kind v = true -> exists text, formatRuleValue v kind = Returns text.
Proof.
  destruct kind; cbn [stored_shape].
  - destruct v as [| | | | | |[|[k x] [|]]]; try discriminate;
      destruct x as [| |[]| | | |]; try discriminate. intros _. now eexists.
  - destruct v; try discriminate. intros _. now eexists.
  - destruct v as [| | | | |[|x rest]|]; try discriminate. intros H.
    destruct (trimmed_texts_are_strings _ H) as [entries E].
    unfold formatRuleValue. cbn [RuleType_eqb isArray andb items_of].
    rewrite E, array_join_strings. now eexists.
  - destruct v as [| | | | | |[|[k1 x1] [|[k2 x2] [|]]]]; try discriminate.
    + intros H. apply andb_true_iff in H as [K N].
      apply String.eqb_eq in K. subst k1.
      destruct x1 as [| | |[| |neg m e]| | |]; try discriminate N; now eexists.
    + intros H. apply andb_true_iff in H as [H N2]. apply andb_true_iff in H as [H N1].
      apply andb_true_iff in H as [K1 K2].
      apply String.eqb_eq in K1, K2. subst k1 k2.
      destruct x1 as [| | |[| |neg1 m1 e1]| | |]; try discriminate N1;
        destruct x2 as [| | |[| |neg2 m2 e2]| | |]; try discriminate N2; now eexists.
  - destruct v; try discriminate. intros _. now eexists.
Qed.

(** X2.  Along the events of the page, a rule in the store can always be
    opened in the edit form, when the rules at the start have the shape
    the form writes: [formatRuleValue] returns a string for it, so the
    list of rules renders and [handleEdit] fills the form. *)
Theorem written_rules_open_in_edit_form :
  forall (evs : list event) (st st' : state) (w w' : world),
    all_shaped (db w) ->
    run evs st w = Some (st', w') ->
    forall (r : Rule.t) (page : state),
      In r (Store.rules (db w')) ->
      exists text,
        formatRuleValue (Rule.rule_value r) (Rule.rule_type r) = Returns text
        /\ handleEdit r page
           = Some (mkstate (user page) (SystemConfigPage.rules page) (loading page) true
                     (Some r)
                     (FormData.mk (Rule.rule_name r) (Rule.field_to_validate r)
                        (Rule.rule_type r) text
                        (match Rule.description r with
                         | Some d => d
                         | None => EmptyString
                         end)
                        (Rule.is_active r))).
Proof.
  intros evs st st' w w' H E r page Hin.
  assert (S : Forall (fun r => rule_shaped r = true) (Store.rules (db w'))).
  { apply (run_preserves (fun r => rule_shaped r = true)) with
      (evs := evs) (st := st) (st' := st') (w := w); auto. }
  rewrite Forall_forall in S. specialize (S r Hin).
  destruct (shaped_value_formats _ _ S) as [text F].
  exists text. split; [exact F|]. unfold handleEdit. now rewrite F.
Qed.

Lemma written_rules_open_in_edit_form_witness :
  exists st' w' r text,
    run [ClickAddRule; Change (form list_ " kg ,g,, ml"); Submit]
        (initial (Some official)) (quiet empty_db) = Some (st', w')
    /\ In r (Store.rules (db w'))
    /\ formatRuleValue (Rule.rule_value r) (Rule.rule_type r) = Returns text
    /\ text = "kg, g, , ml".
Proof.
  destruct (written_rules_open_in_edit_form
              [ClickAddRule; Change (form list_ " kg ,g,, ml"); Submit]
              (initial (Some official)) _ (quiet empty_db) _
              (Forall_nil _) eq_refl
              (new_rule empty_db (ruleData (form list_ " kg ,g,, ml") official))
              (initial None) (or_introl eq_refl)) as [text [F _]].
  do 2 eexists. exists (new_rule empty_db (ruleData (form list_ " kg ,g,, ml") official)), text.
  split; [reflexivity|]. split; [left; reflexivity|]. split; [exact F|].
  vm_compute in F. now injection F as <-.
Defined.

Lemma decoded_entries (text : string) :
  map trim (split "," text) <> []
  /\ Forall (fun e => is_trimmed e = true /\ contains "," e = false)
       (map trim (split "," text)).
Proof.
  split.
  - destruct (split "," text) eqn:E; [now destruct (split_nonempty "," text)|discriminate].
  - apply Forall_map. apply Forall_impl with (2 := split_parts_without_sep "," text).
    intros p Hp. split; [apply is_trimmed_trim|now apply contains_trim].
Qed.

(** X3.  What the decoder produces for a presence, regex, custom or list rule
    comes back from the edit form unchanged, whatever text it was
    decoded from: encoding the decoded value and decoding again gives
    the decoded value. *)
Theorem decoded_values_roundtrip :
  forall text : string,
    roundtrip presence (ruleValue presence text)
    /\ roundtrip regex (ruleValue regex text)
    /\ roundtrip custom (ruleValue custom text)
    /\ roundtrip list_ (ruleValue list_ text).
Proof.
  intros text. split; [|split; [|split]].
  - eexists. split; reflexivity.
  - exists text. split; reflexivity.
  - exists text. split; reflexivity.
  - destruct (decoded_entries text) as [Hne H].
    exists (join ", " (map trim (split "," text))). split.
    + unfold formatRuleValue, ruleValue. rewrite <- map_map.
      cbn [RuleType_eqb isArray andb items_of]. now rewrite array_join_strings.
    + unfold ruleValue at 1. rewrite <- map_map, list_roundtrip by assumption.
      unfold ruleValue. now rewrite map_map.
Qed.

(** ** Saving, and saving again *)

Lemma is_author_other (u : uuid) (created_by : option uuid) :
  created_by <> Some u -> is_author (Some u) created_by = false.
Proof.
  intros H. destruct created_by as [c|]; [|reflexivity].
  cbn [is_author]. apply N.eqb_neq. congruence.
Qed.

Lemma handleSubmit_resets (st : state) (w : world) (u : User.t) :
  user st = Some u -> accepts w = true ->
  formData (fst (handleSubmit st w)) = emptyForm
  /\ showForm (fst (handleSubmit st w)) = false
  /\ editingRule (fst (handleSubmit st w)) = None
  /\ user (fst (handleSubmit st w)) = user st.
Proof.
  intros Hu Ha. rewrite (handleSubmit_requests st w u Hu).
  destruct (editingRule st); rewrite request_accepted by exact Ha;
    match goal with |- context [fetchRules ?s ?x] =>
      unfold fetchRules; destruct (select_rules x) as [[e|data] w2] end;
    cbn [fst resetForm formData showForm editingRule user]; repeat split; reflexivity.
Qed.

(** A submit in the edit form: the rows it rewrites. *)
Lemma handleSubmit_updates (st : state) (w : world) (u : User.t) (r : Rule.t) :
  user st = Some u -> editingRule st = Some r -> accepts w = true ->
  Forall2 (fun old new =>
             new = if reached (Some (User.id u)) (Rule.id r) old
                   then patch_rule (ruleData (formData st) u) old else old)
    (Store.rules (db w)) (Store.rules (db (snd (handleSubmit st w)))).
Proof.
  intros Hu He Ha. rewrite handleSubmit_db, Hu, Ha, He.
  cbn [db_update_rule Store.rules]. apply update_rows_pointwise.
Qed.

(** A submit in the edit form of a rule that the user did not create. *)
Lemma handleSubmit_not_author (st : state) (w : world) (u : User.t) (r : Rule.t) :
  user st = Some u -> editingRule st = Some r ->
  (forall old, In old (Store.rules (db w)) -> Rule.id old = Rule.id r ->
               Rule.created_by old <> Some (User.id u)) ->
  db (snd (handleSubmit st w)) = db w.
Proof.
  intros Hu He H. rewrite handleSubmit_db, Hu, He.
  destruct (accepts w); [|reflexivity]. unfold db_update_rule.
  rewrite update_rows_none; [apply database_eta|].
  intros old Hin. unfold reached.
  destruct (N.eqb_spec (Rule.id old) (Rule.id r)) as [E|_]; [|reflexivity].
  now rewrite (is_author_other _ _ (H old Hin E)).
Qed.

(** X4.  The three outcomes of a submit of the rule form.  Without a
    signed-in user, or when the store answers with an error, neither the
    store nor the page changes: the form stays open with what was typed.
    When the store answers without error, the form is emptied and closed
    and the page leaves the edit mode; a new rule has then been added at
    the end of the table, or, in the edit mode, the rows with the id of
    the edited rule that the user created have been rewritten and every
    other row is as it was.  So the submit of an edited rule that the
    user did not create, as the rules the migration seeds, closes the
    form as after a save and writes nothing. *)
Theorem handleSubmit_outcomes :
  forall (st : state) (w : world),
    (user st = None \/ accepts w = false ->
     fst (handleSubmit st w) = st /\ db (snd (handleSubmit st w)) = db w)
    /\ (forall u : User.t,
          user st = Some u -> accepts w = true ->
          (formData (fst (handleSubmit st w)) = emptyForm
           /\ showForm (fst (handleSubmit st w)) = false
           /\ editingRule (fst (handleSubmit st w)) = None
           /\ user (fst (handleSubmit st w)) = user st)
          /\ (editingRule st = None ->
              Store.rules (db (snd (handleSubmit st w)))
              = Store.rules (db w) ++ [new_rule (db w) (ruleData (formData st) u)])
          /\ (forall r : Rule.t,
                editingRule st = Some r ->
                Forall2 (fun old new =>
                           new = if (Rule.id old =? Rule.id r)%N
                                    && is_author (Some (User.id u)) (Rule.created_by old)
                                 then patch_rule (ruleData (formData st) u) old
                                 else old)
                  (Store.rules (db w)) (Store.rules (db (snd (handleSubmit st w))))
                /\ ((forall old, In old (Store.rules (db w)) ->
                                 Rule.id old = Rule.id r ->
                                 Rule.created_by old <> Some (User.id u)) ->
                    db (snd (handleSubmit st w)) = db w))).
Proof.
  intros st w. split.
  - intros H. split.
    + destruct (user st) as [u|] eqn:Hu;
        [rewrite (handleSubmit_requests st w u Hu)|unfold handleSubmit; now rewrite Hu].
      destruct H as [H|H]; [discriminate|].
      destruct (editingRule st); now rewrite request_rejected.
    + rewrite handleSubmit_db. destruct (user st); [|reflexivity].
      destruct H as [H|H]; [discriminate|]. now rewrite H.
  - intros u Hu Ha. split; [exact (handleSubmit_resets st w u Hu Ha)|]. split.
    + intros He. exact (handleSubmit_adds st w u Hu He Ha).
    + intros r He. split.
      * exact (handleSubmit_updates st w u r Hu He Ha).
      * exact (handleSubmit_not_author st w u r Hu He).
Qed.

Lemma handleSubmit_outcomes_witness :
  (fst (handleSubmit regex_form (mkworld empty_db [true])) = regex_form
   /\ db (snd (handleSubmit regex_form (mkworld empty_db [true])))
      = db (mkworld empty_db [true]))
  /\ Store.rules (db (snd (handleSubmit regex_form (quiet empty_db))))
     = Store.rules (db (quiet empty_db))
       ++ [new_rule (db (quiet empty_db)) (ruleData (form regex "^[0-9]+$") official)]
  /\ (showForm (fst (handleSubmit seeded_edit seeded)) = false
      /\ db (snd (handleSubmit seeded_edit seeded)) = db seeded).
Proof.
  split; [|split].
  - apply (proj1 (handleSubmit_outcomes regex_form (mkworld empty_db [true]))).
    right. reflexivity.
  - apply (proj2 (handleSubmit_outcomes regex_form (quiet empty_db))
             official eq_refl eq_refl).
    reflexivity.
  - destruct (proj2 (handleSubmit_outcomes seeded_edit seeded) official eq_refl eq_refl)
      as ((_ & Closed & _) & _ & Edit).
    split; [exact Closed|].
    apply (proj2 (Edit mrp_presence_check eq_refl)).
    intros old [<- | [<- | [<- | [<- | []]]]]; discriminate.
Defined.

Lemma jsonb_plain (x : number) : prints_plainly x -> jsonb (VNum x) = VNum x.
Proof.
  destruct x as [| |neg m e]; try contradiction.
  destruct neg; [contradiction|]. intros (He & Hcanon & _).
  cbn [jsonb]. destruct (N.eqb_spec m 0) as [->|_]; [|reflexivity].
  destruct (Z.eq_dec e 0) as [->|Hne]; [reflexivity|].
  exfalso. apply Hcanon; [lia|reflexivity].
Qed.

(** The stored values that come back from the edit form. *)
Lemma stored_values_resave :
  resaves presence (VObj [("required", VBool true)])
  /\ (forall s : string, resaves regex (VStr s))
  /\ (forall s : string, resaves custom (VStr s))
  /\ (forall entries : list string,
        entries <> [] ->
        Forall (fun e => is_trimmed e = true /\ contains "," e = false) entries ->
        resaves list_ (VArr (map VStr entries)))
  /\ (forall lo hi : number,
        prints_plainly lo -> prints_plainly hi ->
        resaves range (VObj [("max", VNum hi); ("min", VNum lo)])).
Proof.
  split; [|split; [|split; [|split]]].
  - eexists. split; reflexivity.
  - intros s. exists s. split; reflexivity.
  - intros s. exists s. split; reflexivity.
  - intros entries Hne H. exists (join ", " entries). split.
    + unfold formatRuleValue. cbn [RuleType_eqb isArray andb items_of].
      now rewrite array_join_strings.
    + unfold ruleValue. rewrite <- map_map, list_roundtrip by assumption.
      apply jsonb_strings.
  - intros lo hi Hlo Hhi.
    exists (number_toString lo ++ "-" ++ number_toString hi)%string.
    split; [reflexivity|].
    now rewrite range_roundtrip, jsonb_min_max, !jsonb_plain by assumption.
Qed.

(** X5.  Opening a stored rule in the edit form and saving it unchanged
    keeps its name, target field, rule type, value and [is_active], for
    the rows with its id that the signed-in user created and provided
    the value comes back from the form and the store; the description
    becomes the empty string when there was none.  The rows that the
    user did not create and the rows with another id do not change, and
    ids and timestamps stay.  The values that come back are those the
    form writes: [{ required: true }], a string for regex and custom, a
    non-empty list of trimmed entries without comma, and a range, stored
    as [{ max, min }], whose bounds are not negative and are zero or at
    least [10^-6]. *)
Theorem edit_then_submit_keeps_rule :
  (forall (r : Rule.t) (st : state) (w : world) (u : User.t),
      user st = Some u -> accepts w = true ->
      resaves (Rule.rule_type r) (Rule.rule_value r) ->
      exists st1,
        handleEdit r st = Some st1
        /\ Forall2 (fun old new =>
                      if (Rule.id old =? Rule.id r)%N
                         && is_author (Some (User.id u)) (Rule.created_by old)
                      then resaved u r old new
                      else new = old)
             (Store.rules (db w)) (Store.rules (db (snd (handleSubmit st1 w)))))
  /\ resaves presence (VObj [("required", VBool true)])
  /\ (forall s : string, resaves regex (VStr s))
  /\ (forall s : string, resaves custom (VStr s))
  /\ (forall entries : list string,
        entries <> [] ->
        Forall (fun e => is_trimmed e = true /\ contains "," e = false) entries ->
        resaves list_ (VArr (map VStr entries)))
  /\ (forall lo hi : number,
        prints_plainly lo -> prints_plainly hi ->
        resaves range (VObj [("max", VNum hi); ("min", VNum lo)])).
Proof.
  split; [|exact stored_values_resave].
  intros r st w u Hu Ha [text [F D]].
  eexists. split; [unfold handleEdit; rewrite F; reflexivity|].
  eapply Forall2_impl; [|apply (handleSubmit_updates _ w u r); [exact Hu|reflexivity|exact Ha]].
  intros old new ->. unfold reached.
  destruct ((Rule.id old =? Rule.id r)%N
            && is_author (Some (User.id u)) (Rule.created_by old)); [|reflexivity].
  unfold resaved, patch_rule, ruleData.
  cbn [formData FormData.rule_name FormData.field_to_validate FormData.rule_type
       FormData.rule_value FormData.description FormData.is_active
       RuleData.rule_name RuleData.field_to_validate RuleData.rule_type
       RuleData.rule_value RuleData.description RuleData.is_active RuleData.created_by
       Rule.id Rule.rule_name Rule.field_to_validate Rule.rule_type Rule.rule_value
       Rule.description Rule.is_active Rule.created_by Rule.created_at Rule.updated_at].
  rewrite ruleValue_defined, D. repeat split.
Qed.

Lemma edit_then_submit_keeps_rule_witness :
  exists st1,
    handleEdit mrp_bounds config_page = Some st1
    /\ FormData.rule_value (formData st1) = "0-1000"
    /\ Forall2 (fun old new =>
                  if (Rule.id old =? Rule.id mrp_bounds)%N
                     && is_author (Some (User.id official)) (Rule.created_by old)
                  then resaved official mrp_bounds old new
                  else new = old)
         (Store.rules (db two_rules))
         (Store.rules (db (snd (handleSubmit st1 two_rules)))).
Proof.
  destruct (proj1 edit_then_submit_keeps_rule mrp_bounds config_page two_rules official
              eq_refl eq_refl) as [st1 [E F]].
  - apply (proj2 (proj2 (proj2 (proj2 (proj2 edit_then_submit_keeps_rule))))
             (of_N 0) (of_N 1000));
      (repeat split; [lia | discriminate | first [now left | right; discriminate]]).
  - exists st1. split; [exact E|]. split; [|exact F].
    injection E as <-. reflexivity.
Defined.

(** X6.  Opening a regex or custom rule whose stored value is not a string
    and saving it unchanged: the form shows the JSON text of the value,
    and in the rows with the rule's id that the signed-in user created
    the value is replaced by that text, held as a string.  The regex
    rule of the migration, an object with [pattern] and [flags], is such
    a value, but nobody created it: saving it closes the form and leaves
    the store as it was. *)
Theorem edit_then_submit_stringifies :
  forall (r : Rule.t) (st : state) (w : world) (u : User.t) (t : string),
    user st = Some u -> accepts w = true ->
    Rule.rule_type r = regex \/ Rule.rule_type r = custom ->
    is_string (Rule.rule_value r) = false ->
    stringify (Rule.rule_value r) = Some t ->
    exists st1,
      handleEdit r st = Some st1
      /\ FormData.rule_value (formData st1) = t
      /\ showForm (fst (handleSubmit st1 w)) = false
      /\ Forall2 (fun old new =>
                    if (Rule.id old =? Rule.id r)%N
                       && is_author (Some (User.id u)) (Rule.created_by old)
                    then Rule.rule_type new = Rule.rule_type r
                         /\ Rule.rule_value new = VStr t
                    else new = old)
           (Store.rules (db w)) (Store.rules (db (snd (handleSubmit st1 w))))
      /\ ((forall old, In old (Store.rules (db w)) -> Rule.id old = Rule.id r ->
                       Rule.created_by old <> Some (User.id u)) ->
          db (snd (handleSubmit st1 w)) = db w).
Proof.
  intros r st w u t Hu Ha Hk Hs Ht.
  assert (F : formatRuleValue (Rule.rule_value r) (Rule.rule_type r) = Returns t).
  { unfold formatRuleValue.
    replace (RuleType_eqb (Rule.rule_type r) list_) with false
      by (destruct Hk as [-> | ->]; reflexivity).
    replace (RuleType_eqb (Rule.rule_type r) range) with false
      by (destruct Hk as [-> | ->]; reflexivity).
    cbn [andb]. rewrite Ht. destruct (Rule.rule_value r); try reflexivity; discriminate. }
  eexists. split; [unfold handleEdit; rewrite F; reflexivity|].
  split; [reflexivity|]. split; [|split].
  - now apply (handleSubmit_resets _ w u).
  - eapply Forall2_impl;
      [|apply (handleSubmit_updates _ w u r); [exact Hu|reflexivity|exact Ha]].
    intros old new ->. unfold reached.
    destruct ((Rule.id old =? Rule.id r)%N
              && is_author (Some (User.id u)) (Rule.created_by old)); [|reflexivity].
    unfold patch_rule, ruleData.
    cbn [formData FormData.rule_type FormData.rule_value RuleData.rule_type
         RuleData.rule_value Rule.rule_type Rule.rule_value].
    rewrite ruleValue_defined. now destruct Hk as [-> | ->].
  - now apply (handleSubmit_not_author _ w u r).
Qed.

Lemma edit_then_submit_stringifies_witness :
  (exists st1,
      handleEdit imported_format seeded_page = Some st1
      /\ map Rule.rule_value (Store.rules (db (snd (handleSubmit st1 seeded))))
         = [VObj [("required", VBool true)];
            Rule.rule_value net_quantity_format;
            VObj [("required", VBool true)];
            VStr ("{" ++ quote "pattern" ++ ":" ++ quote "^[0-9]+$" ++ "}")])
  /\ (exists st1,
        handleEdit net_quantity_format seeded_page = Some st1
        /\ showForm (fst (handleSubmit st1 seeded)) = false
        /\ db (snd (handleSubmit st1 seeded)) = db seeded).
Proof.
  split.
  - destruct (edit_then_submit_stringifies imported_format seeded_page seeded official _
                eq_refl eq_refl (or_introl eq_refl) eq_refl eq_refl) as [st1 [E _]].
    exists st1. split; [exact E|]. injection E as <-. reflexivity.
  - destruct (edit_then_submit_stringifies net_quantity_format seeded_page seeded official _
                eq_refl eq_refl (or_introl eq_refl) eq_refl eq_refl)
      as [st1 (E & _ & Closed & _ & Same)].
    exists st1. split; [exact E|]. split; [exact Closed|].
    apply Same. intros old [<- | [<- | [<- | [<- | []]]]]; discriminate.
Defined.

(** ** Deleting *)

Lemma filter_all {A : Type} (f : A -> bool) (l : list A) :
  (forall x, In x l -> f x = true) -> filter f l = l.
Proof.
  induction l as [|h t IH]; [reflexivity|]. intros H. cbn [filter].
  rewrite (H h (or_introl eq_refl)), IH; [reflexivity|].
  intros x Hx. apply H. now right.
Qed.

(** X7.  [handleDelete] removes the rules with the given id that the
    signed-in user created, and no other, when the user confirms and the
    store answers without error; the other rules keep their order, and
    the products and reports are untouched.  When the user declines or
    the store answers with an error, nothing is removed; and nothing is
    removed either, without any error, when no rule has the id or when
    the user did not create the rule, as with the rules the migration
    seeds. *)
Theorem handleDelete_removes :
  forall (i : uuid) (confirmed : bool) (st : state) (w : world),
    let after := db (snd (handleDelete i confirmed st w)) in
    products after = products (db w)
    /\ reports after = reports (db w)
    /\ (confirmed = false \/ accepts w = false -> after = db w)
    /\ (confirmed = true -> accepts w = true ->
        Store.rules after
        = filter (fun r => negb ((Rule.id r =? i)%N
                                 && is_author (uid st) (Rule.created_by r)))
            (Store.rules (db w))
        /\ (forall r, In r (Store.rules after)
                      <-> In r (Store.rules (db w))
                          /\ ~ (Rule.id r = i
                                /\ is_author (uid st) (Rule.created_by r) = true))
        /\ ((forall r, In r (Store.rules (db w)) -> Rule.id r = i ->
                       is_author (uid st) (Rule.created_by r) = false) ->
            after = db w)).
Proof.
  intros i confirmed st w after. subst after. rewrite handleDelete_db.
  split; [|split; [|split]].
  - now destruct (confirmed && accepts w).
  - now destruct (confirmed && accepts w).
  - intros [-> | ->]; [reflexivity|]. now rewrite andb_false_r.
  - intros -> ->. cbn [andb]. unfold db_delete_rule, delete_rows, reached.
    cbn [Store.rules].
    split; [reflexivity|]. split.
    + intros r. rewrite filter_In, negb_true_iff, andb_false_iff, N.eqb_neq.
      split; (intros [Hin H]; split; [exact Hin|]).
      * intros [E A]. destruct H as [H|H]; [now apply H|congruence].
      * destruct (N.eq_dec (Rule.id r) i) as [E|E]; [right|now left].
        destruct (is_author (uid st) (Rule.created_by r)); [|reflexivity].
        exfalso. now apply H.
    + intros H. rewrite filter_all; [apply database_eta|].
      intros r Hr. apply negb_true_iff, andb_false_iff.
      destruct (N.eqb_spec (Rule.id r) i) as [E|E]; [right; now apply H|now left].
Qed.

Lemma handleDelete_removes_witness :
  Store.rules (db (snd (handleDelete 5%N true config_page two_rules))) = [mrp_bounds]
  /\ db (snd (handleDelete 77%N true config_page two_rules)) = db two_rules
  /\ db (snd (handleDelete 4%N true seeded_page seeded)) = db seeded
  /\ db (snd (handleDelete 5%N false config_page two_rules)) = db two_rules.
Proof.
  split; [|split; [|split]].
  - rewrite (proj1 (proj2 (proj2 (proj2 (handleDelete_removes 5%N true config_page two_rules)))
                      eq_refl eq_refl)).
    reflexivity.
  - apply (proj2 (proj2 (proj2 (handleDelete_removes 77%N true config_page two_rules)))
             eq_refl eq_refl).
    intros r [<- | [<- | []]]; discriminate.
  - apply (proj2 (proj2 (proj2 (handleDelete_removes 4%N true seeded_page seeded)))
             eq_refl eq_refl).
    intros r [<- | [<- | [<- | [<- | []]]]]; intros E; try discriminate E; reflexivity.
  - apply (proj1 (proj2 (proj2 (handleDelete_removes 5%N false config_page two_rules)))).
    left. reflexivity.
Defined.

(** ** Fetching *)

Lemma insert_desc_permutation (r : Rule.t) (l : list Rule.t) :
  Permutation (r :: l) (insert_desc r l).
Proof.
  induction l as [|h t IH]; cbn [insert_desc]; [reflexivity|].
  destruct (Rule.created_at h <? Rule.created_at r)%N; [reflexivity|].
  rewrite perm_swap. now apply perm_skip.
Qed.

Lemma insert_desc_newest_first (r : Rule.t) (l : list Rule.t) :
  newest_first l -> newest_first (insert_desc r l).
Proof.
  induction l as [|h t IH]; cbn [insert_desc newest_first].
  - intros _. split; [intros r' []|exact I].
  - intros [Hh Ht]. destruct (N.ltb_spec (Rule.created_at h) (Rule.created_at r)) as [L|L].
    + cbn [newest_first]. split; [|split; assumption].
      intros r' [<- | Hin]; [lia|]. specialize (Hh r' Hin). lia.
    + cbn [newest_first]. split; [|now apply IH].
      intros r' Hin. apply In_insert_desc in Hin as [-> | Hin]; [exact L|now apply Hh].
Qed.

(** X8.  When the store answers, [fetchRules] shows exactly the rules of the
    table, each as often as it is stored, newest first; when it does not,
    the list on the page stays as it was.  In both cases the page stops
    loading and the store is not changed. *)
Theorem fetchRules_newest_first :
  forall (st : state) (w : world),
    loading (fst (fetchRules st w)) = false
    /\ db (snd (fetchRules st w)) = db w
    /\ (accepts w = false ->
        SystemConfigPage.rules (fst (fetchRules st w)) = SystemConfigPage.rules st)
    /\ (accepts w = true ->
        Permutation (Store.rules (db w)) (SystemConfigPage.rules (fst (fetchRules st w)))
        /\ newest_first (SystemConfigPage.rules (fst (fetchRules st w)))).
Proof.
  intros st w. split; [|split; [apply fetchRules_db|]].
  - unfold fetchRules, select_rules. now destruct (accept w) as [[] w'].
  - unfold fetchRules, select_rules, accepts. pose proof (accept_db w) as D.
    destruct (accept w) as [[] w']; cbn [fst snd] in *;
      (split; [intros H; try discriminate H; reflexivity|intros H; try discriminate H]).
    rewrite D. cbn [SystemConfigPage.rules]. clear. unfold order_created_at_desc.
    induction (Store.rules (db w)) as [|r rest [P S]]; cbn [fold_right].
    + split; [constructor|exact I].
    + split; [|now apply insert_desc_newest_first].
      rewrite <- insert_desc_permutation. now apply perm_skip.
Qed.

Lemma fetchRules_newest_first_witness :
  Permutation (Store.rules (db two_rules))
    (SystemConfigPage.rules (fst (fetchRules (initial (Some official)) two_rules)))
  /\ newest_first (SystemConfigPage.rules (fst (fetchRules (initial (Some official)) two_rules)))
  /\ map Rule.id (SystemConfigPage.rules (fst (fetchRules (initial (Some official)) two_rules)))
     = [6%N; 5%N].
Proof.
  destruct (proj2 (proj2 (proj2 (fetchRules_newest_first (initial (Some official)) two_rules)))
              eq_refl) as [P S].
  split; [exact P|]. split; [exact S|reflexivity].
Defined.

(** ** What the rule page keeps in the store *)

(** A property of the database that the four writes of the page keep
    holds along its events. *)
Section StoreInvariant.

Variable Inv : database -> Prop.
Hypothesis Inv_insert : forall rd d, Inv d -> Inv (db_insert_rule rd d).
Hypothesis Inv_update : forall auth rd i d, Inv d -> Inv (db_update_rule auth rd i d).
Hypothesis Inv_active :
  forall auth b i d, Inv d -> Inv (db_update_rule_is_active auth b i d).
Hypothesis Inv_delete : forall auth i d, Inv d -> Inv (db_delete_rule auth i d).

Lemma step_keeps (ev : event) (st : state) (w : world) (p : state * world) :
  Inv (db w) -> step ev st w = Some p -> Inv (db (snd p)).
Proof.
  intros H E. destruct ev; cbn [step] in E.
  - injection E as <-. now rewrite fetchRules_db.
  - now injection E as <-.
  - now injection E as <-.
  - destruct (form_complete (formData st)); [|discriminate].
    injection E as <-. rewrite handleSubmit_db.
    destruct (user st) as [u|]; [|exact H].
    destruct (accepts w); [|exact H].
    destruct (editingRule st) as [r|]; auto.
  - now injection E as <-.
  - destruct (handleEdit rule st); [|discriminate]. now injection E as <-.
  - injection E as <-. rewrite handleDelete_db.
    destruct (confirmed && accepts w); auto.
  - injection E as <-. rewrite toggleRuleStatus_db.
    destruct (accepts w); auto.
Qed.

Lemma run_keeps (evs : list event) (st st' : state) (w w' : world) :
  Inv (db w) -> run evs st w = Some (st', w') -> Inv (db w').
Proof.
  revert st w. induction evs as [|ev rest IH]; intros st w H E; cbn [run] in E.
  - now injection E as _ <-.
  - destruct (step ev st w) as [[st1 w1]|] eqn:S; [|discriminate].
    eapply IH; [|exact E]. exact (step_keeps ev st w (st1, w1) H S).
Qed.

End StoreInvariant.

(** X9.  The rule page writes to the rules only: along any sequence of its
    events the products and the reports stay as they were. *)
Theorem rule_page_leaves_products_and_reports :
  forall (evs : list event) (st st' : state) (w w' : world),
    run evs st w = Some (st', w') ->
    products (db w') = products (db w) /\ reports (db w') = reports (db w).
Proof.
  intros evs st st' w w' E.
  apply (run_keeps (fun d => products d = products (db w) /\ reports d = reports (db w)))
    with (evs := evs) (st := st) (st' := st') (w := w); auto.
Qed.

Lemma rule_page_leaves_products_and_reports_witness :
  exists st' w',
    run [Mount; ClickToggle mrp_present; ClickDelete mrp_range true;
         ClickAddRule; Change (form custom "mrp > 0"); Submit]
        config_page two_rules = Some (st', w')
    /\ products (db w') = products (db two_rules)
    /\ reports (db w') = reports (db two_rules).
Proof.
  do 2 eexists. split; [reflexivity|].
  eapply (rule_page_leaves_products_and_reports
            [Mount; ClickToggle mrp_present; ClickDelete mrp_range true;
             ClickAddRule; Change (form custom "mrp > 0"); Submit]
            config_page _ two_rules).
  reflexivity.
Defined.

Lemma map_id_update_rows (sel : Rule.t -> bool) (f : Rule.t -> Rule.t)
    (rows : list Rule.t) :
  (forall row, Rule.id (f row) = Rule.id row) ->
  map Rule.id (update_rows sel f rows) = map Rule.id rows.
Proof.
  intros Hf. unfold update_rows. rewrite map_map. apply map_ext.
  intros row. destruct (sel row); [apply Hf|reflexivity].
Qed.

Lemma NoDup_map_filter {A B : Type} (f : A -> B) (keep : A -> bool) (l : list A) :
  NoDup (map f l) -> NoDup (map f (filter keep l)).
Proof.
  induction l as [|h t IH]; [trivial|]. cbn [map filter]. intros N.
  inversion N as [|? ? Hnot Hrest]; subst.
  destruct (keep h); [|now apply IH]. cbn [map]. constructor; [|now apply IH].
  intros Hin. apply Hnot. apply in_map_iff in Hin as [x [Hx Hin]].
  apply filter_In in Hin as [Hin _]. apply in_map_iff. now exists x.
Qed.

(** X10.  Along the events of the rule page no two rules come to share an id:
    an edit, a toggle and a delete keep the ids of the rows, and a new
    rule gets the next id of the store, which no row has. *)
Theorem rule_page_keeps_ids_distinct :
  forall (evs : list event) (st st' : state) (w w' : world),
    ids_fresh (db w) ->
    run evs st w = Some (st', w') ->
    ids_fresh (db w').
Proof.
  intros evs st st' w w' H E.
  apply (run_keeps ids_fresh) with (evs := evs) (st := st) (st' := st') (w := w);
    try assumption; unfold ids_fresh; cbn [db_insert_rule db_update_rule
      db_update_rule_is_active db_delete_rule Store.rules next_id].
  - intros rd d [N F]. split.
    + rewrite map_app. cbn [map new_rule Rule.id].
      apply (Permutation_NoDup (Permutation_cons_append _ _)). constructor; [|exact N].
      intros Hin. apply in_map_iff in Hin as [r [Hr Hin]].
      rewrite Forall_forall in F. specialize (F r Hin). lia.
    + apply Forall_app. split.
      * apply Forall_impl with (2 := F). intros r Hr. lia.
      * constructor; [cbn; lia|constructor].
  - intros auth rd i d [N F]. split.
    + now rewrite map_id_update_rows.
    + apply update_rows_Forall; [|exact F]. intros row Hrow. exact Hrow.
  - intros auth b i d [N F]. split.
    + now rewrite map_id_update_rows.
    + apply update_rows_Forall; [|exact F]. intros row Hrow. exact Hrow.
  - intros auth i d [N F]. split.
    + now apply NoDup_map_filter.
    + now apply delete_rows_Forall.
Qed.

Lemma rule_page_keeps_ids_distinct_witness :
  exists st' w',
    run [ClickAddRule; Change (form custom "mrp > 0"); Submit;
         ClickEdit mrp_present; Submit;
         ClickAddRule; Change (form list_ "India, Nepal"); Submit]
        config_page two_rules = Some (st', w')
    /\ map Rule.id (Store.rules (db w')) = [5%N; 6%N; 100%N; 101%N]
    /\ ids_fresh (db w').
Proof.
  do 2 eexists. split; [reflexivity|]. split; [reflexivity|].
  eapply (rule_page_keeps_ids_distinct
            [ClickAddRule; Change (form custom "mrp > 0"); Submit;
             ClickEdit mrp_present; Submit;
             ClickAddRule; Change (form list_ "India, Nepal"); Submit]
            config_page _ two_rules); [|reflexivity].
  split.
  - repeat constructor; simpl; intuition discriminate.
  - repeat constructor.
Defined.

(** ** The report page *)

(** X11.  Unless a user is signed in, the product is loaded and the store
    applies the insert, submitting a report changes nothing in the store
    and does not leave the page; the button is released either way. *)
Theorem report_refused_changes_nothing :
  forall (st : ReportFormPage.state) (w : world),
    ReportFormPage.user st = None \/ ReportFormPage.product st = None
    \/ accepts w = false ->
    db (snd (ReportFormPage.handleSubmit st w)) = db w
    /\ ReportFormPage.location (fst (ReportFormPage.handleSubmit st w))
       = ReportFormPage.location st
    /\ ReportFormPage.formData (fst (ReportFormPage.handleSubmit st w))
       = ReportFormPage.formData st
    /\ (ReportFormPage.submitting st = false ->
        fst (ReportFormPage.handleSubmit st w) = st).
Proof.
  intros st w H. rewrite handleSubmit_report_db.
  unfold ReportFormPage.handleSubmit, insert_report.
  destruct (ReportFormPage.user st) as [u|] eqn:Eu; [|now repeat split].
  destruct (ReportFormPage.product st) as [p|] eqn:Ep; [|now repeat split].
  destruct H as [H|[H|H]]; try discriminate.
  rewrite H, request_rejected by exact H. cbn [fst].
  repeat split. intros S. destruct st; cbn in *. now subst.
Qed.

Lemma report_refused_changes_nothing_witness :
  db (snd (ReportFormPage.handleSubmit report_page (mkworld (db two_rules) [true])))
  = db two_rules
  /\ ReportFormPage.location
       (fst (ReportFormPage.handleSubmit report_page (mkworld (db two_rules) [true])))
     = "/report/1".
Proof.
  destruct (report_refused_changes_nothing report_page (mkworld (db two_rules) [true])
              (or_intror (or_intror eq_refl))) as (D & L & _).
  split; [exact D|exact L].
Defined.

Lemma filter_by_absent_id (rows : list Product.t) (i : uuid) :
  ~ In i (map Product.id rows) ->
  filter (fun q => (Product.id q =? i)%N) rows = [].
Proof.
  induction rows as [|h t IH]; [reflexivity|]. cbn [map filter]. intros Hnot.
  destruct (N.eqb_spec (Product.id h) i) as [E|E].
  - exfalso. apply Hnot. now left.
  - apply IH. intros Hin. apply Hnot. now right.
Qed.

Lemma filter_by_unique_id (rows : list Product.t) (p : Product.t) :
  NoDup (map Product.id rows) -> In p rows ->
  filter (fun q => (Product.id q =? Product.id p)%N) rows = [p].
Proof.
  induction rows as [|h t IH]; [contradiction|].
  cbn [map filter]. intros N Hin. inversion N as [|? ? Hnot Hrest]; subst.
  destruct (N.eqb_spec (Product.id h) (Product.id p)) as [E|E].
  - destruct Hin as [->|Hin]; [|exfalso; apply Hnot; rewrite E; now apply in_map].
    f_equal. now apply filter_by_absent_id.
  - destruct Hin as [->|Hin]; [congruence|]. now apply IH.
Qed.

(** X12.  [fetchProduct] loads the one product that has the id of the route.
    When the ids are distinct and a product has that id, it is loaded;
    what is loaded is a row of the table with that id.  When no product
    has the id (or the store fails), the page keeps no product, and
    submitting the report then does nothing at all. *)
Theorem fetchProduct_loads_the_product :
  forall (productId : uuid) (st : ReportFormPage.state) (w : world),
    let loaded := fst (ReportFormPage.fetchProduct productId st w) in
    ReportFormPage.loading loaded = false
    /\ db (snd (ReportFormPage.fetchProduct productId st w)) = db w
    /\ (forall p, ReportFormPage.product loaded = Some p ->
                  ReportFormPage.product st = Some p
                  \/ (In p (products (db w)) /\ Product.id p = productId))
    /\ (forall p, accepts w = true -> NoDup (map Product.id (products (db w))) ->
                  In p (products (db w)) -> Product.id p = productId ->
                  ReportFormPage.product loaded = Some p)
    /\ (ReportFormPage.product st = None ->
        (forall p, In p (products (db w)) -> Product.id p <> productId) ->
        forall w2, ReportFormPage.handleSubmit loaded w2 = (loaded, w2)).
Proof.
  intros productId st w loaded. subst loaded.
  assert (Idle : forall (st1 : ReportFormPage.state) (w2 : world),
             ReportFormPage.product st1 = None ->
             ReportFormPage.handleSubmit st1 w2 = (st1, w2)).
  { intros st1 w2 H. unfold ReportFormPage.handleSubmit. rewrite H.
    now destruct (ReportFormPage.user st1). }
  assert (Sel : forall p,
             filter (fun q => (Product.id q =? productId)%N) (products (db w)) = [p] ->
             In p (products (db w)) /\ Product.id p = productId).
  { intros p E.
    assert (I : In p (filter (fun q => (Product.id q =? productId)%N) (products (db w))))
      by (rewrite E; now left).
    apply filter_In in I as [I1 I2]. split; [exact I1|now apply N.eqb_eq]. }
  assert (Uniq : forall p, NoDup (map Product.id (products (db w))) ->
             In p (products (db w)) -> Product.id p = productId ->
             filter (fun q => (Product.id q =? productId)%N) (products (db w)) = [p]).
  { intros p N Hin <-. now apply filter_by_unique_id. }
  unfold ReportFormPage.fetchProduct, select_product, accepts.
  pose proof (accept_db w) as D. destruct (accept w) as [ok w1]. cbn [fst snd] in *.
  rewrite D.
  destruct ok;
    [destruct (filter (fun q => (Product.id q =? productId)%N) (products (db w)))
       as [|p0 [|p1 rest]] eqn:E|];
    cbn [fst snd ReportFormPage.loading ReportFormPage.product];
    (split; [reflexivity|split; [exact D|split; [|split]]]).
  - intros p H. now left.
  - intros p _ N Hin Hid. discriminate (Uniq p N Hin Hid).
  - intros Hnone _ w2. now apply Idle.
  - intros p [= <-]. right. now apply Sel.
  - intros p _ N Hin Hid. now injection (Uniq p N Hin Hid) as ->.
  - intros _ Habsent. exfalso. destruct (Sel p0 eq_refl) as [I1 I2].
    exact (Habsent p0 I1 I2).
  - intros p H. now left.
  - intros p _ N Hin Hid. discriminate (Uniq p N Hin Hid).
  - intros Hnone _ w2. now apply Idle.
  - intros p H. now left.
  - intros p H. discriminate H.
  - intros Hnone _ w2. now apply Idle.
Qed.

Lemma fetchProduct_loads_the_product_witness :
  ReportFormPage.product
    (fst (ReportFormPage.fetchProduct 2%N
            (ReportFormPage.initial (Some official) "/product/2/report") two_rules))
  = Some coffee
  /\ ReportFormPage.handleSubmit
       (fst (ReportFormPage.fetchProduct 9%N
               (ReportFormPage.initial (Some official) "/product/9/report") two_rules))
       two_rules
     = (fst (ReportFormPage.fetchProduct 9%N
               (ReportFormPage.initial (Some official) "/product/9/report") two_rules),
        two_rules).
Proof.
  split.
  - apply (proj1 (proj2 (proj2 (proj2 (fetchProduct_loads_the_product 2%N
             (ReportFormPage.initial (Some official) "/product/2/report") two_rules))))).
    + reflexivity.
    + repeat constructor; simpl; intuition discriminate.
    + right. left. reflexivity.
    + reflexivity.
  - apply (proj2 (proj2 (proj2 (proj2 (fetchProduct_loads_the_product 9%N
             (ReportFormPage.initial (Some official) "/product/9/report") two_rules))))).
    + reflexivity.
    + intros p [<- | [<- | []]]; discriminate.
Defined.

(** ** The dashboard *)

Lemma append_assoc (a b c : string) : ((a ++ b) ++ c)%string = (a ++ b ++ c)%string.
Proof. induction a as [|x r IH]; cbn [append]; [reflexivity|now rewrite IH]. Qed.

Lemma prefix_occurs (t s : string) :
  String.prefix t s = true <-> exists after, s = (t ++ after)%string.
Proof.
  revert s. induction t as [|c r IH]; intros s.
  - split; [intros _; now exists s|intros _; now destruct s].
  - destruct s as [|d s']; cbn [String.prefix append].
    + split; [discriminate|intros [after H]; discriminate H].
    + destruct (ascii_dec c d) as [->|Hne].
      * rewrite IH. split; intros [after H]; exists after; [now rewrite H|now injection H].
      * split; [discriminate|]. intros [after H]. injection H as H1 _. congruence.
Qed.

(** [s.includes(t)] holds exactly when [t] occurs in [s]. *)
Lemma includes_occurs (s t : string) : includes s t = true <-> occurs_in t s.
Proof.
  unfold occurs_in. induction s as [|c r IH]; cbn [includes].
  - rewrite orb_false_r, prefix_occurs. split.
    + intros [after H]. now exists EmptyString, after.
    + intros [before [after H]]. destruct before; [now exists after|discriminate H].
  - rewrite orb_true_iff, prefix_occurs, IH. split.
    + intros [[after H]|[before [after H]]].
      * now exists EmptyString, after.
      * exists (String c before), after. cbn [append]. now rewrite H.
    + intros [before [after H]]. destruct before as [|d before'].
      * left. now exists after.
      * right. cbn [append] in H. injection H as _ H. now exists before', after.
Qed.

(** On code units below 256 [toLowerCase] goes through a concatenation;
    the final sigma, whose lower case depends on what follows it, is not
    among them. *)
Lemma toLowerCase_app (a b : string) :
  toLowerCase (a ++ b) = (toLowerCase a ++ toLowerCase b)%string.
Proof. induction a as [|c r IH]; cbn [append toLowerCase]; [reflexivity|now rewrite IH]. Qed.

Lemma occurs_in_toLowerCase (t s : string) :
  occurs_in t s -> occurs_in (toLowerCase t) (toLowerCase s).
Proof.
  intros [before [after ->]]. exists (toLowerCase before), (toLowerCase after).
  now rewrite !toLowerCase_app.
Qed.

Lemma occurs_in_trans (t u s : string) :
  occurs_in t u -> occurs_in u s -> occurs_in t s.
Proof.
  intros [b1 [a1 ->]] [b2 [a2 ->]]. exists (b2 ++ b1)%string, (a1 ++ a2)%string.
  now rewrite !append_assoc.
Qed.

Lemma matchesSearch_occurs (term : string) (p : Product.t) :
  DashboardPage.matchesSearch term p = true
  <-> occurs_in (toLowerCase term) (toLowerCase (Product.name p))
      \/ exists m, Product.manufacturer p = Some m
                   /\ occurs_in (toLowerCase term) (toLowerCase m).
Proof.
  unfold DashboardPage.matchesSearch. rewrite orb_true_iff, includes_occurs.
  destruct (Product.manufacturer p) as [m|].
  - rewrite includes_occurs. split; (intros [H|H]; [now left|right]).
    + now exists m.
    + destruct H as [m' [[= <-] H]]. exact H.
  - split; (intros [H|H]; [now left|]); [discriminate H|now destruct H as [m [E _]]].
Qed.

Lemma matchesStatus_text (statusFilter : string) (p : Product.t) :
  DashboardPage.matchesStatus statusFilter p = true
  <-> statusFilter = "all"
      \/ DashboardPage.status_text (Product.compliance_status p) = statusFilter.
Proof.
  unfold DashboardPage.matchesStatus. now rewrite orb_true_iff, !String.eqb_eq.
Qed.

Lemma filteredProducts_lists_helper (st : DashboardPage.state) (p : Product.t) :
  In p (DashboardPage.filteredProducts st)
  <-> In p (DashboardPage.products st)
      /\ (DashboardPage.statusFilter st = "all"
          \/ DashboardPage.status_text (Product.compliance_status p)
             = DashboardPage.statusFilter st)
      /\ (occurs_in (toLowerCase (DashboardPage.searchTerm st))
            (toLowerCase (Product.name p))
          \/ exists m, Product.manufacturer p = Some m
                       /\ occurs_in (toLowerCase (DashboardPage.searchTerm st))
                            (toLowerCase m)).
Proof.
  unfold DashboardPage.filteredProducts.
  rewrite filter_In, andb_true_iff, matchesSearch_occurs, matchesStatus_text.
  tauto.
Qed.

(** X13.  The dashboard lists exactly the products whose status is the chosen
    one (or any, under [all]) and whose name or manufacturer holds the
    search term, letter case aside; a product without manufacturer is
    found by its name only. *)
Theorem filteredProducts_lists :
  forall (st : DashboardPage.state) (p : Product.t),
    In p (DashboardPage.filteredProducts st)
    <-> In p (DashboardPage.products st)
        /\ (DashboardPage.statusFilter st = "all"
            \/ DashboardPage.status_text (Product.compliance_status p)
               = DashboardPage.statusFilter st)
        /\ (occurs_in (toLowerCase (DashboardPage.searchTerm st))
              (toLowerCase (Product.name p))
            \/ exists m, Product.manufacturer p = Some m
                         /\ occurs_in (toLowerCase (DashboardPage.searchTerm st))
                              (toLowerCase m)).
Proof.
  intros st p. apply filteredProducts_lists_helper.
Qed.

(** X14.  With no search term and the filter on [all], as the page starts,
    every product is listed, in the order fetched. *)
Theorem filteredProducts_default :
  forall st : DashboardPage.state,
    DashboardPage.searchTerm st = EmptyString ->
    DashboardPage.statusFilter st = "all" ->
    DashboardPage.filteredProducts st = DashboardPage.products st.
Proof.
  intros st Ht Hf. unfold DashboardPage.filteredProducts. rewrite Ht, Hf.
  apply filter_all. intros p _.
  apply andb_true_iff. split; [|reflexivity].
  apply matchesSearch_occurs. left. now exists EmptyString, (toLowerCase (Product.name p)).
Qed.

Lemma filteredProducts_default_witness :
  DashboardPage.filteredProducts (DashboardPage.mkstate [rice; coffee] false "" "all")
  = [rice; coffee].
Proof.
  apply (filteredProducts_default (DashboardPage.mkstate [rice; coffee] false "" "all"));
    reflexivity.
Defined.

(** X15.  For a search term and for product names and manufacturers made of
    code units below 256 (Latin-1), the strings of this embedding, typing
    more into the search box never brings a product back: when the old
    term occurs in the new one, every product listed for the new term was
    listed for the old one.  (Outside Latin-1 the lower case of a letter
    can depend on its neighbours, as for the Greek final sigma, and the
    statement is not made.) *)
Theorem longer_search_term_narrows :
  forall (st : DashboardPage.state) (term : string) (p : Product.t),
    occurs_in (DashboardPage.searchTerm st) term ->
    In p (DashboardPage.filteredProducts
            (DashboardPage.mkstate (DashboardPage.products st) (DashboardPage.loading st)
               term (DashboardPage.statusFilter st))) ->
    In p (DashboardPage.filteredProducts st).
Proof.
  intros st term p Hocc. rewrite !filteredProducts_lists_helper.
  cbn [DashboardPage.products DashboardPage.statusFilter DashboardPage.searchTerm].
  apply occurs_in_toLowerCase in Hocc.
  intros (Hin & Hs & [H|[m [Hm H]]]); (split; [exact Hin|split; [exact Hs|]]).
  - left. exact (occurs_in_trans _ _ _ Hocc H).
  - right. exists m. split; [exact Hm|exact (occurs_in_trans _ _ _ Hocc H)].
Qed.

Lemma longer_search_term_narrows_witness :
  In rice (DashboardPage.filteredProducts
             (DashboardPage.mkstate [rice; coffee] false "Ba" "compliant")).
Proof.
  apply (longer_search_term_narrows
           (DashboardPage.mkstate [rice; coffee] false "Ba" "compliant") "c Basmati" rice).
  - exists "c ", "smati". reflexivity.
  - left. reflexivity.
Defined.

Lemma matchesStatus_cases (p : Product.t) :
  DashboardPage.matchesStatus "all" p = true
  /\ ((DashboardPage.matchesStatus "compliant" p = true
       /\ DashboardPage.matchesStatus "non-compliant" p = false
       /\ DashboardPage.matchesStatus "pending" p = false)
      \/ (DashboardPage.matchesStatus "compliant" p = false
          /\ DashboardPage.matchesStatus "non-compliant" p = true
          /\ DashboardPage.matchesStatus "pending" p = false)
      \/ (DashboardPage.matchesStatus "compliant" p = false
          /\ DashboardPage.matchesStatus "non-compliant" p = false
          /\ DashboardPage.matchesStatus "pending" p = true)).
Proof.
  unfold DashboardPage.matchesStatus. split; [reflexivity|].
  destruct (Product.compliance_status p);
    [left|right; left|right; right]; repeat split.
Qed.

(** X16.  The three status filters split what [all] lists: for one search
    term, the number of products under [all] is the sum of the numbers
    under [compliant], [non-compliant] and [pending]. *)
Theorem status_filters_partition :
  forall (ps : list Product.t) (l : bool) (term : string),
    List.length (DashboardPage.filteredProducts (DashboardPage.mkstate ps l term "all"))
    = (List.length (DashboardPage.filteredProducts
                      (DashboardPage.mkstate ps l term "compliant"))
       + List.length (DashboardPage.filteredProducts
                        (DashboardPage.mkstate ps l term "non-compliant"))
       + List.length (DashboardPage.filteredProducts
                        (DashboardPage.mkstate ps l term "pending")))%nat.
Proof.
  intros ps l term. unfold DashboardPage.filteredProducts.
  cbn [DashboardPage.products DashboardPage.searchTerm DashboardPage.statusFilter].
  induction ps as [|p rest IH]; [reflexivity|].
  cbn [filter].
  destruct (matchesStatus_cases p) as [Ha [(E1 & E2 & E3)|[(E1 & E2 & E3)|(E1 & E2 & E3)]]];
    rewrite Ha, E1, E2, E3;
    destruct (DashboardPage.matchesSearch term p); cbn [andb List.length]; lia.
Qed.

(** ** Bounds that cannot be typed *)

Lemma take_sign_without_dash (s : string) :
  contains "-" s = false -> fst (take_sign s) = false.
Proof.
  destruct s as [|c r]; [reflexivity|]. cbn [contains]. intros H.
  apply orb_false_iff in H as [Hc _]. revert Hc. by_char c; intros _; reflexivity.
Qed.

Lemma normalize_sign (neg : bool) (m : N) (e : Z) :
  exists m' e', normalize neg m e = Finite neg m' e'.
Proof.
  unfold normalize. destruct (m =? 0)%N; [now do 2 eexists|].
  destruct (0 <=? e)%Z; [now do 2 eexists|].
  destruct (strip_zeros (Z.to_nat (- e)) m e). now do 2 eexists.
Qed.

Lemma parseFloat_without_dash (s : string) :
  contains "-" s = false -> not_negative (parseFloat s) = true.
Proof.
  intros H. unfold parseFloat.
  pose proof (take_sign_without_dash _ (contains_trimStart "-" s H)) as T.
  destruct (take_sign (trimStart s)) as [neg s1]. cbn [fst] in T. subst neg.
  destruct (String.prefix "Infinity" s1); [reflexivity|].
  destruct (span_digits s1) as [ip s2].
  destruct (match s2 with
            | String "." r => span_digits r
            | _ => (EmptyString, s2)
            end) as [fp s3].
  destruct (is_empty ip && is_empty fp); [reflexivity|].
  now destruct (normalize_sign false (digits_value 0 (ip ++ fp))
                  (exponent_part s3 - Z.of_nat (String.length fp))) as [m' [e' ->]].
Qed.

(** X17.  No text of the form gives a range a negative bound: the text is cut
    at every ['-'], so the sign of a number is taken for a separator;
    [min] is a number that is not negative (or [NaN]), and so is [max]
    when it is there. *)
Theorem range_bounds_never_negative :
  forall text : string,
    exists (lo : number) (hi : value),
      ruleValue range text = VObj [("min", VNum lo); ("max", hi)]
      /\ not_negative lo = true
      /\ (hi = VUndefined \/ exists x, hi = VNum x /\ not_negative x = true).
Proof.
  intros text. unfold ruleValue.
  pose proof (split_parts_without_sep "-" text) as P.
  destruct (split "-" text) as [|first rest] eqn:E;
    [now destruct (split_nonempty "-" text)|].
  inversion P as [|? ? Hfirst Hrest]; subst.
  cbn [map element nth_error]. do 2 eexists. split; [reflexivity|]. split.
  - now apply parseFloat_without_dash, contains_trim.
  - destruct rest as [|second rest']; [now left|right].
    inversion Hrest as [|? ? Hsecond _]; subst. cbn [map nth_error].
    eexists. split; [reflexivity|].
    now apply parseFloat_without_dash, contains_trim.
Qed.
